(** * Burger & Co. chat ordering assistant: validation pipeline, response
    adapter, cart engine, notification center and conversation flow.

    Shallow embedding of [src/utils/validation.ts],
    [src/services/geminiService.ts], [src/constants.ts] and the state
    handlers of [src/App.tsx], followed by the properties of the
    specification that are settled on it. *)

From Stdlib Require Import String Ascii NArith ZArith Bool Lia List.
From ExtLib Require Import Structures.Monad Structures.MonadState.
From ExtLib Require Import Data.Monads.StateMonad.
Import ListNotations.
Import MonadNotation.
Local Open Scope monad_scope.
Local Open Scope bool_scope.
Local Open Scope list_scope.

(* ===================================================================== *)
(** * JavaScript strings

    A JavaScript string is a finite sequence of UTF-16 code units;
    [length], [slice], [includes] and regular expressions without the [u]
    flag all work on code units. *)
(* ===================================================================== *)

Definition jsstring := list N.

Module Js.

Local Open Scope N_scope.

(** ** Source literals

    String literals of the sources are written as Rocq strings (UTF-8
    bytes) and decoded to the code units the TypeScript compiler reads. *)

Definition cont (b : N) : N := N.land b 63.

Definition surrogates (cp : N) : list N :=
  if cp <? 65536 then [cp]
  else let v := cp - 65536 in
       [55296 + N.shiftr v 10; 56320 + N.land v 1023].

Fixpoint utf16 (bs : list N) : jsstring :=
  match bs with
  | [] => []
  | b1 :: r1 =>
    if b1 <? 128 then b1 :: utf16 r1
    else match r1 with
    | [] => [b1]
    | b2 :: r2 =>
      if b1 <? 224 then (N.shiftl (N.land b1 31) 6 + cont b2) :: utf16 r2
      else match r2 with
      | [] => [b1; b2]
      | b3 :: r3 =>
        if b1 <? 240
        then (N.shiftl (N.land b1 15) 12 + N.shiftl (cont b2) 6 + cont b3)
               :: utf16 r3
        else match r3 with
        | [] => [b1; b2; b3]
        | b4 :: r4 =>
          surrogates (N.shiftl (N.land b1 7) 18 + N.shiftl (cont b2) 12
                      + N.shiftl (cont b3) 6 + cont b4) ++ utf16 r4
        end
      end
    end
  end%N.

Definition lit (s : string) : jsstring :=
  utf16 (map N_of_ascii (list_ascii_of_string s)).

Definition chr (a : ascii) : N := N_of_ascii a.

(** ** Character classes of the regular expressions in the sources *)

(** [\d] *)
Definition isDigit (c : N) : bool := ((48 <=? c) && (c <=? 57))%N.

(** [\s], which is also the set removed by [String.prototype.trim]:
    WhiteSpace and LineTerminator code points. *)
Definition isSpace (c : N) : bool :=
  (((9 <=? c) && (c <=? 13)) || (c =? 32) || (c =? 160) || (c =? 5760)
   || ((8192 <=? c) && (c <=? 8202)) || (c =? 8232) || (c =? 8233)
   || (c =? 8239) || (c =? 8287) || (c =? 12288) || (c =? 65279))%N.

(** [\w] *)
Definition isWord (c : N) : bool :=
  (isDigit c || ((65 <=? c) && (c <=? 90)) || ((97 <=? c) && (c <=? 122))
   || (c =? 95))%N.

(** ** String methods *)

Definition eqb (s t : jsstring) : bool :=
  if list_eq_dec N.eq_dec s t then true else false.

Fixpoint dropWhile (p : N -> bool) (s : jsstring) : jsstring :=
  match s with
  | [] => []
  | c :: r => if p c then dropWhile p r else s
  end.

Definition trimStart (s : jsstring) : jsstring := dropWhile isSpace s.
Definition trimEnd (s : jsstring) : jsstring := rev (dropWhile isSpace (rev s)).
Definition trim (s : jsstring) : jsstring := trimEnd (trimStart s).

(** [s.slice(0, n)] *)
Definition sliceTo (n : nat) (s : jsstring) : jsstring := firstn n s.

Fixpoint startsWith (p s : jsstring) : bool :=
  match p, s with
  | [], _ => true
  | _ :: _, [] => false
  | a :: p', b :: s' => (a =? b)%N && startsWith p' s'
  end.

Fixpoint includes (p s : jsstring) : bool :=
  startsWith p s ||
  match s with
  | [] => false
  | _ :: r => includes p r
  end.

(** [s.replace(/re/g, repl)] for an expression that never matches the
    empty string: [m t] is the length of the match that starts at the
    head of [t], if any.  The scan takes the leftmost match, emits the
    replacement and resumes after the match; [skip] counts the code units
    of the current match still to be passed over. *)
Fixpoint replaceFrom (m : jsstring -> option nat) (repl : jsstring)
         (skip : nat) (s : jsstring) : jsstring :=
  match s with
  | [] => []
  | c :: r =>
    match skip with
    | S k => replaceFrom m repl k r
    | O => match m s with
           | Some (S k) => repl ++ replaceFrom m repl k r
           | _ => c :: replaceFrom m repl 0 r
           end
    end
  end.

Definition replaceAll (m : jsstring -> option nat) (repl s : jsstring) : jsstring :=
  replaceFrom m repl 0 s.

(** Match of a single character class [[...]] at the head. *)
Definition oneOf (p : N -> bool) (s : jsstring) : option nat :=
  match s with
  | c :: _ => if p c then Some 1%nat else None
  | [] => None
  end.

(** Match of [[...]+] at the head (greedy). *)
Fixpoint runLength (p : N -> bool) (s : jsstring) : nat :=
  match s with
  | c :: r => if p c then S (runLength p r) else O
  | [] => O
  end.

Definition someOf (p : N -> bool) (s : jsstring) : option nat :=
  match runLength p s with
  | O => None
  | n => Some n
  end.

(** [Number.prototype.toString] on a non-negative integer. *)
Definition digitChar (d : N) : N := (48 + d)%N.

Fixpoint decimalAux (fuel : nat) (n : N) (acc : jsstring) : jsstring :=
  match fuel with
  | O => acc
  | S k =>
    let acc' := digitChar (n mod 10) :: acc in
    if (n <? 10)%N then acc' else decimalAux k (n / 10) acc'
  end.

Definition decimal (n : N) : jsstring := decimalAux (S (N.to_nat (N.log2 n))) n [].

(** [Array.prototype.join] *)
Fixpoint join (sep : jsstring) (l : list jsstring) : jsstring :=
  match l with
  | [] => []
  | [x] => x
  | x :: r => x ++ sep ++ join sep r
  end.

(** [a.slice(-n)] on an array: its last [n] elements. *)
Definition lastN {A : Type} (n : nat) (l : list A) : list A :=
  skipn (length l - n) l.

End Js.

Notation "'js' s" := (Js.lit s%string) (at level 10, s at level 9, only parsing).
Arguments Js.lit : simpl never.

(** The line feed and the double quote, which a literal cannot hold. *)
Definition nl : jsstring := [10%N].
Definition dq : jsstring := [34%N].

(* ===================================================================== *)
(** * Validation pipeline ([src/utils/validation.ts]) *)
(* ===================================================================== *)

Module CEPValidationResult.
Record t := mk { valid : bool; cleanCEP : jsstring; error : option jsstring }.
End CEPValidationResult.

Module NameValidationResult.
Record t := mk { valid : bool; cleanName : jsstring; error : option jsstring }.
End NameValidationResult.

Inductive Missing := MissingNumber | MissingAll.

Module AddressValidationResult.
Record t := mk { valid : bool; missing : option Missing; error : option jsstring }.
End AddressValidationResult.

Module ValidationResult.
Record t := mk { valid : bool; error : option jsstring }.
End ValidationResult.

Module Validation.

Local Open Scope N_scope.

(** [/^0+$/] *)
Definition allZeros (s : jsstring) : bool :=
  negb (Nat.eqb (length s) 0) && forallb (N.eqb (Js.chr "0")) s.

(** [/^1{8}$/] *)
Definition eightOnes (s : jsstring) : bool :=
  Nat.eqb (length s) 8 && forallb (N.eqb (Js.chr "1")) s.

(** [/^(\d)\1{7}$/] *)
Definition repeatedDigit (s : jsstring) : bool :=
  match s with
  | d :: r => Js.isDigit d && Nat.eqb (length r) 7 && forallb (N.eqb d) r
  | [] => false
  end.

Definition invalidPatterns : list (jsstring -> bool) :=
  [ allZeros;                    (* All zeros *)
    eightOnes;                   (* All ones *)
    repeatedDigit;               (* Any repeated digit *)
    Js.eqb (js "12345678");      (* Sequential *)
    Js.eqb (js "87654321") ].    (* Reverse sequential *)

(** [parseInt(s[0], 10)]; [None] stands for [NaN]. *)
Definition parseFirstDigit (s : jsstring) : option N :=
  match s with
  | c :: _ => if Js.isDigit c then Some (c - 48) else None
  | [] => None
  end.

(** [x > 9], false on [NaN]. *)
Definition gt9 (x : option N) : bool :=
  match x with
  | Some d => 9 <? d
  | None => false
  end.

Definition validateCEP (cep : jsstring) : CEPValidationResult.t :=
  match cep with
  | [] => CEPValidationResult.mk false [] (Some (js "Por favor, digite um CEP."))
  | _ =>
    let cleanCEP := Js.replaceAll (Js.oneOf (fun c => negb (Js.isDigit c))) [] cep in
    if Nat.eqb (length cleanCEP) 0
    then CEPValidationResult.mk false [] (Some (js "Por favor, digite um CEP."))
    else if negb (Nat.eqb (length cleanCEP) 8)
    then CEPValidationResult.mk false cleanCEP
           (Some (js "CEP deve ter 8 digitos. Voce digitou "
                  ++ Js.decimal (N.of_nat (length cleanCEP)) ++ js "."))
    else if existsb (fun pattern => pattern cleanCEP) invalidPatterns
    then CEPValidationResult.mk false cleanCEP
           (Some (js "CEP invalido. Por favor, digite um CEP real."))
    else
      let firstDigit := parseFirstDigit cleanCEP in
      if gt9 firstDigit
      then CEPValidationResult.mk false cleanCEP
             (Some (js "CEP invalido. Por favor, digite um CEP real."))
      else CEPValidationResult.mk true cleanCEP None
  end.

(** [/^[\d\s]+$/] *)
Definition onlyDigitsOrSpaces (s : jsstring) : bool :=
  negb (Nat.eqb (length s) 0) && forallb (fun c => Js.isDigit c || Js.isSpace c) s.

(** The class [[a-zA-ZÀ-ÿ\s]]. *)
Definition isNameChar (c : N) : bool :=
  ((97 <=? c) && (c <=? 122)) || ((65 <=? c) && (c <=? 90))
  || ((192 <=? c) && (c <=? 255)) || Js.isSpace c.

(** [/^[^a-zA-ZÀ-ÿ\s]+$/] *)
Definition noNameChar (s : jsstring) : bool :=
  negb (Nat.eqb (length s) 0) && forallb (fun c => negb (isNameChar c)) s.

Definition validateName (name : jsstring) : NameValidationResult.t :=
  match name with
  | [] => NameValidationResult.mk false [] (Some (js "Por favor, digite seu nome."))
  | _ =>
    let cleanName := Js.trim name in
    if (length cleanName <? 2)%nat
    then NameValidationResult.mk false cleanName
           (Some (js "Por favor, digite um nome valido (minimo 2 caracteres)."))
    else if (100 <? length cleanName)%nat
    then NameValidationResult.mk false (Js.sliceTo 100 cleanName)
           (Some (js "Nome muito longo. Maximo 100 caracteres."))
    else if onlyDigitsOrSpaces cleanName
    then NameValidationResult.mk false cleanName
           (Some (js "Por favor, digite seu nome (nao apenas numeros)."))
    else if noNameChar cleanName
    then NameValidationResult.mk false cleanName
           (Some (js "Por favor, digite um nome valido."))
    else NameValidationResult.mk true cleanName None
  end.

(** [\b] after a word character: the next code unit, if any, is not a
    word character. *)
Definition wordEnds (s : jsstring) : bool :=
  match s with
  | [] => true
  | c :: _ => negb (Js.isWord c)
  end.

(** [/\b\d+\b/i.test(s)]: [prevWord] tells whether the code unit before
    the head of [s] is a word character.  A match starts at a digit that
    follows a non-word position and must take the whole run of digits, since
    a shorter one ends between two word characters. *)
Fixpoint numberTokenFrom (prevWord : bool) (s : jsstring) : bool :=
  match s with
  | [] => false
  | c :: r =>
    (negb prevWord && Js.isDigit c && wordEnds (Js.dropWhile Js.isDigit r))
    || numberTokenFrom (Js.isWord c) r
  end.

Definition isS (c : N) : bool := (c =? Js.chr "s") || (c =? Js.chr "S").
Definition isN (c : N) : bool := (c =? Js.chr "n") || (c =? Js.chr "N").

(** The rest of [s\/?n\b] once the [s] is read. *)
Definition afterS (r : jsstring) : bool :=
  match r with
  | c1 :: r1 =>
    if c1 =? Js.chr "/"
    then match r1 with
         | c2 :: r2 => isN c2 && wordEnds r2
         | [] => false
         end
    else isN c1 && wordEnds r1
  | [] => false
  end.

(** [/\bs\/?n\b/i.test(s)] *)
Fixpoint noNumberMarkFrom (prevWord : bool) (s : jsstring) : bool :=
  match s with
  | [] => false
  | c :: r =>
    (negb prevWord && isS c && afterS r) || noNumberMarkFrom (Js.isWord c) r
  end.

Definition validateAddress (address : jsstring) : AddressValidationResult.t :=
  match address with
  | [] => AddressValidationResult.mk false (Some MissingAll)
            (Some (js "Por favor, digite o endereco."))
  | _ =>
    let cleanAddress := Js.trim address in
    if (length cleanAddress <? 5)%nat
    then AddressValidationResult.mk false (Some MissingAll)
           (Some (js "O endereco parece muito curto. Por favor, digite Rua, Bairro e Cidade."))
    else
      (* Check if has number (including S/N for sem numero) *)
      let hasNumber := numberTokenFrom false cleanAddress
                       || noNumberMarkFrom false cleanAddress in
      if negb hasNumber
      then AddressValidationResult.mk false (Some MissingNumber) None
      else AddressValidationResult.mk true None None
  end.

Definition validateAddressNumber (input : jsstring) : ValidationResult.t :=
  match input with
  | [] => ValidationResult.mk false (Some (js "Por favor, digite o numero."))
  | _ =>
    let cleanInput := Js.trim input in
    if Nat.eqb (length cleanInput) 0
    then ValidationResult.mk false (Some (js "Por favor, digite o numero da casa."))
    else if (50 <? length cleanInput)%nat
    then ValidationResult.mk false (Some (js "Numero muito longo."))
    else ValidationResult.mk true None
  end.

Definition validatePaymentMethod (method : jsstring) : ValidationResult.t :=
  match method with
  | [] => ValidationResult.mk false
            (Some (js "Por favor, selecione a forma de pagamento."))
  | _ =>
    let cleanMethod := Js.trim method in
    if (length cleanMethod <? 2)%nat
    then ValidationResult.mk false
           (Some (js "Por favor, selecione uma forma de pagamento valida."))
    else if (50 <? length cleanMethod)%nat
    then ValidationResult.mk false (Some (js "Forma de pagamento invalida."))
    else ValidationResult.mk true None
  end.

Definition isAngle (c : N) : bool := (c =? Js.chr "<") || (c =? Js.chr ">").

Definition sanitizeDisplayText (text : jsstring) : jsstring :=
  match text with
  | [] => []
  | _ =>
    Js.sliceTo 1000                                      (* Reasonable limit *)
      (Js.replaceAll (Js.someOf Js.isSpace) (js " ")     (* Normalize whitespace *)
        (Js.replaceAll (Js.oneOf isAngle) []             (* Remove HTML-like characters *)
          (Js.trim text)))
  end.

End Validation.

(* ===================================================================== *)
(** * Store configuration ([src/constants.ts], [src/types.ts]) *)
(* ===================================================================== *)

(** Prices are whole amounts of reais in [MENU] and so is the delivery
    fee; with quantities below 100 every product and sum the cart engine
    forms is an integer far below 2^53, where the arithmetic of JavaScript
    numbers is exact integer arithmetic.  Numbers are therefore [Z]. *)

Module MenuItem.
Record t := mk {
  id : Z;
  name : jsstring;
  price : Z;
  category : jsstring }.
End MenuItem.

(** [interface CartItem extends MenuItem] *)
Module CartItem.
Record t := mk {
  id : Z;
  name : jsstring;
  price : Z;
  category : jsstring;
  quantity : Z }.

(** [{ ...item, quantity: q }] *)
Definition ofMenuItem (item : MenuItem.t) (q : Z) : t :=
  mk (MenuItem.id item) (MenuItem.name item) (MenuItem.price item)
     (MenuItem.category item) q.

(** [{ ...i, quantity: q }] *)
Definition withQuantity (i : t) (q : Z) : t :=
  mk (id i) (name i) (price i) (category i) q.
End CartItem.

Module UserData.
Record t := mk {
  name : jsstring;
  address : jsstring;
  paymentMethod : jsstring }.

Definition withName (d : t) (v : jsstring) : t := mk v (address d) (paymentMethod d).
Definition withAddress (d : t) (v : jsstring) : t := mk (name d) v (paymentMethod d).
Definition withPaymentMethod (d : t) (v : jsstring) : t := mk (name d) (address d) v.
End UserData.

Inductive Role := bot | user.

(** A chat message.  Its [id] (drawn from [Math.random]) and its formatted
    [timestamp] are presentation data that no handler reads back. *)
Module Message.
Record t := mk {
  role : Role;
  text : jsstring;
  image : option jsstring }.
End Message.

Definition STORE_NAME : jsstring := js "Burger & Co.".
Definition STORE_PHONE : jsstring := js "5571984829910".
Definition DELIVERY_FEE : Z := 7.

Definition MENU : list MenuItem.t :=
  [ MenuItem.mk 1 (js "X-Burger Clássico") 25 (js "Burgers");
    MenuItem.mk 2 (js "X-Bacon Cheddar") 32 (js "Burgers");
    MenuItem.mk 3 (js "Smash Duplo") 28 (js "Burgers");
    MenuItem.mk 4 (js "Vegetariano Soul") 30 (js "Burgers");
    MenuItem.mk 5 (js "Batata Frita") 15 (js "Acompanhamentos");
    MenuItem.mk 6 (js "Onion Rings") 18 (js "Acompanhamentos");
    MenuItem.mk 7 (js "Nuggets (10 unidades)") 20 (js "Acompanhamentos");
    MenuItem.mk 8 (js "Refrigerante Lata") 6 (js "Bebidas");
    MenuItem.mk 9 (js "Suco Natural") 10 (js "Bebidas");
    MenuItem.mk 10 (js "Água Mineral") 4 (js "Bebidas") ].

Definition SYSTEM_PROMPT : jsstring :=
  Js.join nl
    [ [];
      js "Você é um assistente virtual da hamburgueria " ++ dq ++ STORE_NAME ++ dq ++ js ".";
      js "SUA FUNÇÃO: Ajudar o cliente a escolher itens e tirar dúvidas sobre o cardápio.";
      [];
      js "REGRAS RÍGIDAS (NÃO QUEBRE):";
      js "1. **VOCÊ NÃO ANOTA PEDIDOS**: O cliente DEVE adicionar os itens clicando nos botões " ++ dq ++ js "+" ++ dq ++ js " e " ++ dq ++ js "-" ++ dq ++ js " do cardápio visual na tela. Se o cliente disser " ++ dq ++ js "quero um X-Burger" ++ dq ++ js ", responda: " ++ dq ++ js "Ótima escolha! Por favor, adicione ele clicando no botão '+' aqui no cardápio abaixo 👇" ++ dq ++ js ".";
      js "2. **SEJA CURTO**: Respostas de no máximo 2 frases. Use emojis (🍔, 😋).";
      js "3. **SUGESTÕES**: Se pedirem indicação, sugira o " ++ dq ++ js "X-Bacon Cheddar" ++ dq ++ js ".";
      js "4. **CONTEXTO**: Lembre-se do que já foi falado.";
      js "5. **FINALIZAÇÃO**: Se o cliente disser que acabou ou quer fechar, diga para clicar no botão " ++ dq ++ js "Finalizar" ++ dq ++ js " ou " ++ dq ++ js "Carrinho" ++ dq ++ js ".";
      [];
      js "IMPORTANTE: Nunca diga " ++ dq ++ js "anotei seu pedido" ++ dq ++ js ". Diga " ++ dq ++ js "adicione ao carrinho visual" ++ dq ++ js ".";
      [] ].

(* ===================================================================== *)
(** * The browser environment *)
(* ===================================================================== *)

(** [String.prototype.toLowerCase] follows the Unicode case mapping of the
    host; the development is parametric in it. *)
Class JsRuntime := { toLowerCase : jsstring -> jsstring }.

(** How a [fetch], or reading the body of its response, can reject: the
    abort signal fired, or the transport failed. *)
Inductive Rejection := Aborted | Failed.

(** What the network does with one request. *)
Inductive Attempt (Body : Type) :=
| Rejects (r : Rejection)
| Responds (status : N) (body : Rejection + Body).
Arguments Rejects {Body} r.
Arguments Responds {Body} status body.

(** [response.ok] *)
Definition ok (status : N) : bool := ((200 <=? status) && (status <=? 299))%N.

(** JSON object of the postal-code directory; an absent field is [None]. *)
Module ViaCep.
Record t := mk {
  erro : bool;
  logradouro : option jsstring;
  bairro : option jsstring;
  localidade : option jsstring;
  uf : option jsstring }.
End ViaCep.

(** [x || ''] on an optional string field *)
Definition orEmpty (x : option jsstring) : jsstring :=
  match x with
  | Some s => s
  | None => []
  end.

(** [!x] on an optional string field *)
Definition falsy (x : option jsstring) : bool :=
  match x with
  | Some (_ :: _) => false
  | _ => true
  end.

(** What the program does to the outside, in order. *)
Inductive Event :=
| Fetch (url : jsstring) (body : option jsstring)
| Delay (ms : N)
| Warn (label : jsstring).

(** The outside world: the clock read by [Date.now()], the answer the
    network gives to the request number [n] on either endpoint, the number
    of requests issued so far and the trace of events. *)
Record Browser := mkBrowser {
  now : N;
  textApi : nat -> Attempt jsstring;
  viaCep : nat -> Attempt ViaCep.t;
  requests : nat;
  events : list Event }.

Definition emit (e : Event) : state Browser unit :=
  w <- get ;;
  put (mkBrowser (now w) (textApi w) (viaCep w) (requests w) (events w ++ [e])).

Definition nextRequest : state Browser nat :=
  w <- get ;;
  put (mkBrowser (now w) (textApi w) (viaCep w) (S (requests w)) (events w)) ;;
  ret (requests w).

(** [fetch(url, { method: 'POST', body })] against the text endpoint *)
Definition fetchText (url body : jsstring) : state Browser (Attempt jsstring) :=
  emit (Fetch url (Some body)) ;;
  n <- nextRequest ;;
  w <- get ;;
  ret (textApi w n).

(** [fetch(url)] against the postal-code directory *)
Definition fetchCep (url : jsstring) : state Browser (Attempt ViaCep.t) :=
  emit (Fetch url None) ;;
  n <- nextRequest ;;
  w <- get ;;
  ret (viaCep w n).

(** Values thrown inside the [try] blocks. *)
Inductive JsError :=
| AbortError                       (* DOMException raised by the abort signal *)
| TypeError                        (* transport failure of [fetch] *)
| NetworkError (statusCode : N)    (* class of geminiService.ts *)
| APIError                         (* class of geminiService.ts *)
| HttpError (status : N).          (* [new Error(`HTTP ${status}`)] *)

Definition ofRejection (r : Rejection) : JsError :=
  match r with
  | Aborted => AbortError
  | Failed => TypeError
  end.

(** [error.name] *)
Definition errorName (e : JsError) : jsstring :=
  match e with
  | AbortError => js "AbortError"
  | TypeError => js "TypeError"
  | NetworkError _ => js "NetworkError"
  | APIError => js "APIError"
  | HttpError _ => js "Error"
  end.

(* ===================================================================== *)
(** * External response adapter ([src/services/geminiService.ts]) *)
(* ===================================================================== *)

Module HistoryTurn.
Record t := mk { role : jsstring; text : jsstring }.
End HistoryTurn.

Module GeminiService.

Section WithRuntime.
Context {rt : JsRuntime}.

Definition textApiUrl : jsstring := js "https://text.pollinations.ai/".
Definition maxRetries : nat := 2.
Definition retryDelay : N := 1000.

Definition anyIncluded (keywords : list jsstring) (lower : jsstring) : bool :=
  existsb (fun v => Js.includes v lower) keywords.

(** Fallback Local *)
Definition getLocalResponse (message : jsstring) : jsstring :=
  let lower := Js.trim (toLowerCase message) in
  if Nat.eqb (length lower) 0 then js "Desculpe, não entendi."
  (* 1. Intencao de Compra *)
  else if anyIncluded [js "quero"; js "me vê"; js "manda"; js "adicionar";
                       js "pedir"; js "comprar"; js "fome"] lower
  then js "Para pedir, é só clicar nos botões de **(+)** e **(-)** ao lado de cada item no cardápio abaixo! 👇🍔"
  (* 2. Duvidas de Cardapio *)
  else if anyIncluded [js "cardápio"; js "cardapio"; js "menu"; js "opções";
                       js "tem o que"; js "ver"] lower
  then js "Nosso cardápio completo está logo abaixo das mensagens. Navegue pelas abas (Burgers, Bebidas) para ver tudo! 📋"
  (* 3. Sugestao *)
  else if anyIncluded [js "sugestão"; js "indica"; js "bom"; js "fome"; js "melhor"] lower
  then js "O **X-Bacon Cheddar** é o favorito da casa! 🥓 Que tal experimentar? Adicione ele ali no menu."
  (* 4. Finalizacao *)
  else if anyIncluded [js "fechar"; js "conta"; js "pagar"; js "fim";
                       js "acabei"; js "encerrar"] lower
  then js "Perfeito! Se já escolheu tudo, clique no botão **Finalizar** (o botão verde com o carrinho) para prosseguirmos."
  (* 5. Informacoes Gerais *)
  else if anyIncluded [js "hora"; js "funcionamento"; js "aberto"; js "fecha"] lower
  then js "Estamos abertos todos os dias das **18h às 23h**! ⏰"
  else if anyIncluded [js "onde"; js "fica"; js "local"; js "endereço"; js "bairro"] lower
  then js "Somos uma Dark Kitchen! Entregamos em toda a região. 🛵"
  else if anyIncluded [js "pix"; js "cartão"; js "dinheiro"; js "pagamento"] lower
  then js "Aceitamos Pix, Cartão de Crédito/Débito e Dinheiro. Você escolhe na finalização! 💳"
  (* 6. Saudacoes Simples *)
  else if existsb (fun v => Js.eqb lower v || Js.startsWith (v ++ js " ") lower)
            [js "oi"; js "olá"; js "ola"; js "bom dia"; js "boa tarde";
             js "boa noite"; js "ei"]
  then js "Olá! Bem-vindo à **Burger & Co.**! 🍔 Estou aqui para ajudar."
  else if anyIncluded [js "obrigado"; js "valeu"; js "tks"] lower
  then js "Imagina! Estou à disposição. 😉"
  (* Resposta padrao *)
  else js "Entendi! Dê uma olhada no nosso cardápio visual aqui embaixo. Qualquer dúvida sobre os ingredientes, é só perguntar! 😉".

(** Delay helper for retry mechanism *)
Definition delay (ms : N) : state Browser unit := emit (Delay ms).

Definition warn (label : jsstring) : state Browser unit := emit (Warn label).

(** Sanitizes user input to prevent injection and clean up text *)
Definition sanitizeInput (text : jsstring) : jsstring :=
  match text with
  | [] => []
  | _ =>
    Js.replaceAll (Js.someOf Js.isSpace) (js " ")        (* Normalize whitespace *)
      (Js.replaceAll (Js.oneOf Validation.isAngle) []    (* Remove potential HTML tags *)
        (Js.sliceTo 500                                  (* Limit input length *)
          (Js.trim text)))
  end.

(** Validates API response *)
Definition isValidResponse (text : jsstring) : bool :=
  match text with
  | [] => false
  | _ =>
    if (length text <? 2)%nat then false
    else if Js.includes (js "<html") text || Js.includes (js "<!DOCTYPE") text then false
    else if Js.includes (js "error") (toLowerCase text) && (length text <? 50)%nat then false
    else if Js.includes (js "undefined") text && (length text <? 20)%nat then false
    else true
  end.

Definition historyLine (h : HistoryTurn.t) : jsstring :=
  (if Js.eqb (HistoryTurn.role h) (js "user") then js "Cliente" else js "Atendente")
  ++ js ": " ++ HistoryTurn.text h.

Definition fullPrompt (sanitizedMessage : jsstring) (history : list HistoryTurn.t) : jsstring :=
  let recentHistory := Js.join nl (map historyLine (Js.lastN 6 history)) in
  SYSTEM_PROMPT ++ nl ++ nl ++ js "Histórico da Conversa:" ++ nl ++ recentHistory
  ++ nl ++ js "Cliente: " ++ sanitizedMessage ++ nl ++ js "Atendente:".

(** The body of the [try] block of one attempt: the text returned, or the
    value thrown. *)
Definition attemptOnce (sanitizedMessage : jsstring) (history : list HistoryTurn.t)
  : state Browser (JsError + jsstring) :=
  response <- fetchText textApiUrl (fullPrompt sanitizedMessage history) ;;
  match response with
  | Rejects r => ret (inl (ofRejection r))
  | Responds status body =>
    if negb (ok status) then ret (inl (NetworkError status))
    else match body with
         | inl r => ret (inl (ofRejection r))
         | inr text =>
           if negb (isValidResponse text) then ret (inl APIError)
           else ret (inr (Js.trim text))
         end
  end.

(** [error instanceof Error && error.name === 'AbortError'] *)
Definition isAbort (error : JsError) : bool := Js.eqb (errorName error) (js "AbortError").

(** [error instanceof NetworkError && error.statusCode &&
     error.statusCode >= 400 && error.statusCode < 500] *)
Definition isClientError (error : JsError) : bool :=
  match error with
  | NetworkError statusCode =>
    (negb (statusCode =? 0) && (400 <=? statusCode) && (statusCode <? 500))%N
  | _ => false
  end.

(** The [for (let attempt = 0; attempt <= this.maxRetries; attempt++)]
    loop from a given [attempt] on; [fuel] bounds the iterations left.
    [Some text] is the early [return]; [None] is leaving the loop. *)
Fixpoint retryLoop (fuel attempt : nat) (sanitizedMessage : jsstring)
         (history : list HistoryTurn.t) : state Browser (option jsstring) :=
  match fuel with
  | O => ret None
  | S fuel' =>
    if (attempt <=? maxRetries)%nat then
      r <- attemptOnce sanitizedMessage history ;;
      match r with
      | inr text => ret (Some text)
      | inl error =>
        (* Don't retry on abort (timeout) or if it's a 4xx error *)
        if isAbort error then
          warn (js "Request timeout, using fallback") ;;
          ret None
        else if isClientError error then
          warn (js "Client error, not retrying:") ;;
          ret None
        else
          (* Wait before retry (exponential backoff) *)
          (if (attempt <? maxRetries)%nat
           then delay (retryDelay * 2 ^ N.of_nat attempt)%N
           else ret tt) ;;
          retryLoop fuel' (S attempt) sanitizedMessage history
      end
    else ret None
  end.

Definition sendMessage (message : jsstring) (history : list HistoryTurn.t)
  : state Browser jsstring :=
  let sanitizedMessage := sanitizeInput message in
  match sanitizedMessage with
  | [] => ret (js "Desculpe, nao entendi. Pode repetir?")
  | _ =>
    r <- retryLoop (S maxRetries) 0 sanitizedMessage history ;;
    match r with
    | Some text => ret text
    | None =>
      (* All retries failed, use fallback *)
      warn (js "Usando resposta local (Fallback):") ;;
      ret (getLocalResponse sanitizedMessage)
    end
  end.

End WithRuntime.

End GeminiService.

(* ===================================================================== *)
(** * Application state ([src/App.tsx]) *)
(* ===================================================================== *)

Inductive FlowStep :=
| ordering | ask_name | ask_address | ask_address_number | confirm_address
| ask_payment | review | edit_info | finished.

Module EditField.
Inductive t := name | address | payment.
End EditField.

Module Severity.
Inductive t := error | warning | success | info.
End Severity.

(** A notification; [id] is [Date.now().toString()], kept as the number
    that [parseInt(n.id)] reads back. *)
Module Notification.
Record t := mk {
  id : N;
  type : Severity.t;
  message : jsstring;
  dismissible : bool }.
End Notification.

(** The [useState] cells of the component that the handlers below use. *)
Record AppState := mkAppState {
  messages : list Message.t;
  isTyping : bool;
  inputText : jsstring;
  cart : list CartItem.t;
  userData : UserData.t;
  pendingAddress : jsstring;
  flowStep : FlowStep;
  isChatClosed : bool;
  redirectionProgress : Z;
  isSearchingCEP : bool;
  showMenu : bool;
  editField : option EditField.t;
  notifications : list Notification.t;
  isOnline : bool }.

(** Initial values of the [useState] cells. *)
Definition initialState (online : bool) : AppState :=
  mkAppState [] false [] [] (UserData.mk [] [] []) [] ordering false 0 false false
             None [] online.

(** The setters: [setX(f)] with an updater function. *)
Definition updMessages (f : list Message.t -> list Message.t) (s : AppState) : AppState :=
  mkAppState (f (messages s)) (isTyping s) (inputText s) (cart s) (userData s) (pendingAddress s) (flowStep s) (isChatClosed s) (redirectionProgress s) (isSearchingCEP s) (showMenu s) (editField s) (notifications s) (isOnline s).
Definition updIsTyping (f : bool -> bool) (s : AppState) : AppState :=
  mkAppState (messages s) (f (isTyping s)) (inputText s) (cart s) (userData s) (pendingAddress s) (flowStep s) (isChatClosed s) (redirectionProgress s) (isSearchingCEP s) (showMenu s) (editField s) (notifications s) (isOnline s).
Definition updInputText (f : jsstring -> jsstring) (s : AppState) : AppState :=
  mkAppState (messages s) (isTyping s) (f (inputText s)) (cart s) (userData s) (pendingAddress s) (flowStep s) (isChatClosed s) (redirectionProgress s) (isSearchingCEP s) (showMenu s) (editField s) (notifications s) (isOnline s).
Definition updCart (f : list CartItem.t -> list CartItem.t) (s : AppState) : AppState :=
  mkAppState (messages s) (isTyping s) (inputText s) (f (cart s)) (userData s) (pendingAddress s) (flowStep s) (isChatClosed s) (redirectionProgress s) (isSearchingCEP s) (showMenu s) (editField s) (notifications s) (isOnline s).
Definition updUserData (f : UserData.t -> UserData.t) (s : AppState) : AppState :=
  mkAppState (messages s) (isTyping s) (inputText s) (cart s) (f (userData s)) (pendingAddress s) (flowStep s) (isChatClosed s) (redirectionProgress s) (isSearchingCEP s) (showMenu s) (editField s) (notifications s) (isOnline s).
Definition updPendingAddress (f : jsstring -> jsstring) (s : AppState) : AppState :=
  mkAppState (messages s) (isTyping s) (inputText s) (cart s) (userData s) (f (pendingAddress s)) (flowStep s) (isChatClosed s) (redirectionProgress s) (isSearchingCEP s) (showMenu s) (editField s) (notifications s) (isOnline s).
Definition updFlowStep (f : FlowStep -> FlowStep) (s : AppState) : AppState :=
  mkAppState (messages s) (isTyping s) (inputText s) (cart s) (userData s) (pendingAddress s) (f (flowStep s)) (isChatClosed s) (redirectionProgress s) (isSearchingCEP s) (showMenu s) (editField s) (notifications s) (isOnline s).
Definition updIsChatClosed (f : bool -> bool) (s : AppState) : AppState :=
  mkAppState (messages s) (isTyping s) (inputText s) (cart s) (userData s) (pendingAddress s) (flowStep s) (f (isChatClosed s)) (redirectionProgress s) (isSearchingCEP s) (showMenu s) (editField s) (notifications s) (isOnline s).
Definition updRedirectionProgress (f : Z -> Z) (s : AppState) : AppState :=
  mkAppState (messages s) (isTyping s) (inputText s) (cart s) (userData s) (pendingAddress s) (flowStep s) (isChatClosed s) (f (redirectionProgress s)) (isSearchingCEP s) (showMenu s) (editField s) (notifications s) (isOnline s).
Definition updIsSearchingCEP (f : bool -> bool) (s : AppState) : AppState :=
  mkAppState (messages s) (isTyping s) (inputText s) (cart s) (userData s) (pendingAddress s) (flowStep s) (isChatClosed s) (redirectionProgress s) (f (isSearchingCEP s)) (showMenu s) (editField s) (notifications s) (isOnline s).
Definition updShowMenu (f : bool -> bool) (s : AppState) : AppState :=
  mkAppState (messages s) (isTyping s) (inputText s) (cart s) (userData s) (pendingAddress s) (flowStep s) (isChatClosed s) (redirectionProgress s) (isSearchingCEP s) (f (showMenu s)) (editField s) (notifications s) (isOnline s).
Definition updEditField (f : option EditField.t -> option EditField.t) (s : AppState) : AppState :=
  mkAppState (messages s) (isTyping s) (inputText s) (cart s) (userData s) (pendingAddress s) (flowStep s) (isChatClosed s) (redirectionProgress s) (isSearchingCEP s) (showMenu s) (f (editField s)) (notifications s) (isOnline s).
Definition updNotifications (f : list Notification.t -> list Notification.t) (s : AppState) : AppState :=
  mkAppState (messages s) (isTyping s) (inputText s) (cart s) (userData s) (pendingAddress s) (flowStep s) (isChatClosed s) (redirectionProgress s) (isSearchingCEP s) (showMenu s) (editField s) (f (notifications s)) (isOnline s).
Definition updIsOnline (f : bool -> bool) (s : AppState) : AppState :=
  mkAppState (messages s) (isTyping s) (inputText s) (cart s) (userData s) (pendingAddress s) (flowStep s) (isChatClosed s) (redirectionProgress s) (isSearchingCEP s) (showMenu s) (editField s) (notifications s) (f (isOnline s)).

(** The whole system: the component state and the world around it. *)
Record Sys := mkSys { app : AppState; browser : Browser }.

(** A state setter of React applied to the latest state. *)
Definition setState (f : AppState -> AppState) : state Sys unit :=
  x <- get ;;
  put (mkSys (f (app x)) (browser x)).

(** A computation of the service layer run from the component. *)
Definition inBrowser {A : Type} (m : state Browser A) : state Sys A :=
  x <- get ;;
  let (a, w) := runState m (browser x) in
  put (mkSys (app x) w) ;;
  ret a.

(** [Date.now()] *)
Definition dateNow : state Sys N :=
  x <- get ;;
  ret (now (browser x)).

Definition setMessages f := setState (updMessages f).
Definition setIsTyping (v : bool) := setState (updIsTyping (fun _ => v)).
Definition setInputText (v : jsstring) := setState (updInputText (fun _ => v)).
Definition setCart f := setState (updCart f).
Definition setUserData f := setState (updUserData f).
Definition setPendingAddress (v : jsstring) := setState (updPendingAddress (fun _ => v)).
Definition setFlowStep (v : FlowStep) := setState (updFlowStep (fun _ => v)).
Definition setIsChatClosed (v : bool) := setState (updIsChatClosed (fun _ => v)).
Definition setRedirectionProgress (v : Z) := setState (updRedirectionProgress (fun _ => v)).
Definition setIsSearchingCEP (v : bool) := setState (updIsSearchingCEP (fun _ => v)).
Definition setShowMenu (v : bool) := setState (updShowMenu (fun _ => v)).
Definition setEditField (v : option EditField.t) := setState (updEditField (fun _ => v)).
Definition setNotifications f := setState (updNotifications f).

(** An event handler closes over the values of the render in which it was
    created: it reads the state from that snapshot and writes through the
    setters. *)
Definition Handler := AppState -> state Sys unit.

(** Runs a handler on the snapshot of the current state. *)
Definition dispatch (h : Handler) : state Sys unit :=
  x <- get ;;
  h (app x).

Module App.

Local Open Scope Z_scope.

(** ** Notification center *)

(** The updater passed to [setNotifications] by [showNotification]. *)
Definition pushNotification (n : Notification.t) (prev : list Notification.t)
  : list Notification.t :=
  (* Avoid duplicate messages *)
  if existsb (fun m => Js.eqb (Notification.message m) (Notification.message n)) prev
  then prev
  else Js.lastN 3 prev ++ [n].

Definition showNotification (type : Severity.t) (message : jsstring) (dismissible : bool)
  : state Sys unit :=
  id <- dateNow ;;
  setNotifications (pushNotification (Notification.mk id type message dismissible)).

Definition dismissNotification (id : N) : state Sys unit :=
  setNotifications (filter (fun n => negb (Notification.id n =? id)%N)).

(** The sweep run every second by the auto-dismiss timer. *)
Definition autoDismiss : state Sys unit :=
  t <- dateNow ;;
  setNotifications
    (filter (fun n => negb (Notification.dismissible n)
                      || (Z.of_N t - Z.of_N (Notification.id n) <? 5000))).

(** ** Chat log *)

Definition addMessage (role : Role) (text : jsstring) (image : option jsstring)
  : state Sys unit :=
  let sanitizedText := Validation.sanitizeDisplayText text in
  setMessages (fun prev => prev ++ [Message.mk role sanitizedText image]).

(** ** Cart engine *)

Definition subtotalValue (cart : list CartItem.t) : Z :=
  fold_left (fun acc item => acc + CartItem.price item * CartItem.quantity item) cart 0.

Definition totalValue (cart : list CartItem.t) : Z :=
  subtotalValue cart + (if 0 <? subtotalValue cart then DELIVERY_FEE else 0).

(** The updater passed to [setCart] by [addToCart]. *)
Definition addItem (item : MenuItem.t) (prev : list CartItem.t) : list CartItem.t :=
  match find (fun i => CartItem.id i =? MenuItem.id item) prev with
  | Some existing =>
    (* Limit quantity to prevent abuse *)
    if 99 <=? CartItem.quantity existing then prev
    else map (fun i => if CartItem.id i =? MenuItem.id item
                       then CartItem.withQuantity i (CartItem.quantity i + 1)
                       else i) prev
  | None => prev ++ [CartItem.ofMenuItem item 1]
  end.

Definition addToCart (item : MenuItem.t) : Handler := fun snapshot =>
  if isChatClosed snapshot then ret tt
  else setCart (addItem item).

(** The updater passed to [setCart] by [removeFromCart]. *)
Definition removeItem (id : Z) (prev : list CartItem.t) : list CartItem.t :=
  filter (fun i => 0 <? CartItem.quantity i)
    (map (fun i => if CartItem.id i =? id
                   then CartItem.withQuantity i (CartItem.quantity i - 1)
                   else i) prev).

Definition removeFromCart (id : Z) : Handler := fun snapshot =>
  if isChatClosed snapshot then ret tt
  else setCart (removeItem id).

(** ** Address resolution *)

Definition digits (n : nat) (s : jsstring) : bool :=
  (n <=? length s)%nat && forallb Js.isDigit (firstn n s).

(** Length of the match of [\d{5}-?\d{3}] at the head of [s]. *)
Definition cepAt (s : jsstring) : option nat :=
  if digits 5 s then
    match skipn 5 s with
    | c :: r =>
      if (c =? Js.chr "-")%N
      then (if digits 3 r then Some 9%nat else None)
      else (if digits 3 (c :: r) then Some 8%nat else None)
    | [] => None
    end
  else None.

(** [s.match(/\d{5}-?\d{3}/)]: the text of the leftmost match. *)
Fixpoint matchCepAnywhere (s : jsstring) : option jsstring :=
  match cepAt s with
  | Some n => Some (firstn n s)
  | None => match s with
            | [] => None
            | _ :: r => matchCepAnywhere r
            end
  end.

(** [s.match(/^\d{8}$/)] *)
Definition matchCepExact (s : jsstring) : option jsstring :=
  if Nat.eqb (length s) 8 && forallb Js.isDigit s then Some s else None.

(** [s.match(/\d{5}-?\d{3}/) || s.match(/^\d{8}$/)], as [cepMatch[0]] *)
Definition cepMatch (sanitizedInput : jsstring) : option jsstring :=
  match matchCepAnywhere sanitizedInput with
  | Some m => Some m
  | None => matchCepExact sanitizedInput
  end.

Definition isComma (c : N) : bool := (c =? Js.chr ",")%N.

(** [.replace(/^,\s*/, '')] *)
Definition stripLeadingComma (s : jsstring) : jsstring :=
  match s with
  | c :: r => if isComma c then Js.dropWhile Js.isSpace r else s
  | [] => []
  end.

(** Length of the match of [,\s*,] at the head of [s]. *)
Definition commaPairAt (s : jsstring) : option nat :=
  match s with
  | c :: r =>
    if isComma c then
      match Js.dropWhile Js.isSpace r with
      | d :: _ => if isComma d then Some (2 + Js.runLength Js.isSpace r)%nat else None
      | [] => None
      end
    else None
  | [] => None
  end.

(** [.replace(/,\s*,/g, ',')] *)
Definition collapseCommaPairs (s : jsstring) : jsstring :=
  Js.replaceAll commaPairAt (js ",") s.

(** The display string built from a lookup result. *)
Definition baseAddressOf (cepData : ViaCep.t) : jsstring :=
  collapseCommaPairs
    (stripLeadingComma
      (orEmpty (ViaCep.logradouro cepData) ++ js ", "
       ++ orEmpty (ViaCep.bairro cepData) ++ js ", "
       ++ orEmpty (ViaCep.localidade cepData) ++ js " - "
       ++ orEmpty (ViaCep.uf cepData))).

(** [e || fallback] on an optional message *)
Definition orElse (e : option jsstring) (fallback : jsstring) : jsstring :=
  match e with
  | Some (c :: r) => c :: r
  | _ => fallback
  end.

(** An optional message inside a template literal *)
Definition templated (e : option jsstring) : jsstring :=
  match e with
  | Some m => m
  | None => js "undefined"
  end.

(** The [try] block of [handleCEPAction]: the value returned, or the value
    thrown. *)
Definition lookupCEP (cleanCEP : jsstring) : state Sys (JsError + option ViaCep.t) :=
  response <- inBrowser (fetchCep (js "https://viacep.com.br/ws/" ++ cleanCEP ++ js "/json/")) ;;
  match response with
  | Rejects r => ret (inl (ofRejection r))
  | Responds status body =>
    if negb (ok status) then ret (inl (HttpError status))
    else match body with
         | inl r => ret (inl (ofRejection r))
         | inr data =>
           if ViaCep.erro data then
             showNotification Severity.error
               (js "CEP nao encontrado. Verifique e tente novamente.") true ;;
             ret (inr None)
           (* Validate required fields *)
           else if falsy (ViaCep.logradouro data) && falsy (ViaCep.bairro data)
                   && falsy (ViaCep.localidade data) then
             showNotification Severity.warning
               (js "CEP encontrado, mas sem endereco completo. Digite manualmente.") true ;;
             ret (inr None)
           else ret (inr (Some data))
         end
  end.

(** CEP lookup with comprehensive error handling *)
Definition handleCEPAction (cep : jsstring) (snapshot : AppState)
  : state Sys (option ViaCep.t) :=
  let validation := Validation.validateCEP cep in
  if negb (CEPValidationResult.valid validation) then
    showNotification Severity.error
      (orElse (CEPValidationResult.error validation) (js "CEP invalido")) true ;;
    ret None
  else if negb (isOnline snapshot) then
    showNotification Severity.error (js "Sem conexao. Verifique sua internet.") true ;;
    ret None
  else
    setIsSearchingCEP true ;;
    r <- lookupCEP (CEPValidationResult.cleanCEP validation) ;;
    result <- match r with
              | inr data => ret data
              | inl error =>
                (if Js.eqb (errorName error) (js "AbortError")
                 then showNotification Severity.error
                        (js "Tempo esgotado. Tente novamente ou digite o endereco.") true
                 else showNotification Severity.error
                        (js "Erro ao buscar CEP. Digite o endereco completo.") true) ;;
                inBrowser (emit (Warn (js "Erro ao buscar CEP:"))) ;;
                ret None
              end ;;
    setIsSearchingCEP false ;;
    ret result.

(** ** Conversation flow *)

(** [n.toFixed(2)] and [`${n}`] on an integer *)
Definition ofZ (z : Z) : jsstring :=
  (if z <? 0 then js "-" else []) ++ Js.decimal (Z.abs_N z).

Definition toFixed2 (z : Z) : jsstring := ofZ z ++ js ".00".

(** The text composed by [showReviewMessage] from the cart and total of
    the render and the data passed in. *)
Definition reviewText (cart : list CartItem.t) (data : UserData.t) : jsstring :=
  let itemsText :=
    Js.join nl (map (fun i => js "â€¢ " ++ ofZ (CartItem.quantity i) ++ js "x "
                              ++ CartItem.name i) cart) in
  js "*CONFIRA SEU PEDIDO* ðŸ“‹" ++ nl ++ nl ++ itemsText ++ nl ++ nl
     ++ js "ðŸ‘¤ *Nome:* " ++ UserData.name data ++ nl
     ++ js "ðŸ“ *Local:* " ++ UserData.address data ++ nl
     ++ js "ðŸ’³ *Pagamento:* " ++ UserData.paymentMethod data ++ nl ++ nl
     ++ js "ðŸ’° *TOTAL: R$ " ++ toFixed2 (totalValue cart) ++ js "*" ++ nl ++ nl
     ++ js "Esta tudo certo? Clique em **Confirmar** ou **Voltar** para corrigir!".

Definition showReviewMessage (data : UserData.t) : Handler := fun snapshot =>
  addMessage bot (reviewText (cart snapshot) data) None.

Definition positiveResponses : list jsstring :=
  [js "sim"; js "s"; js "yes"; js "confirmo"; js "correto"; js "isso"; js "certo";
   js "ok"; js "confirmar"].

Definition negativeResponses : list jsstring :=
  [js "nao"; js "nÃ£o"; js "n"; js "no"; js "errado"; js "nope"; js "negativo"; js "outro"].

Definition historyTurn (m : Message.t) : HistoryTurn.t :=
  HistoryTurn.mk (match Message.role m with bot => js "bot" | user => js "user" end)
                 (Message.text m).

Section WithRuntime.
Context {rt : JsRuntime}.

(** The [edit_info] branch of [handleBotResponse] for a chosen field. *)
Definition handleEdit (field : EditField.t) (sanitizedInput : jsstring) : Handler :=
  fun snapshot =>
  match field with
  | EditField.name =>
    let nameValidation := Validation.validateName sanitizedInput in
    if negb (NameValidationResult.valid nameValidation) then
      setIsTyping false ;;
      showNotification Severity.error
        (orElse (NameValidationResult.error nameValidation) (js "Nome invalido")) true ;;
      addMessage bot (templated (NameValidationResult.error nameValidation)
                      ++ js " Tente novamente.") None
    else
      let cleanName := NameValidationResult.cleanName nameValidation in
      setUserData (fun prev => UserData.withName prev cleanName) ;;
      setIsTyping false ;;
      addMessage bot (js "Nome atualizado para *" ++ cleanName ++ js "*!") None ;;
      setEditField None ;;
      setFlowStep review ;;
      showReviewMessage (UserData.withName (userData snapshot) cleanName) snapshot
  | EditField.address =>
    (* Check if it's a CEP *)
    match cepMatch sanitizedInput with
    | Some cep =>
      cepData <- handleCEPAction cep snapshot ;;
      match cepData with
      | Some data =>
        let baseAddress := baseAddressOf data in
        setPendingAddress baseAddress ;;
        setIsTyping false ;;
        addMessage bot (js "Encontrei o endereco:" ++ nl ++ js "*" ++ baseAddress ++ js "*"
                        ++ nl ++ nl
                        ++ js "Agora informe o **numero da casa** e complemento.") None ;;
        setFlowStep ask_address_number
      | None => setIsTyping false
      end
    | None =>
      let addressValidation := Validation.validateAddress sanitizedInput in
      if negb (AddressValidationResult.valid addressValidation)
         && match AddressValidationResult.missing addressValidation with
            | Some MissingAll => true
            | _ => false
            end
      then
        setIsTyping false ;;
        showNotification Severity.error
          (orElse (AddressValidationResult.error addressValidation)
                  (js "Endereco invalido")) true ;;
        addMessage bot (templated (AddressValidationResult.error addressValidation)
                        ++ js " Tente novamente.") None
      else
        setUserData (fun prev => UserData.withAddress prev sanitizedInput) ;;
        setIsTyping false ;;
        addMessage bot (js "Endereco atualizado!") None ;;
        setEditField None ;;
        setFlowStep review ;;
        showReviewMessage (UserData.withAddress (userData snapshot) sanitizedInput) snapshot
    end
  | EditField.payment =>
    let paymentValidation := Validation.validatePaymentMethod sanitizedInput in
    if negb (ValidationResult.valid paymentValidation) then
      setIsTyping false ;;
      showNotification Severity.error
        (orElse (ValidationResult.error paymentValidation)
                (js "Forma de pagamento invalida")) true
    else
      setUserData (fun prev => UserData.withPaymentMethod prev sanitizedInput) ;;
      setIsTyping false ;;
      addMessage bot (js "Forma de pagamento atualizada para *" ++ sanitizedInput
                      ++ js "*!") None ;;
      setEditField None ;;
      setFlowStep review ;;
      showReviewMessage (UserData.withPaymentMethod (userData snapshot) sanitizedInput)
                        snapshot
  end.

(** The branches of [handleBotResponse] that follow the edit flow: data
    collection by step, then the generative responder. *)
Definition handleStep (sanitizedInput : jsstring) : Handler := fun snapshot =>
  match flowStep snapshot with
  | ask_name =>
    let nameValidation := Validation.validateName sanitizedInput in
    if negb (NameValidationResult.valid nameValidation) then
      setIsTyping false ;;
      showNotification Severity.warning
        (orElse (NameValidationResult.error nameValidation) (js "Nome invalido")) true ;;
      addMessage bot (orElse (NameValidationResult.error nameValidation)
                             (js "Por favor, digite um nome valido.")) None
    else
      let cleanName := NameValidationResult.cleanName nameValidation in
      setUserData (fun prev => UserData.withName prev cleanName) ;;
      setIsTyping false ;;
      addMessage bot (js "Prazer, *" ++ cleanName ++ js "*!" ++ nl
                      ++ js "Qual o **endereco de entrega**? (Digite o CEP ou Nome da Rua)")
                 None ;;
      setFlowStep ask_address
  | ask_address =>
    (* Tenta identificar CEP *)
    match cepMatch sanitizedInput with
    | Some cep =>
      cepData <- handleCEPAction cep snapshot ;;
      match cepData with
      | Some data =>
        let baseAddress := baseAddressOf data in
        setPendingAddress baseAddress ;;
        setIsTyping false ;;
        addMessage bot (js "Encontrei o endereco:" ++ nl ++ js "*" ++ baseAddress ++ js "*"
                        ++ nl ++ nl ++ js "**Este endereco esta correto?**" ++ nl
                        ++ js "Responda *SIM* para confirmar ou *NAO* para digitar outro.")
                   None ;;
        setFlowStep confirm_address
      | None =>
        setIsTyping false ;;
        addMessage bot
          (js "Nao consegui encontrar o CEP. Tente digitar o endereco completo.") None
      end
    | None =>
      let validation := Validation.validateAddress sanitizedInput in
      match AddressValidationResult.valid validation,
            AddressValidationResult.missing validation with
      | false, Some MissingAll =>
        setIsTyping false ;;
        showNotification Severity.warning (js "Endereco muito curto") true ;;
        addMessage bot
          (js "O endereco parece muito curto. Por favor, digite Rua, Bairro e Cidade.") None
      | false, Some MissingNumber =>
        setPendingAddress sanitizedInput ;;
        setIsTyping false ;;
        addMessage bot (js "Entendi a rua! Agora preciso do **numero da casa**.") None ;;
        setFlowStep ask_address_number
      | _, _ =>
        setUserData (fun prev => UserData.withAddress prev sanitizedInput) ;;
        setIsTyping false ;;
        addMessage bot (js "Anotado!" ++ nl ++ js "Como voce prefere **pagar**?") None ;;
        setFlowStep ask_payment
      end
    end
  | confirm_address =>
    let response := Js.trim (toLowerCase sanitizedInput) in
    if existsb (Js.eqb response) positiveResponses then
      setIsTyping false ;;
      addMessage bot
        (js "Otimo! Agora informe o **numero da casa** e complemento (ex: 123, Apto 45).")
        None ;;
      setFlowStep ask_address_number
    else if existsb (Js.eqb response) negativeResponses then
      setPendingAddress [] ;;
      setIsTyping false ;;
      addMessage bot (js "Sem problemas! Digite o endereco completo ou outro CEP.") None ;;
      setFlowStep ask_address
    else
      setIsTyping false ;;
      addMessage bot
        (js "Por favor, responda *SIM* para confirmar ou *NAO* para digitar outro endereco.")
        None
  | ask_address_number =>
    let numberValidation := Validation.validateAddressNumber sanitizedInput in
    if negb (ValidationResult.valid numberValidation) then
      setIsTyping false ;;
      showNotification Severity.warning
        (orElse (ValidationResult.error numberValidation) (js "Numero invalido")) true ;;
      addMessage bot (orElse (ValidationResult.error numberValidation)
                             (js "Por favor, digite o numero da casa.")) None
    else
      let finalAddress :=
        match pendingAddress snapshot with
        | _ :: _ => pendingAddress snapshot ++ js ", N " ++ sanitizedInput
        | [] => UserData.address (userData snapshot) ++ js ", N " ++ sanitizedInput
        end in
      setUserData (fun prev => UserData.withAddress prev finalAddress) ;;
      setPendingAddress [] ;;
      setIsTyping false ;;
      addMessage bot (js "Endereco completo!" ++ nl ++ js "Qual a **forma de pagamento**?")
                 None ;;
      setFlowStep ask_payment
  | ask_payment =>
    let paymentValidation := Validation.validatePaymentMethod sanitizedInput in
    if negb (ValidationResult.valid paymentValidation) then
      setIsTyping false ;;
      showNotification Severity.warning (js "Selecione uma forma de pagamento") true ;;
      addMessage bot (js "Por favor, escolha: Pix, Cartao ou Dinheiro.") None
    else
      setUserData (fun prev => UserData.withPaymentMethod prev sanitizedInput) ;;
      setIsTyping false ;;
      setFlowStep review ;;
      showReviewMessage (UserData.withPaymentMethod (userData snapshot) sanitizedInput)
                        snapshot
  | _ =>
    (* --- IA GENERATIVA (Ordering) --- *)
    if negb (isOnline snapshot) then
      setIsTyping false ;;
      addMessage bot
        (js "Estou sem conexao no momento. Use os botoes do cardapio para fazer seu pedido!")
        None
    else
      let historyContext := map historyTurn (Js.lastN 5 (messages snapshot)) in
      botResponse <- inBrowser (GeminiService.sendMessage sanitizedInput historyContext) ;;
      setIsTyping false ;;
      addMessage bot botResponse None
  end.

(** [handleBotResponse].  The [await]s are run to completion inside the
    step, one input being processed at a time; nothing in the [try] block
    throws in the model (the lookup and the adapter catch their own errors),
    so its [catch] is not reached. *)
Definition handleBotResponse (userText : jsstring) : Handler := fun snapshot =>
  setIsTyping true ;;
  let sanitizedInput := Validation.sanitizeDisplayText userText in
  match sanitizedInput with
  | [] =>
    setIsTyping false ;;
    addMessage bot (js "Desculpe, nao entendi. Pode repetir?") None
  | _ =>
    (* --- Edit Info Flow --- *)
    match flowStep snapshot, editField snapshot with
    | edit_info, Some field => handleEdit field sanitizedInput snapshot
    | _, _ => handleStep sanitizedInput snapshot
    end
  end.

Definition handleSend (textToSend : option jsstring) : Handler := fun snapshot =>
  if isChatClosed snapshot then ret tt
  else
    let text := match textToSend with
                | Some (c :: r) => c :: r
                | _ => inputText snapshot
                end in
    if Nat.eqb (length (Js.trim text)) 0 then ret tt
    else
      setInputText [] ;;
      addMessage user text None ;;
      handleBotResponse text snapshot.

End WithRuntime.

(** The 600 ms timer of [startCheckoutFlow] is collapsed: its message is
    appended at once. *)
Definition startCheckoutFlow : Handler := fun snapshot =>
  if Nat.eqb (length (cart snapshot)) 0 then
    addMessage bot (js "Seu carrinho esta vazio! Adicione itens antes de finalizar.") None
  else
    addMessage user (js "Fechar meu Pedido") None ;;
    setFlowStep ask_name ;;
    setIsTyping true ;;
    setIsTyping false ;;
    addMessage bot (js "Perfeito! Vamos fechar seu pedido." ++ nl ++ nl
                    ++ js "Primeiro, qual e o seu **nome**?") None.

Definition goBackToEditing : Handler := fun snapshot =>
  setFlowStep edit_info ;;
  addMessage bot
    (js "*SUAS INFORMACOES ATUAIS:*" ++ nl ++ nl
     ++ js "ðŸ‘¤ *Nome:* " ++ UserData.name (userData snapshot) ++ nl
     ++ js "ðŸ“ *Endereco:* " ++ UserData.address (userData snapshot) ++ nl
     ++ js "ðŸ’³ *Pagamento:* " ++ UserData.paymentMethod (userData snapshot) ++ nl ++ nl
     ++ js "O que deseja alterar? Clique em uma opcao abaixo.") None.

(** The buttons shown in [edit_info]. *)
Definition editNameButton : Handler := fun _ =>
  setEditField (Some EditField.name) ;;
  addMessage bot (js "Digite o novo nome:") None.

Definition editAddressButton : Handler := fun _ =>
  setEditField (Some EditField.address) ;;
  addMessage bot (js "Digite o novo endereco ou CEP:") None.

Definition editPaymentButton : Handler := fun _ =>
  setEditField (Some EditField.payment) ;;
  addMessage bot (js "Escolha a forma de pagamento:") None ;;
  setFlowStep ask_payment.

Definition continueButton : Handler := fun snapshot =>
  setFlowStep review ;;
  showReviewMessage (userData snapshot) snapshot.

(** [!s] on a string *)
Definition isEmpty (s : jsstring) : bool :=
  match s with
  | [] => true
  | _ => false
  end.

(** [startRedirection] up to the start of the progress timer; the ticks
    are [redirectionTick]. *)
Definition startRedirection : Handler := fun snapshot =>
  (* Validate all required data before starting *)
  if isEmpty (UserData.name (userData snapshot))
     || isEmpty (UserData.address (userData snapshot))
     || isEmpty (UserData.paymentMethod (userData snapshot)) then
    showNotification Severity.error
      (js "Dados incompletos. Por favor, preencha todas as informacoes.") true ;;
    setFlowStep edit_info
  else if Nat.eqb (length (cart snapshot)) 0 then
    showNotification Severity.error
      (js "Carrinho vazio. Adicione itens antes de finalizar.") true ;;
    setFlowStep ordering
  else
    setFlowStep finished.

(** One tick of the 60 ms interval: [progress] is the local counter of the
    timer; the result tells whether the interval goes on.  Opening the
    messaging link is outside the model. *)
Definition redirectionTick (progress : Z) : state Sys (Z * bool) :=
  let progress := progress + 5 in
  setRedirectionProgress progress ;;
  if 100 <=? progress then
    setIsChatClosed true ;;
    ret (progress, false)
  else ret (progress, true).

(** [handleShowMenu]; its 300 ms timer is collapsed like the one of the
    checkout. *)
Definition handleShowMenu : Handler := fun _ =>
  setShowMenu true ;;
  addMessage user (js "Ver Cardapio") None ;;
  addMessage bot
    (js "Aqui esta nosso cardapio completo! ðŸ“‹" ++ nl ++ nl
     ++ js "Navegue pelas categorias acima (Burgers, Acompanhamentos, Bebidas) e clique no **(+)** para adicionar ao carrinho." ++ nl ++ nl
     ++ js "Deslize para o lado para trocar de categoria!") None.

(** The listeners of the [online] and [offline] events of the window. *)
Definition setIsOnline (v : bool) := setState (updIsOnline (fun _ => v)).

Definition handleOnline : state Sys unit :=
  setIsOnline true ;;
  showNotification Severity.success (js "Conexao restaurada!") true.

Definition handleOffline : state Sys unit :=
  setIsOnline false ;;
  showNotification Severity.error (js "Sem conexao com a internet") false.

(** The interval started by [startRedirection], run until it clears
    itself; [fuel] bounds the number of ticks. *)
Fixpoint runInterval (fuel : nat) (progress : Z) : state Sys unit :=
  match fuel with
  | O => ret tt
  | S fuel' =>
    r <- redirectionTick progress ;;
    match r with
    | (progress', true) => runInterval fuel' progress'
    | (_, false) => ret tt
    end
  end.

End App.

(* ===================================================================== *)
(** * A sample host for running the model *)
(* ===================================================================== *)

(** Lower-casing of Basic Latin and Latin-1 letters, other code units
    unchanged; used to run the model on concrete inputs. *)
Definition latin1Lower (c : N) : N :=
  (if ((65 <=? c) && (c <=? 90)) || ((192 <=? c) && (c <=? 222) && negb (c =? 215))
   then c + 32 else c)%N.

Definition Latin1 : JsRuntime := {| toLowerCase := map latin1Lower |}.

(** A network on which every request is answered the same way. *)
Definition steadyBrowser (text : Attempt jsstring) (cep : Attempt ViaCep.t) : Browser :=
  mkBrowser 1700000000000 (fun _ => text) (fun _ => cep) 0 [].

(** A network that is down. *)
Definition offlineBrowser : Browser := steadyBrowser (Rejects Failed) (Rejects Failed).

(* ===================================================================== *)
(** * Vocabulary of the specification *)
(* ===================================================================== *)

(** ** Postal codes *)

(** Stripping every non-digit character. *)
Definition digitsOf (cep : jsstring) : jsstring := filter Js.isDigit cep.

(** One digit repeated eight times. *)
Definition singleRepeatedDigit (s : jsstring) : Prop := exists d, s = repeat d 8.

(** Exactly eight digits remain and they are none of the forbidden
    patterns. *)
Definition plausibleCEP (cep : jsstring) : Prop :=
  length (digitsOf cep) = 8
  /\ ~ singleRepeatedDigit (digitsOf cep)
  /\ digitsOf cep <> js "12345678"
  /\ digitsOf cep <> js "87654321".

(** ** Cart *)

Definition lineTotal (i : CartItem.t) : Z := (CartItem.price i * CartItem.quantity i)%Z.

(** The sum of a list of amounts. *)
Definition sumZ (l : list Z) : Z := fold_right Z.add 0%Z l.

(** The two operations through which the cart changes. *)
Inductive CartOp :=
| AddItem (item : MenuItem.t)
| RemoveItem (id : Z).

Definition cartHandler (op : CartOp) : Handler :=
  match op with
  | AddItem item => App.addToCart item
  | RemoveItem id => App.removeFromCart id
  end.

Fixpoint runCartOps (ops : list CartOp) : state Sys unit :=
  match ops with
  | [] => ret tt
  | op :: rest => dispatch (cartHandler op) ;; runCartOps rest
  end.

Definition quantityInRange (i : CartItem.t) : Prop :=
  (1 <= CartItem.quantity i <= 99)%Z.

(** The invariant of the cart: one line per item, each within range. *)
Definition cartOk (c : list CartItem.t) : Prop :=
  NoDup (map CartItem.id c) /\ Forall quantityInRange c.

(** The line of the item [id], if any. *)
Definition lineOf (id : Z) (c : list CartItem.t) : option CartItem.t :=
  find (fun i => (CartItem.id i =? id)%Z) c.

(** A short session at the menu. *)
Definition sampleOps : list CartOp :=
  [AddItem (MenuItem.mk 1 (js "X-Burger") 25 (js "Burgers"));
   AddItem (MenuItem.mk 8 (js "Refrigerante Lata") 6 (js "Bebidas"));
   AddItem (MenuItem.mk 1 (js "X-Burger") 25 (js "Burgers"));
   RemoveItem 8].

(** ** Notifications *)

(** What can happen to the notification list, with the time at which it
    happens where the clock is read. *)
Inductive NotificationOp :=
| ShowOp (time : N) (type : Severity.t) (message : jsstring) (dismissible : bool)
| DismissOp (id : N)
| SweepOp (time : N).

Definition setClock (t : N) : state Sys unit :=
  x <- get ;;
  let w := browser x in
  put (mkSys (app x) (mkBrowser t (textApi w) (viaCep w) (requests w) (events w))).

Definition notificationStep (op : NotificationOp) : state Sys unit :=
  match op with
  | ShowOp t type message dismissible =>
    setClock t ;; App.showNotification type message dismissible
  | DismissOp id => App.dismissNotification id
  | SweepOp t => setClock t ;; App.autoDismiss
  end.

Fixpoint runNotificationOps (ops : list NotificationOp) : state Sys unit :=
  match ops with
  | [] => ret tt
  | op :: rest => notificationStep op ;; runNotificationOps rest
  end.

(** A notification with this message is on screen. *)
Definition visible (message : jsstring) (l : list Notification.t) : Prop :=
  exists n, In n l /\ Notification.message n = message.

(** ** Checkout *)

(** All three fields of the customer data are filled in. *)
Definition complete (d : UserData.t) : Prop :=
  UserData.name d <> [] /\ UserData.address d <> [] /\ UserData.paymentMethod d <> [].

Definition incompleteNotice : jsstring :=
  js "Dados incompletos. Por favor, preencha todas as informacoes.".

Definition emptyCartNotice : jsstring :=
  js "Carrinho vazio. Adicione itens antes de finalizar.".

(** An error notification with this message was requested in state [x]. *)
Definition errorShown (message : jsstring) (x x' : Sys) : Prop :=
  notifications (app x')
  = App.pushNotification
      (Notification.mk (now (browser x)) Severity.error message true)
      (notifications (app x))
  /\ visible message (notifications (app x')).

(** A customer whose data is filled in, with one burger in the cart, at the
    review step. *)
Definition sampleCustomer : UserData.t :=
  UserData.mk (js "Maria") (js "Rua A, 123, Centro") (js "Pix").

Definition sampleCart : list CartItem.t :=
  [CartItem.mk 1 (js "X-Burger") 25 (js "Burgers") 2].

Definition atReview (c : list CartItem.t) (d : UserData.t) : AppState :=
  mkAppState [] false [] c d [] review false 0 false false None [] true.

(** ** Retry policy *)

(** How a request to the text endpoint fails, as the specification sorts
    failures: a timeout (the abort signal fired), a 4xx status, or anything
    else (transport failure, other non-2xx status, unusable body). *)
Inductive Failure := TimedOut | ClientError | Transient.

Definition failureOf {rt : JsRuntime} (a : Attempt jsstring) : option Failure :=
  match a with
  | Rejects Aborted => Some TimedOut
  | Rejects Failed => Some Transient
  | Responds status body =>
    if ((400 <=? status) && (status <? 500))%N then Some ClientError
    else if ((status <? 200) || (299 <? status))%N then Some Transient
    else match body with
         | inl Aborted => Some TimedOut
         | inl Failed => Some Transient
         | inr text => if GeminiService.isValidResponse text then None else Some Transient
         end
  end.

(** A timeout or a 4xx. *)
Definition fatal (f : option Failure) : bool :=
  match f with
  | Some TimedOut | Some ClientError => true
  | _ => false
  end.

(** Every request to the text endpoint fails. *)
Definition permanentlyFailing {rt : JsRuntime} (w : Browser) : Prop :=
  forall n, failureOf (textApi w n) <> None.

(** The failure of the [k]-th request issued from [w] on. *)
Definition nthFailure {rt : JsRuntime} (w : Browser) (k : nat) : option Failure :=
  failureOf (textApi w (requests w + k)).

Definition isFetch (e : Event) : bool :=
  match e with
  | Fetch _ _ => true
  | _ => false
  end.

Definition fetchesIn (es : list Event) : nat := length (filter isFetch es).

Definition delaysIn (es : list Event) : list N :=
  flat_map (fun e => match e with Delay ms => [ms] | _ => [] end) es.

Definition fallbackWarning : Event := Warn (js "Usando resposta local (Fallback):").

(** The retry bound read literally: on a permanently failing endpoint one
    attempt when the first failure is a timeout or a 4xx, three attempts
    otherwise, then the local reply. *)
Definition retryBoundAsStated {rt : JsRuntime} (message : jsstring)
           (history : list HistoryTurn.t) (w : Browser) : Prop :=
  permanentlyFailing w ->
  exists es,
    events (execState (GeminiService.sendMessage message history) w) = events w ++ es
    /\ fetchesIn es = (if fatal (nthFailure w 0) then 1 else 3)
    /\ evalState (GeminiService.sendMessage message history) w
       = GeminiService.getLocalResponse (GeminiService.sanitizeInput message).

(** A server that answers 500 to the first request and 404 afterwards. *)
Definition flakyThenGone : Browser :=
  mkBrowser 1700000000000
    (fun n => match n with
              | O => Responds 500 (inr (js "Internal Server Error"))
              | S _ => Responds 404 (inr (js "Not Found"))
              end)
    (fun _ => Rejects Failed) 0 [].

(** The value returned ([inr]) or thrown ([inl]) by the [try] block for a
    given answer of the network. *)
Definition outcomeOf {rt : JsRuntime} (a : Attempt jsstring) : JsError + jsstring :=
  match a with
  | Rejects r => inl (ofRejection r)
  | Responds status body =>
    if negb (ok status) then inl (NetworkError status)
    else match body with
         | inl r => inl (ofRejection r)
         | inr text =>
           if negb (GeminiService.isValidResponse text) then inl APIError
           else inr (Js.trim text)
         end
  end.

(** The world after one more request to the text endpoint. *)
Definition afterFetch (url body : jsstring) (w : Browser) : Browser :=
  mkBrowser (now w) (textApi w) (viaCep w) (S (requests w))
            (events w ++ [Fetch url (Some body)]).

(** The world after one more event. *)
Definition afterEvent (e : Event) (w : Browser) : Browser :=
  mkBrowser (now w) (textApi w) (viaCep w) (requests w) (events w ++ [e]).

Arguments GeminiService.getLocalResponse : simpl never.
Arguments GeminiService.fullPrompt : simpl never.
Arguments Validation.sanitizeDisplayText : simpl never.
Arguments GeminiService.sanitizeInput : simpl never.
Arguments GeminiService.sendMessage : simpl never.
Arguments Validation.validateCEP : simpl never.
Arguments Validation.validateName : simpl never.
Arguments Validation.validateAddress : simpl never.
Arguments Validation.validateAddressNumber : simpl never.
Arguments Validation.validatePaymentMethod : simpl never.
Arguments App.reviewText : simpl never.
Arguments App.baseAddressOf : simpl never.
Arguments App.cepMatch : simpl never.
Arguments Js.trim : simpl never.

(** ** Editing the customer data *)

(** Typing [v] into the input field and pressing send. *)
Definition submitText {rt : JsRuntime} (v : jsstring) : state Sys unit :=
  setInputText v ;;
  dispatch (App.handleSend None).

Definition editButton (f : EditField.t) : Handler :=
  match f with
  | EditField.name => App.editNameButton
  | EditField.address => App.editAddressButton
  | EditField.payment => App.editPaymentButton
  end.

(** From the review: back to editing, choose the field, submit a value. *)
Definition editAndSubmit {rt : JsRuntime} (f : EditField.t) (v : jsstring)
  : state Sys unit :=
  dispatch App.goBackToEditing ;;
  dispatch (editButton f) ;;
  submitText v.

(** The state in which the text is sent: the edit screen with the field
    chosen and the text typed in. *)
Definition readyToSend (f : EditField.t) (v : jsstring) (x : Sys) : Sys :=
  execState (dispatch App.goBackToEditing ;; dispatch (editButton f) ;; setInputText v) x.

(** The address validator does not reject the text outright. *)
Definition addressAccepted (input : jsstring) : bool :=
  let r := Validation.validateAddress input in
  negb (negb (AddressValidationResult.valid r)
        && match AddressValidationResult.missing r with
           | Some MissingAll => true
           | _ => false
           end).

(** The value that an accepted submission stores for a field; [None] when
    the text is not a valid value of the field entered as such (an address
    holding a postal code goes through the lookup instead). *)
Definition acceptedValue (f : EditField.t) (input : jsstring) : option jsstring :=
  match f with
  | EditField.name =>
    let r := Validation.validateName input in
    if NameValidationResult.valid r then Some (NameValidationResult.cleanName r) else None
  | EditField.address =>
    match App.cepMatch input with
    | Some _ => None
    | None => if addressAccepted input then Some input else None
    end
  | EditField.payment =>
    if ValidationResult.valid (Validation.validatePaymentMethod input)
    then Some input else None
  end.

Definition storeField (f : EditField.t) (d : UserData.t) (v : jsstring) : UserData.t :=
  match f with
  | EditField.name => UserData.withName d v
  | EditField.address => UserData.withAddress d v
  | EditField.payment => UserData.withPaymentMethod d v
  end.

(** The summary of the order is the last message of the chat. *)
Definition summaryShown (c : list CartItem.t) (d : UserData.t) (x : Sys) : Prop :=
  exists earlier,
    messages (app x)
    = earlier ++ [Message.mk bot (Validation.sanitizeDisplayText (App.reviewText c d)) None].

(** The directory answers the next request with the address [data]. *)
Definition lookupAnswers (x : Sys) (data : ViaCep.t) : Prop :=
  exists status,
    viaCep (browser x) (requests (browser x)) = Responds status (inr data)
    /\ ok status = true
    /\ ViaCep.erro data = false
    /\ falsy (ViaCep.logradouro data) && falsy (ViaCep.bairro data)
       && falsy (ViaCep.localidade data) = false.

(** The address of the cathedral square of São Paulo, as the directory
    returns it. *)
Definition pracaDaSe : ViaCep.t :=
  ViaCep.mk false (Some (js "Praça da Sé")) (Some (js "Sé")) (Some (js "São Paulo"))
            (Some (js "SP")).

(** A town with a single postal code: the directory knows neither street
    nor neighbourhood. *)
Definition townOnly : ViaCep.t :=
  ViaCep.mk false (Some []) (Some []) (Some (js "Salvador")) (Some (js "BA")).

(** A customer editing the address, on a network where the directory
    answers [data]. *)
Definition editingAddress (data : ViaCep.t) : Sys :=
  mkSys (mkAppState [] false [] sampleCart sampleCustomer [] edit_info false 0 false
                    false (Some EditField.address) [] true)
        (steadyBrowser (Rejects Failed) (Responds 200 (inr data))).

(** A customer asked for the delivery address, on the same network. *)
Definition askedAddress (data : ViaCep.t) : Sys :=
  mkSys (mkAppState [] false [] sampleCart (UserData.mk (js "Maria") [] []) []
                    ask_address false 0 false false None [] true)
        (steadyBrowser (Rejects Failed) (Responds 200 (inr data))).

(** ** Display strings *)

(** The comma-delimited segments of a string. *)
Fixpoint segments (s : jsstring) : list jsstring :=
  match s with
  | [] => [[]]
  | c :: r =>
    if App.isComma c then [] :: segments r
    else match segments r with
         | seg :: rest => (c :: seg) :: rest
         | [] => [[c]]
         end
  end.

(** A segment with nothing but white space in it. *)
Definition hasEmptySegment (s : jsstring) : bool :=
  existsb (forallb Js.isSpace) (segments s).

Definition hasConsecutiveCommas (s : jsstring) : bool := Js.includes (js ",,") s.

(* ===================================================================== *)
(** * Further vocabulary *)
(* ===================================================================== *)

(** ** Sanitized text *)

(** Runs of white space replaced by one space; [inRun] tells whether the
    code unit before the head belongs to a run. *)
Fixpoint collapseSpaces (inRun : bool) (s : jsstring) : jsstring :=
  match s with
  | [] => []
  | c :: r =>
    if Js.isSpace c
    then (if inRun then collapseSpaces true r else 32%N :: collapseSpaces true r)
    else c :: collapseSpaces false r
  end.

(** Every white-space code unit is a space and no two spaces are adjacent;
    [afterSpace] tells whether a space comes just before the head. *)
Fixpoint singleSpaced (afterSpace : bool) (s : jsstring) : bool :=
  match s with
  | [] => true
  | c :: r =>
    if Js.isSpace c
    then (c =? 32)%N && negb afterSpace && singleSpaced true r
    else singleSpaced false r
  end.

Definition noAngle (s : jsstring) : bool :=
  forallb (fun c => negb (Validation.isAngle c)) s.

(** Text as the sanitizers leave it: at most [limit] code units, no angle
    bracket, white space reduced to single spaces. *)
Definition cleanText (limit : nat) (s : jsstring) : Prop :=
  length s <= limit /\ noAngle s = true /\ singleSpaced false s = true.

(** ** Names *)

(** A code unit of the class [[a-zA-ZÀ-ÿ\s]] occurs in the text. *)
Definition hasNameChar (s : jsstring) : Prop :=
  exists c, In c s /\ Validation.isNameChar c = true.

(** Nothing but digits and white space. *)
Definition onlyDigitsSpaces (s : jsstring) : Prop :=
  Forall (fun c => Js.isDigit c = true \/ Js.isSpace c = true) s.

(** The message of a failed validation: present and not empty. *)
Definition hasMessage (e : option jsstring) : Prop :=
  exists c m, e = Some (c :: m).

(** ** Requests of the adapter *)

Definition isWarn (e : Event) : bool :=
  match e with
  | Warn _ => true
  | _ => false
  end.

(** The request that [sendMessage] issues for a sanitized message. *)
Definition promptRequest (sanitized : jsstring) (history : list HistoryTurn.t) : Event :=
  Fetch GeminiService.textApiUrl (Some (GeminiService.fullPrompt sanitized history)).

(** The text endpoint answers the [k]-th request issued from [w] on with a
    usable body [text]. *)
Definition answersWith {rt : JsRuntime} (w : Browser) (k : nat) (text : jsstring) : Prop :=
  exists status,
    textApi w (requests w + k) = Responds status (inr text)
    /\ ok status = true
    /\ GeminiService.isValidResponse text = true.

(** A server that fails once with a 503 and then answers. *)
Definition recoversAfterOne : Browser :=
  mkBrowser 1700000000000
    (fun n => match n with
              | O => Responds 503 (inr (js "Service Unavailable"))
              | S _ => Responds 200 (inr (js " Temos sim! Veja o menu abaixo. "))
              end)
    (fun _ => Rejects Failed) 0 [].

(** ** Postal-code lookup *)

(** The request of [handleCEPAction] for a normalized code. *)
Definition cepRequest (cleanCEP : jsstring) : Event :=
  Fetch (js "https://viacep.com.br/ws/" ++ cleanCEP ++ js "/json/") None.

(** The lookup for an input [cep] in state [x], seen from the render [s]:
    its result and the state it leaves. *)
Definition lookup (cep : jsstring) (s : AppState) (x : Sys) : option ViaCep.t * Sys :=
  runState (App.handleCEPAction cep s) x.

(** ** Actions of the customer and of the environment *)

(** What can happen between two renders.  The handlers are taken without
    the conditions under which the screen offers them, and each one runs to
    its end before the next action starts; the ticks of the handoff interval
    are treated apart. *)
Inductive Action :=
| TypeAndSend (v : jsstring)
| QuickReply (v : jsstring)
| Checkout
| OpenMenu
| GoBack
| ChooseField (f : EditField.t)
| ContinueToReview
| ConfirmOrder
| AddToCart (item : MenuItem.t)
| RemoveFromCart (id : Z)
| DismissNotice (id : N)
| SweepNotices
| WentOnline
| WentOffline
| ClockAt (t : N).

Definition act {rt : JsRuntime} (a : Action) : state Sys unit :=
  match a with
  | TypeAndSend v => submitText v
  | QuickReply v => dispatch (App.handleSend (Some v))
  | Checkout => dispatch App.startCheckoutFlow
  | OpenMenu => dispatch App.handleShowMenu
  | GoBack => dispatch App.goBackToEditing
  | ChooseField f => dispatch (editButton f)
  | ContinueToReview => dispatch App.continueButton
  | ConfirmOrder => dispatch App.startRedirection
  | AddToCart item => dispatch (App.addToCart item)
  | RemoveFromCart id => dispatch (App.removeFromCart id)
  | DismissNotice id => App.dismissNotification id
  | SweepNotices => App.autoDismiss
  | WentOnline => App.handleOnline
  | WentOffline => App.handleOffline
  | ClockAt t => setClock t
  end.

Fixpoint runActions {rt : JsRuntime} (l : list Action) : state Sys unit :=
  match l with
  | [] => ret tt
  | a :: rest => act a ;; runActions rest
  end.

(** ** What the customer data may hold *)

Definition fieldOf (f : EditField.t) (d : UserData.t) : jsstring :=
  match f with
  | EditField.name => UserData.name d
  | EditField.address => UserData.address d
  | EditField.payment => UserData.paymentMethod d
  end.

(** A value that passes the validator of its field as it stands: a name
    that [validateName] accepts and returns unchanged, an address that
    [validateAddress] does not reject as too short, a payment method that
    [validatePaymentMethod] accepts. *)
Definition storable (f : EditField.t) (v : jsstring) : Prop :=
  match f with
  | EditField.name =>
    NameValidationResult.valid (Validation.validateName v) = true
    /\ NameValidationResult.cleanName (Validation.validateName v) = v
  | EditField.address => addressAccepted v = true
  | EditField.payment =>
    ValidationResult.valid (Validation.validatePaymentMethod v) = true
  end.

(** Each field is still empty or holds a storable value. *)
Definition dataOk (d : UserData.t) : Prop :=
  forall f, fieldOf f d = [] \/ storable f (fieldOf f d).

(** At most four notifications, with distinct messages. *)
Definition noticesOk (l : list Notification.t) : Prop :=
  length l <= 4 /\ NoDup (map Notification.message l).

(** Every message of the chat is sanitized text. *)
Definition chatClean (l : list Message.t) : Prop :=
  Forall (fun m => cleanText 1000 (Message.text m)) l.

(** The actions that submit a text, and those that edit the cart. *)
Definition sends (a : Action) : bool :=
  match a with
  | TypeAndSend _ | QuickReply _ => true
  | _ => false
  end.

Definition editsCart (a : Action) : bool :=
  match a with
  | AddToCart _ | RemoveFromCart _ => true
  | _ => false
  end.

(** How a submission may change the customer data: not at all, or by
    storing a storable value in one field. *)
Definition dataStep (d d' : UserData.t) : Prop :=
  d' = d \/ exists f v, storable f v /\ d' = storeField f d v.

(** How an action may change the notifications: not at all, by showing
    one, or by removing some. *)
Definition noticeStep (l l' : list Notification.t) : Prop :=
  l' = l \/ (exists n, l' = App.pushNotification n l) \/ (exists keep, l' = filter keep l).

(** How a cart button may change the cart. *)
Definition cartStep (c c' : list CartItem.t) : Prop :=
  c' = c \/ (exists item, c' = App.addItem item c) \/ (exists id, c' = App.removeItem id c).

(** What the processing of a submitted text respects. *)
Definition processed (s s' : AppState) : Prop :=
  cart s' = cart s
  /\ noticeStep (notifications s) (notifications s')
  /\ (exists added, messages s' = messages s ++ added /\ chatClean added)
  /\ dataStep (userData s) (userData s')
  /\ (flowStep s' = finished -> flowStep s = finished)
  /\ isChatClosed s' = isChatClosed s.

(** What the action [a] respects, from the state [s] it starts in to the
    state [s'] it leaves. *)
Definition follows (a : Action) (s s' : AppState) : Prop :=
  (if editsCart a then cartStep (cart s) (cart s') else cart s' = cart s)
  /\ noticeStep (notifications s) (notifications s')
  /\ (exists added, messages s' = messages s ++ added /\ chatClean added)
  /\ (if sends a then dataStep (userData s) (userData s') else userData s' = userData s)
  /\ (flowStep s' = finished ->
      flowStep s = finished
      \/ (a = ConfirmOrder /\ complete (userData s) /\ cart s <> []))
  /\ isChatClosed s' = isChatClosed s
  /\ (isChatClosed s = true -> cart s' = cart s /\ userData s' = userData s).

(** The invariant of a session. *)
Definition sessionOk (s : AppState) : Prop :=
  cartOk (cart s)
  /\ noticesOk (notifications s)
  /\ chatClean (messages s)
  /\ dataOk (userData s)
  /\ (flowStep s = finished -> complete (userData s)).

(** The state in which the actions [l] leave the application, started in
    the state [x]. *)
Definition after {rt : JsRuntime} (l : list Action) (x : Sys) : AppState :=
  app (execState (runActions l) x).

(** ** The checkout conversation *)








(** Where a question of the checkout leaves the customer: at the step
    [step] with the data [d] and the pending address [pending], the cart,
    the notifications, the edit target and the connection flags being those
    of the state [x] before. *)
Definition asked (step : FlowStep) (d : UserData.t) (pending : jsstring) (x x' : Sys)
  : Prop :=
  flowStep (app x') = step
  /\ userData (app x') = d
  /\ pendingAddress (app x') = pending
  /\ cart (app x') = cart (app x)
  /\ notifications (app x') = notifications (app x)
  /\ editField (app x') = editField (app x)
  /\ isOnline (app x') = isOnline (app x)
  /\ isChatClosed (app x') = isChatClosed (app x).

(** ** Working offline *)

(** Nothing was requested and nothing logged between [x] and [x'], and
    the application still takes itself for offline or online as before. *)
Definition silent (x x' : Sys) : Prop :=
  requests (browser x') = requests (browser x)
  /\ events (browser x') = events (browser x)
  /\ isOnline (app x') = isOnline (app x).

(** ** A turn of the chat at the menu *)

(** The prompt that carries the turns [turns], all of them, in front of
    the customer's message. *)
Definition promptWith (turns : list HistoryTurn.t) (sanitized : jsstring) : jsstring :=
  SYSTEM_PROMPT ++ nl ++ nl ++ js "Histórico da Conversa:" ++ nl
  ++ Js.join nl (map GeminiService.historyLine turns)
  ++ nl ++ js "Cliente: " ++ sanitized ++ nl ++ js "Atendente:".

(** The reply given without asking the responder. *)
Definition offlineReply : jsstring :=
  js "Estou sem conexao no momento. Use os botoes do cardapio para fazer seu pedido!".

(** ** Addresses *)

(** A word boundary lies behind the text [before] when a word character
    follows: the text is empty (and then [prevWord] tells what stood in
    front of it) or its last code unit is not a word character. *)
Definition wordStarts (prevWord : bool) (before : jsstring) : bool :=
  match rev before with
  | [] => negb prevWord
  | c :: _ => negb (Js.isWord c)
  end.

(** The text holds a number standing as a word of its own: a match of
    [\b\d+\b]. *)
Definition holdsNumber (prevWord : bool) (s : jsstring) : Prop :=
  exists before number rest,
    s = before ++ number ++ rest
    /\ number <> []
    /\ forallb Js.isDigit number = true
    /\ wordStarts prevWord before = true
    /\ Validation.wordEnds rest = true.

(** The text holds the mark of an address without number, [s/n] or [sn] in
    either case, standing as a word of its own: a match of [\bs\/?n\b] with
    the flag [i]. *)
Definition holdsNoNumberMark (prevWord : bool) (s : jsstring) : Prop :=
  exists before c1 slash c2 rest,
    s = before ++ c1 :: slash ++ c2 :: rest
    /\ Validation.isS c1 = true
    /\ (slash = [] \/ slash = [Js.chr "/"])
    /\ Validation.isN c2 = true
    /\ wordStarts prevWord before = true
    /\ Validation.wordEnds rest = true.

(* ===================================================================== *)
(** * The model on the scenarios of the specification *)
(* ===================================================================== *)

Example lit_accent : js "me vê" = [109; 101; 32; 118; 234]%N.
Proof. reflexivity. Qed.

Example lit_astral : js "🍔" = [55356; 57172]%N.
Proof. reflexivity. Qed.

Example decimal_samples :
  Js.decimal 0 = js "0" /\ Js.decimal 7 = js "7" /\ Js.decimal 1000 = js "1000".
Proof. repeat split. Qed.

Example sanitize_sample : Validation.sanitizeDisplayText (js "  a <b>   c  ") = js "a b c".
Proof. reflexivity. Qed.

Example cep_scenarios :
  CEPValidationResult.valid (Validation.validateCEP (js "01001000")) = true
  /\ CEPValidationResult.valid (Validation.validateCEP (js "01001-000")) = true
  /\ CEPValidationResult.valid (Validation.validateCEP (js "00000000")) = false
  /\ CEPValidationResult.error (Validation.validateCEP (js "123"))
     = Some (js "CEP deve ter 8 digitos. Voce digitou 3.").
Proof. repeat split. Qed.

Example address_scenarios :
  Validation.validateAddress (js "Rua A, 123, Centro")
  = AddressValidationResult.mk true None None
  /\ Validation.validateAddress (js "Rua A, Centro")
     = AddressValidationResult.mk false (Some MissingNumber) None
  /\ AddressValidationResult.valid (Validation.validateAddress (js "Rua A, s/n, Centro"))
     = true
  /\ AddressValidationResult.missing (Validation.validateAddress (js "Rua"))
     = Some MissingAll.
Proof. repeat split. Qed.

Example address_without_number_asks_for_it :
  flowStep (app (execState
    (dispatch (App.handleBotResponse (rt := Latin1) (js "Rua A, Centro")))
    (askedAddress pracaDaSe))) = ask_address_number.
Proof. vm_compute. reflexivity. Qed.

(** "fome" belongs to the ordering and to the recommendation bucket; the
    ordering bucket comes first. *)
Example local_response_priority :
  GeminiService.getLocalResponse (rt := Latin1) (js "Estou com FOME")
  = js "Para pedir, é só clicar nos botões de **(+)** e **(-)** ao lado de cada item no cardápio abaixo! 👇🍔".
Proof. vm_compute. reflexivity. Qed.

Example cep_match_samples :
  App.cepMatch (js "meu cep 40000-123 ok") = Some (js "40000-123")
  /\ App.cepMatch (js "01001000") = Some (js "01001000")
  /\ App.cepMatch (js "Rua A, 123") = None.
Proof. repeat split. Qed.

(* ===================================================================== *)
(** * Running the handlers *)
(* ===================================================================== *)

Lemma eqb_spec (s t : jsstring) : Js.eqb s t = true <-> s = t.
Proof.
  unfold Js.eqb. destruct (list_eq_dec N.eq_dec s t); split; congruence.
Qed.

Lemma eqb_neq (s t : jsstring) : Js.eqb s t = false <-> s <> t.
Proof.
  unfold Js.eqb. destruct (list_eq_dec N.eq_dec s t); split; congruence.
Qed.

Lemma run_bind {S A B : Type} (m : state S A) (f : A -> state S B) (s : S) :
  runState (bind m f) s = runState (f (fst (runState m s))) (snd (runState m s)).
Proof. cbn. destruct (runState m s). reflexivity. Qed.

Lemma run_emit (e : Event) (w : Browser) : runState (emit e) w = (tt, afterEvent e w).
Proof. reflexivity. Qed.

Lemma exec_dispatch (h : Handler) (x : Sys) :
  execState (dispatch h) x = execState (h (app x)) x.
Proof. reflexivity. Qed.

Lemma exec_seq {S A B : Type} (m : state S A) (k : state S B) (x : S) :
  execState (m ;; k) x = execState k (execState m x).
Proof. unfold execState. rewrite run_bind. reflexivity. Qed.

(* ===================================================================== *)
(** * Postal-code validator *)
(* ===================================================================== *)

Lemma replaceFrom_oneOf (p : N -> bool) (s : jsstring) :
  Js.replaceFrom (Js.oneOf p) [] 0 s = filter (fun c => negb (p c)) s.
Proof.
  induction s as [|c r IH]; simpl; [reflexivity|].
  destruct (p c); simpl; rewrite IH; reflexivity.
Qed.

Lemma strip_non_digits (s : jsstring) :
  Js.replaceAll (Js.oneOf (fun c => negb (Js.isDigit c))) [] s = digitsOf s.
Proof.
  unfold Js.replaceAll, digitsOf. rewrite replaceFrom_oneOf.
  apply filter_ext. intros c. apply negb_involutive.
Qed.

Lemma forallb_eqb_repeat (d : N) (r : jsstring) :
  forallb (N.eqb d) r = true <-> r = repeat d (length r).
Proof.
  induction r as [|c r IH]; simpl; [tauto|].
  rewrite andb_true_iff, IH, N.eqb_eq. split.
  - intros [-> H]. now f_equal.
  - intros H. injection H as -> H. tauto.
Qed.

Lemma repeatedDigit_spec (s : jsstring) :
  length s = 8 -> forallb Js.isDigit s = true ->
  (Validation.repeatedDigit s = true <-> singleRepeatedDigit s).
Proof.
  intros L D. unfold Validation.repeatedDigit, singleRepeatedDigit.
  destruct s as [|d r]; [discriminate|].
  simpl in L, D. apply andb_true_iff in D as [Dd _]. rewrite Dd. simpl.
  injection L as L. rewrite L. simpl. rewrite forallb_eqb_repeat, L. split.
  - intros ->. exists d. reflexivity.
  - intros [e H]. simpl in H. injection H as -> H. exact H.
Qed.

Lemma allZeros_repeated (s : jsstring) :
  length s = 8 -> Validation.allZeros s = true -> singleRepeatedDigit s.
Proof.
  intros L H. unfold Validation.allZeros in H. apply andb_true_iff in H as [_ H].
  apply forallb_eqb_repeat in H. rewrite L in H. now exists (Js.chr "0").
Qed.

Lemma eightOnes_repeated (s : jsstring) :
  Validation.eightOnes s = true -> singleRepeatedDigit s.
Proof.
  unfold Validation.eightOnes. intros H. apply andb_true_iff in H as [L H].
  apply Nat.eqb_eq in L. apply forallb_eqb_repeat in H. rewrite L in H.
  now exists (Js.chr "1").
Qed.

Lemma digitsOf_digits (s : jsstring) : forallb Js.isDigit (digitsOf s) = true.
Proof.
  apply forallb_forall. intros c H. apply filter_In in H. tauto.
Qed.

Lemma firstDigit_in_range (s : jsstring) : Validation.gt9 (Validation.parseFirstDigit s) = false.
Proof.
  destruct s as [|c r]; simpl; [reflexivity|].
  destruct (Js.isDigit c) eqn:D; simpl; [|reflexivity].
  unfold Js.isDigit in D. apply andb_true_iff in D as [_ D].
  apply N.leb_le in D. apply N.ltb_ge. lia.
Qed.

Lemma invalidPatterns_spec (s : jsstring) :
  length s = 8 -> forallb Js.isDigit s = true ->
  (existsb (fun pattern => pattern s) Validation.invalidPatterns = false
   <-> ~ singleRepeatedDigit s /\ s <> js "12345678" /\ s <> js "87654321").
Proof.
  intros L D. unfold Validation.invalidPatterns. simpl existsb.
  rewrite orb_false_r. rewrite !orb_false_iff, !eqb_neq.
  pose proof (repeatedDigit_spec s L D) as R.
  pose proof (allZeros_repeated s L) as Z.
  pose proof (eightOnes_repeated s) as O.
  split.
  - intros (_ & _ & H3 & H4 & H5). repeat split; try congruence.
    intros S. apply R in S. congruence.
  - intros (H1 & H2 & H3).
    assert (Validation.repeatedDigit s = false) as NR.
    { destruct (Validation.repeatedDigit s); [exfalso; apply H1; now apply R | reflexivity]. }
    repeat split; try congruence.
    + destruct (Validation.allZeros s); [exfalso; now apply H1, Z | reflexivity].
    + destruct (Validation.eightOnes s); [exfalso; now apply H1, O | reflexivity].
Qed.

(** C1. [validateCEP] answers valid exactly when, once the non-digit
    characters are stripped, eight digits remain that are neither one digit
    repeated, nor 12345678, nor 87654321; a valid result carries these
    eight digits as the normalized code and no error. *)
Theorem validateCEP_valid_iff (cep : jsstring) :
  (CEPValidationResult.valid (Validation.validateCEP cep) = true <-> plausibleCEP cep)
  /\ (CEPValidationResult.valid (Validation.validateCEP cep) = true ->
      CEPValidationResult.cleanCEP (Validation.validateCEP cep) = digitsOf cep
      /\ length (CEPValidationResult.cleanCEP (Validation.validateCEP cep)) = 8
      /\ forallb Js.isDigit (CEPValidationResult.cleanCEP (Validation.validateCEP cep)) = true
      /\ CEPValidationResult.error (Validation.validateCEP cep) = None).
Proof.
  unfold plausibleCEP.
  destruct cep as [|c0 r0].
  { simpl. split; [split; [discriminate | intros [H _]; discriminate] | discriminate]. }
  unfold Validation.validateCEP. rewrite strip_non_digits.
  set (cep := c0 :: r0). set (clean := digitsOf cep).
  destruct (Nat.eqb (length clean) 0) eqn:E0.
  { apply Nat.eqb_eq in E0. simpl.
    split; [split; [discriminate | intros [H _]; lia] | discriminate]. }
  destruct (Nat.eqb (length clean) 8) eqn:E8; simpl negb; cbv iota.
  2:{ apply Nat.eqb_neq in E8. simpl.
      split; [split; [discriminate | intros [H _]; lia] | discriminate]. }
  apply Nat.eqb_eq in E8.
  pose proof (invalidPatterns_spec clean E8 (digitsOf_digits cep)) as P.
  rewrite firstDigit_in_range.
  destruct (existsb _ Validation.invalidPatterns) eqn:EP; simpl.
  - split; [split; [discriminate|] | discriminate].
    intros (_ & H). apply P in H. discriminate.
  - split; [split; [intros _; split; [exact E8 | now apply P] | reflexivity] |].
    intros _. repeat split; [exact E8 | apply digitsOf_digits].
Qed.

(* ===================================================================== *)
(** * Cart engine *)
(* ===================================================================== *)

Section CartTotals.
Local Open Scope Z_scope.

Lemma subtotal_from (cart : list CartItem.t) (acc : Z) :
  fold_left (fun a i => a + CartItem.price i * CartItem.quantity i) cart acc
  = acc + sumZ (map lineTotal cart).
Proof.
  revert acc. induction cart as [|i r IH]; intros acc; simpl.
  - lia.
  - rewrite IH. unfold lineTotal. lia.
Qed.

Lemma subtotalValue_sum (cart : list CartItem.t) :
  App.subtotalValue cart = sumZ (map lineTotal cart).
Proof. unfold App.subtotalValue. rewrite subtotal_from. lia. Qed.

(** C3. The subtotal is the sum of unit price times quantity over the
    lines of the cart; the total adds the delivery fee exactly when the
    subtotal is positive, and the empty cart totals 0. *)
Theorem cart_totals (cart : list CartItem.t) :
  App.subtotalValue cart = sumZ (map lineTotal cart)
  /\ App.totalValue cart
     = sumZ (map lineTotal cart)
       + (if 0 <? sumZ (map lineTotal cart) then DELIVERY_FEE else 0)
  /\ (0 < App.subtotalValue cart ->
      App.totalValue cart = App.subtotalValue cart + DELIVERY_FEE)
  /\ (App.subtotalValue cart <= 0 -> App.totalValue cart = App.subtotalValue cart)
  /\ (cart = [] -> App.totalValue cart = 0).
Proof.
  pose proof (subtotalValue_sum cart) as S.
  unfold App.totalValue. rewrite <- S.
  split; [reflexivity|]. split; [reflexivity|]. split; [|split].
  - intros H. apply Z.ltb_lt in H. now rewrite H.
  - intros H. apply Z.ltb_ge in H. rewrite H. lia.
  - intros ->. reflexivity.
Qed.

(** The scenario of the specification: two burgers at 25 with a fee of 7. *)
Example cart_totals_scenario :
  let cart := [CartItem.mk 1 (js "Classic Burger") 25 (js "Burgers") 2] in
  App.subtotalValue cart = 50 /\ App.totalValue cart = 57.
Proof. split; reflexivity. Qed.

End CartTotals.

Section CartInvariant.
Local Open Scope Z_scope.

Lemma same_id_same_line (c : list CartItem.t) (a b : CartItem.t) :
  NoDup (map CartItem.id c) -> In a c -> In b c ->
  CartItem.id a = CartItem.id b -> a = b.
Proof.
  induction c as [|i r IH]; simpl; intros ND Ha Hb E; [contradiction|].
  inversion ND as [|? ? Hnot ND']; subst.
  destruct Ha as [-> | Ha], Hb as [-> | Hb]; auto.
  - exfalso. apply Hnot. rewrite E. now apply in_map.
  - exfalso. apply Hnot. rewrite <- E. now apply in_map.
Qed.

Lemma map_id_bump (f : CartItem.t -> Z) (p : CartItem.t -> bool) (c : list CartItem.t) :
  map CartItem.id (map (fun i => if p i then CartItem.withQuantity i (f i) else i) c)
  = map CartItem.id c.
Proof.
  rewrite map_map. apply map_ext. intros i. now destruct (p i).
Qed.

Lemma find_none_not_in (id : Z) (c : list CartItem.t) :
  lineOf id c = None -> ~ In id (map CartItem.id c).
Proof.
  unfold lineOf. intros H Hin. apply in_map_iff in Hin as (i & E & Hi).
  apply (find_none _ _ H) in Hi. subst id. now rewrite Z.eqb_refl in Hi.
Qed.

Lemma addItem_ok (item : MenuItem.t) (c : list CartItem.t) :
  cartOk c -> cartOk (App.addItem item c).
Proof.
  intros [ND R]. unfold App.addItem. fold (lineOf (MenuItem.id item) c).
  destruct (lineOf (MenuItem.id item) c) as [existing|] eqn:F.
  - apply find_some in F as [Hin Hid]. apply Z.eqb_eq in Hid.
    destruct (99 <=? CartItem.quantity existing) eqn:Q; [now split|].
    apply Z.leb_gt in Q. split.
    + now rewrite map_id_bump.
    + apply Forall_forall. intros j Hj. apply in_map_iff in Hj as (i & <- & Hi).
      pose proof (proj1 (Forall_forall _ _) R i Hi) as Ri.
      destruct (CartItem.id i =? MenuItem.id item) eqn:E; [|exact Ri].
      apply Z.eqb_eq in E.
      assert (i = existing) as -> by (apply (same_id_same_line c); congruence).
      unfold quantityInRange in *. simpl. lia.
  - apply find_none_not_in in F. split.
    + rewrite map_app. simpl. apply NoDup_app; [exact ND | repeat constructor; auto | ].
      * intros x Hx [<- | []]. contradiction.
    + apply Forall_app. split; [exact R|]. constructor; [|constructor].
      unfold quantityInRange. simpl. lia.
Qed.

(** Dropping lines keeps the item identities distinct. *)
Lemma distinct_ids_filter (keep : CartItem.t -> bool) (c : list CartItem.t) :
  NoDup (map CartItem.id c) -> NoDup (map CartItem.id (filter keep c)).
Proof.
  intros ND. induction c as [|i r IH]; [constructor|].
  simpl in ND. apply NoDup_cons_iff in ND as [Hnot ND]. simpl.
  destruct (keep i); [|now apply IH].
  simpl. constructor; [|now apply IH].
  intros Hin. apply Hnot. apply in_map_iff in Hin as (j & E & Hj).
  apply filter_In in Hj as [Hj _]. rewrite <- E. now apply in_map.
Qed.

Lemma removeItem_ok (id : Z) (c : list CartItem.t) :
  cartOk c -> cartOk (App.removeItem id c).
Proof.
  intros [ND R]. unfold App.removeItem. split.
  - apply distinct_ids_filter. now rewrite map_id_bump.
  - apply Forall_forall. intros j Hj. apply filter_In in Hj as [Hj Pos].
    apply Z.ltb_lt in Pos. apply in_map_iff in Hj as (i & <- & Hi).
    pose proof (proj1 (Forall_forall _ _) R i Hi) as Ri.
    unfold quantityInRange in *.
    destruct (CartItem.id i =? id); simpl in *; lia.
Qed.

Lemma cart_after_op (op : CartOp) (x : Sys) :
  cart (app (execState (dispatch (cartHandler op)) x))
  = if isChatClosed (app x) then cart (app x)
    else match op with
         | AddItem item => App.addItem item (cart (app x))
         | RemoveItem id => App.removeItem id (cart (app x))
         end.
Proof.
  rewrite exec_dispatch.
  destruct op; unfold cartHandler, App.addToCart, App.removeFromCart;
    destruct (isChatClosed (app x)); reflexivity.
Qed.

Lemma runCartOps_cons (op : CartOp) (ops : list CartOp) (x : Sys) :
  execState (runCartOps (op :: ops)) x
  = execState (runCartOps ops) (execState (dispatch (cartHandler op)) x).
Proof.
  unfold execState. cbn.
  destruct (runState (cartHandler op (app x)) x) as [[] x1]. reflexivity.
Qed.

Lemma runCartOps_ok (ops : list CartOp) (x : Sys) :
  cartOk (cart (app x)) -> cartOk (cart (app (execState (runCartOps ops) x))).
Proof.
  revert x. induction ops as [|op ops IH]; intros x H; [exact H|].
  rewrite runCartOps_cons. apply IH. rewrite cart_after_op.
  destruct (isChatClosed (app x)); [exact H|].
  destruct op; [now apply addItem_ok | now apply removeItem_ok].
Qed.

Lemma removeItem_last_unit (c : list CartItem.t) (i : CartItem.t) :
  cartOk c -> In i c -> CartItem.quantity i = 1 ->
  lineOf (CartItem.id i) (App.removeItem (CartItem.id i) c) = None.
Proof.
  intros [ND _] Hi Q. unfold lineOf.
  destruct (find _ _) as [j|] eqn:F; [exfalso | reflexivity].
  apply find_some in F as [Hj E]. apply Z.eqb_eq in E.
  unfold App.removeItem in Hj. apply filter_In in Hj as [Hj Pos].
  apply Z.ltb_lt in Pos. apply in_map_iff in Hj as (k & <- & Hk).
  destruct (CartItem.id k =? CartItem.id i) eqn:K.
  - apply Z.eqb_eq in K. assert (k = i) as -> by now apply (same_id_same_line c).
    simpl in Pos. lia.
  - apply Z.eqb_neq in K. contradiction.
Qed.

Lemma addItem_at_ceiling (c : list CartItem.t) (i : CartItem.t) (item : MenuItem.t) :
  cartOk c -> In i c -> CartItem.quantity i = 99 -> MenuItem.id item = CartItem.id i ->
  App.addItem item c = c.
Proof.
  intros [ND _] Hi Q E. unfold App.addItem.
  destruct (find _ c) as [existing|] eqn:F.
  - apply find_some in F as [He Hid]. apply Z.eqb_eq in Hid.
    assert (existing = i) as -> by (apply (same_id_same_line c); congruence).
    now rewrite Q.
  - exfalso. apply (find_none _ _ F) in Hi. rewrite E, Z.eqb_refl in Hi. discriminate.
Qed.

(** C4. From the empty cart, after any sequence of add and remove
    operations every line has a quantity between 1 and 99; removing the
    last unit of a line deletes the line, and adding to a line that holds 99
    leaves the cart as it is. *)
Theorem cart_quantity_invariant (ops : list CartOp) (x0 : Sys) :
  cart (app x0) = [] ->
  let c := cart (app (execState (runCartOps ops) x0)) in
  Forall quantityInRange c
  /\ (forall i, In i c -> 0 < CartItem.quantity i)
  /\ (forall i, In i c -> CartItem.quantity i = 1 ->
      lineOf (CartItem.id i) (App.removeItem (CartItem.id i) c) = None)
  /\ (forall i item, In i c -> CartItem.quantity i = 99 ->
      MenuItem.id item = CartItem.id i -> App.addItem item c = c).
Proof.
  intros E c.
  assert (cartOk c) as Ok.
  { apply runCartOps_ok. rewrite E. split; constructor. }
  split; [exact (proj2 Ok)|]. split; [|split].
  - intros i Hi. pose proof (proj1 (Forall_forall _ _) (proj2 Ok) i Hi) as R.
    unfold quantityInRange in R. lia.
  - intros i Hi Q. now apply removeItem_last_unit.
  - intros i item Hi Q Hid. now apply (addItem_at_ceiling c i).
Qed.

End CartInvariant.

Lemma cart_quantity_invariant_witness :
  cart (app (mkSys (initialState true) offlineBrowser)) = []
  /\ Forall quantityInRange
       (cart (app (execState (runCartOps sampleOps)
                             (mkSys (initialState true) offlineBrowser)))).
Proof.
  split; [reflexivity|].
  exact (proj1 (cart_quantity_invariant sampleOps
                  (mkSys (initialState true) offlineBrowser) eq_refl)).
Defined.

(* ===================================================================== *)
(** * Notification center *)
(* ===================================================================== *)

Lemma lastN_length {A : Type} (n : nat) (l : list A) : length (Js.lastN n l) <= n.
Proof. unfold Js.lastN. rewrite length_skipn. lia. Qed.

Lemma lastN_drop_oldest {A : Type} (n : nat) (l : list A) :
  length l = S n -> Js.lastN n l = tl l.
Proof.
  intros H. unfold Js.lastN. rewrite H. replace (S n - n) with 1 by lia.
  destruct l; reflexivity.
Qed.

Lemma visible_existsb (m : jsstring) (ty : Severity.t) (id : N) (d : bool)
      (l : list Notification.t) :
  existsb (fun n => Js.eqb (Notification.message n)
                           (Notification.message (Notification.mk id ty m d))) l = true
  <-> visible m l.
Proof.
  rewrite existsb_exists. unfold visible. simpl.
  split; intros (n & Hn & E); exists n; split; auto; now apply eqb_spec.
Qed.

Lemma pushNotification_visible (n : Notification.t) (l : list Notification.t) :
  visible (Notification.message n) l -> App.pushNotification n l = l.
Proof.
  destruct n as [id ty m d]. intros V. unfold App.pushNotification.
  apply (visible_existsb m ty id d) in V. now rewrite V.
Qed.

Lemma pushNotification_fresh (n : Notification.t) (l : list Notification.t) :
  ~ visible (Notification.message n) l ->
  App.pushNotification n l = Js.lastN 3 l ++ [n].
Proof.
  destruct n as [id ty m d]. intros V. unfold App.pushNotification.
  destruct (existsb _ l) eqn:E; [|reflexivity].
  apply (visible_existsb m ty id d) in E. contradiction.
Qed.

Lemma pushNotification_length (n : Notification.t) (l : list Notification.t) :
  length l <= 4 -> length (App.pushNotification n l) <= 4.
Proof.
  intros H. unfold App.pushNotification. destruct (existsb _ l); [exact H|].
  rewrite length_app. simpl. pose proof (lastN_length 3 l). lia.
Qed.

Lemma notifications_after_show (ty : Severity.t) (m : jsstring) (d : bool) (x : Sys) :
  notifications (app (execState (App.showNotification ty m d) x))
  = App.pushNotification (Notification.mk (now (browser x)) ty m d)
                         (notifications (app x)).
Proof. reflexivity. Qed.

Lemma notificationStep_length (op : NotificationOp) (x : Sys) :
  length (notifications (app x)) <= 4 ->
  length (notifications (app (execState (notificationStep op) x))) <= 4.
Proof.
  intros H. destruct op as [t ty m d | id | t]; cbn.
  - now apply pushNotification_length.
  - etransitivity; [apply List.filter_length_le | exact H].
  - etransitivity; [apply List.filter_length_le | exact H].
Qed.

Lemma runNotificationOps_cons (op : NotificationOp) (ops : list NotificationOp) (x : Sys) :
  execState (runNotificationOps (op :: ops)) x
  = execState (runNotificationOps ops) (execState (notificationStep op) x).
Proof.
  unfold execState. cbn -[notificationStep].
  destruct (runState (notificationStep op) x) as [[] x1]. reflexivity.
Qed.

Lemma runNotificationOps_length (ops : list NotificationOp) (x : Sys) :
  length (notifications (app x)) <= 4 ->
  length (notifications (app (execState (runNotificationOps ops) x))) <= 4.
Proof.
  revert x. induction ops as [|op ops IH]; intros x H; [exact H|].
  rewrite runNotificationOps_cons. now apply IH, notificationStep_length.
Qed.

(** C9. Starting with no notification, whatever is shown, dismissed or
    swept, at most 4 notifications are visible; showing a message that is
    already visible changes nothing, and showing a new one while 4 are
    visible drops the oldest. *)
Theorem notification_center_bound (ops : list NotificationOp) (x0 : Sys) :
  notifications (app x0) = [] ->
  length (notifications (app (execState (runNotificationOps ops) x0))) <= 4
  /\ (forall x ty m d,
      visible m (notifications (app x)) ->
      notifications (app (execState (App.showNotification ty m d) x))
      = notifications (app x))
  /\ (forall x ty m d,
      ~ visible m (notifications (app x)) ->
      length (notifications (app x)) = 4 ->
      notifications (app (execState (App.showNotification ty m d) x))
      = tl (notifications (app x)) ++ [Notification.mk (now (browser x)) ty m d]).
Proof.
  intros E. split; [|split].
  - apply runNotificationOps_length. rewrite E. simpl. lia.
  - intros x ty m d V. rewrite notifications_after_show.
    now apply pushNotification_visible.
  - intros x ty m d V L. rewrite notifications_after_show.
    rewrite pushNotification_fresh by exact V.
    now rewrite lastN_drop_oldest.
Qed.

Lemma notification_center_bound_witness :
  notifications (app (mkSys (initialState true) offlineBrowser)) = []
  /\ length (notifications (app (execState
       (runNotificationOps [ShowOp 1 Severity.info (js "a") true;
                            ShowOp 2 Severity.info (js "b") true;
                            ShowOp 3 Severity.error (js "c") false;
                            ShowOp 4 Severity.info (js "d") true;
                            ShowOp 5 Severity.info (js "e") true;
                            ShowOp 6 Severity.info (js "e") true])
       (mkSys (initialState true) offlineBrowser)))) <= 4.
Proof.
  split; [reflexivity|].
  exact (proj1 (notification_center_bound _ (mkSys (initialState true) offlineBrowser)
                  eq_refl)).
Defined.

(* ===================================================================== *)
(** * Checkout preconditions *)
(* ===================================================================== *)

Lemma isEmpty_false (s : jsstring) : App.isEmpty s = false <-> s <> [].
Proof. destruct s; simpl; split; congruence. Qed.

Lemma complete_check (d : UserData.t) :
  App.isEmpty (UserData.name d) || App.isEmpty (UserData.address d)
  || App.isEmpty (UserData.paymentMethod d) = false <-> complete d.
Proof.
  unfold complete. rewrite !orb_false_iff, !isEmpty_false. tauto.
Qed.

Lemma errorShown_intro (m : jsstring) (x x' : Sys) :
  notifications (app x')
  = App.pushNotification (Notification.mk (now (browser x)) Severity.error m true)
                         (notifications (app x)) ->
  errorShown m x x'.
Proof.
  intros E. split; [exact E|]. rewrite E.
  set (n := Notification.mk (now (browser x)) Severity.error m true).
  unfold App.pushNotification.
  destruct (existsb _ (notifications (app x))) eqn:V.
  - now apply (visible_existsb m Severity.error (now (browser x)) true).
  - exists n. split; [|reflexivity]. apply in_or_app. right. now left.
Qed.

(** C6. With an empty cart the checkout action leaves the flow step as it
    is.  Confirming the review re-checks the data and the cart: a missing
    field leads to [edit_info], otherwise an empty cart leads to [ordering],
    in both cases with an error notification; the step becomes [finished]
    only when the three fields and the cart are non-empty. *)
Theorem checkout_preconditions (x : Sys) :
  (cart (app x) = [] ->
   flowStep (app (execState (dispatch App.startCheckoutFlow) x)) = flowStep (app x))
  /\ (cart (app x) <> [] ->
      flowStep (app (execState (dispatch App.startCheckoutFlow) x)) = ask_name)
  /\ (~ complete (userData (app x)) ->
      flowStep (app (execState (dispatch App.startRedirection) x)) = edit_info
      /\ errorShown incompleteNotice x (execState (dispatch App.startRedirection) x))
  /\ (complete (userData (app x)) -> cart (app x) = [] ->
      flowStep (app (execState (dispatch App.startRedirection) x)) = ordering
      /\ errorShown emptyCartNotice x (execState (dispatch App.startRedirection) x))
  /\ (flowStep (app (execState (dispatch App.startRedirection) x)) = finished <->
      complete (userData (app x)) /\ cart (app x) <> []).
Proof.
  rewrite !exec_dispatch. unfold App.startCheckoutFlow, App.startRedirection.
  pose proof (complete_check (userData (app x))) as C.
  split; [|split; [|split; [|split]]].
  - intros ->. reflexivity.
  - intros H. destruct (cart (app x)); [contradiction | reflexivity].
  - intros H. destruct (_ || _ || _); [|exfalso; apply H; now apply C].
    split; [reflexivity|].
    apply errorShown_intro. cbn. unfold incompleteNotice. reflexivity.
  - intros H ->. apply C in H. rewrite H. split; [reflexivity|].
    apply errorShown_intro. cbn. unfold emptyCartNotice. reflexivity.
  - destruct (_ || _ || _).
    + split; [discriminate|]. intros [H _]. apply C in H. discriminate.
    + assert (complete (userData (app x))) as Cd by now apply C.
      destruct (cart (app x)); simpl.
      * split; [discriminate | intros [_ H]; contradiction].
      * split; [intros _; split; [exact Cd | discriminate] | reflexivity].
Qed.

Lemma checkout_preconditions_witness :
  cart (app (mkSys (atReview [] sampleCustomer) offlineBrowser)) = []
  /\ flowStep (app (execState (dispatch App.startRedirection)
                              (mkSys (atReview [] sampleCustomer) offlineBrowser)))
     = ordering.
Proof.
  split; [reflexivity|].
  refine (proj1 (proj1 (proj2 (proj2 (proj2
    (checkout_preconditions (mkSys (atReview [] sampleCustomer) offlineBrowser)))))
    _ eq_refl)).
  unfold complete. simpl. repeat split; discriminate.
Defined.

(* ===================================================================== *)
(** * External response adapter *)
(* ===================================================================== *)

Section Adapter.
Context {rt : JsRuntime}.

Lemma run_attemptOnce (message : jsstring) (history : list HistoryTurn.t) (w : Browser) :
  runState (GeminiService.attemptOnce message history) w
  = (outcomeOf (textApi w (requests w)),
     afterFetch GeminiService.textApiUrl (GeminiService.fullPrompt message history) w).
Proof.
  unfold GeminiService.attemptOnce. rewrite run_bind.
  change (runState (fetchText ?u ?b) w) with (textApi w (requests w), afterFetch u b w).
  cbn [fst snd]. unfold outcomeOf.
  destruct (textApi w (requests w)) as [r | status body]; [reflexivity|].
  destruct (negb (ok status)); [reflexivity|].
  destruct body as [r | text]; [reflexivity|].
  destruct (negb (GeminiService.isValidResponse text)); reflexivity.
Qed.

(** The loop does not depend on its fuel once there is enough of it. *)
Lemma retryLoop_fuel (fuel fuel' attempt : nat) (message : jsstring)
      (history : list HistoryTurn.t) (w : Browser) :
  S GeminiService.maxRetries - attempt <= fuel ->
  S GeminiService.maxRetries - attempt <= fuel' ->
  runState (GeminiService.retryLoop fuel attempt message history) w
  = runState (GeminiService.retryLoop fuel' attempt message history) w.
Proof.
  revert fuel' attempt w.
  induction fuel as [|fuel IH]; intros fuel' attempt w H H'.
  - destruct fuel' as [|fuel']; [reflexivity|].
    cbn [GeminiService.retryLoop].
    replace (attempt <=? GeminiService.maxRetries) with false; [reflexivity|].
    symmetry. apply Nat.leb_gt. unfold GeminiService.maxRetries in *. lia.
  - destruct fuel' as [|fuel'].
    + cbn [GeminiService.retryLoop].
      replace (attempt <=? GeminiService.maxRetries) with false; [reflexivity|].
      symmetry. apply Nat.leb_gt. unfold GeminiService.maxRetries in *. lia.
    + cbn [GeminiService.retryLoop].
      destruct (attempt <=? GeminiService.maxRetries) eqn:E; [|reflexivity].
      rewrite !run_bind, run_attemptOnce. cbn [fst snd].
      destruct (outcomeOf _) as [error | text]; [|reflexivity].
      destruct (GeminiService.isAbort error); [reflexivity|].
      destruct (GeminiService.isClientError error); [reflexivity|].
      rewrite !run_bind. apply IH; unfold GeminiService.maxRetries in *; lia.
Qed.

(** What the [catch] block decides agrees with the sorting of failures. *)
Lemma outcome_failure (a : Attempt jsstring) :
  match outcomeOf a with
  | inr _ => failureOf a = None
  | inl e =>
    failureOf a <> None
    /\ fatal (failureOf a) = GeminiService.isAbort e || GeminiService.isClientError e
  end.
Proof.
  destruct a as [[|] | status body]; simpl; try (split; [discriminate | reflexivity]).
  unfold ok.
  destruct ((400 <=? status)%N && (status <? 500)%N) eqn:C4.
  - apply andb_true_iff in C4 as [A B]. apply N.leb_le in A. apply N.ltb_lt in B.
    replace ((200 <=? status)%N && (status <=? 299)%N) with false.
    2:{ symmetry. apply andb_false_iff. right. apply N.leb_gt. lia. }
    simpl. split; [discriminate|].
    replace (status =? 0)%N with false by (symmetry; apply N.eqb_neq; lia).
    replace (400 <=? status)%N with true by (symmetry; apply N.leb_le; lia).
    replace (status <? 500)%N with true by (symmetry; apply N.ltb_lt; lia).
    reflexivity.
  - destruct ((200 <=? status)%N && (status <=? 299)%N) eqn:OK.
    + apply andb_true_iff in OK as [A B]. apply N.leb_le in A. apply N.leb_le in B.
      replace ((status <? 200)%N || (299 <? status)%N) with false.
      2:{ symmetry. apply orb_false_iff. split; apply N.ltb_ge; lia. }
      simpl. destruct body as [[|] | text]; simpl;
        try (split; [discriminate | reflexivity]).
      destruct (GeminiService.isValidResponse text); simpl;
        [reflexivity | split; [discriminate | reflexivity]].
    + replace ((status <? 200)%N || (299 <? status)%N) with true.
      2:{ symmetry. apply andb_false_iff in OK as [A | A];
          [apply N.leb_gt in A | apply N.leb_gt in A];
          apply orb_true_iff; [left | right]; apply N.ltb_lt; lia. }
      simpl. split; [discriminate|].
      destruct (400 <=? status)%N, (status <? 500)%N, (status =? 0)%N;
        simpl in *; try reflexivity; discriminate.
Qed.

(** The run of the loop from attempt [attempt] on, on an endpoint whose
    next requests all fail: the events it appends. *)
Lemma run_failed_attempt (fuel attempt : nat) (message : jsstring)
      (history : list HistoryTurn.t) (w : Browser) (error : JsError) :
  (attempt <=? GeminiService.maxRetries) = true ->
  outcomeOf (textApi w (requests w)) = inl error ->
  runState (GeminiService.retryLoop (S fuel) attempt message history) w
  = let w1 := afterFetch GeminiService.textApiUrl
                         (GeminiService.fullPrompt message history) w in
    if GeminiService.isAbort error
    then (None, afterEvent (Warn (js "Request timeout, using fallback")) w1)
    else if GeminiService.isClientError error
    then (None, afterEvent (Warn (js "Client error, not retrying:")) w1)
    else runState (GeminiService.retryLoop fuel (S attempt) message history)
           (if attempt <? GeminiService.maxRetries
            then afterEvent (Delay (GeminiService.retryDelay * 2 ^ N.of_nat attempt)) w1
            else w1).
Proof.
  intros L O. cbn [GeminiService.retryLoop]. rewrite L.
  rewrite run_bind, run_attemptOnce, O. cbn [fst snd].
  destruct (GeminiService.isAbort error); [reflexivity|].
  destruct (GeminiService.isClientError error); [reflexivity|].
  rewrite run_bind. destruct (attempt <? GeminiService.maxRetries); reflexivity.
Qed.

Lemma failing_outcome (w : Browser) (n : nat) :
  permanentlyFailing w ->
  exists error,
    outcomeOf (textApi w n) = inl error
    /\ fatal (failureOf (textApi w n))
       = GeminiService.isAbort error || GeminiService.isClientError error.
Proof.
  intros P. pose proof (outcome_failure (textApi w n)) as O.
  destruct (outcomeOf (textApi w n)) as [error | text].
  - exists error. split; [reflexivity | apply O].
  - exfalso. now apply (P n).
Qed.

(** Closes a branch of the loop once the events it appended are known. *)
Ltac trace_is es :=
  exists es; eexists; split; [reflexivity|];
  cbn [events afterEvent afterFetch]; rewrite <- !app_assoc; repeat split.

(** The loop on an endpoint whose every attempt fails: it leaves without a
    text, after the events [es]. *)
Lemma retryLoop_failing (sanitized : jsstring) (history : list HistoryTurn.t)
      (w : Browser) :
  permanentlyFailing w ->
  exists es w',
    runState (GeminiService.retryLoop (S GeminiService.maxRetries) 0 sanitized history) w
    = (None, w')
    /\ events w' = events w ++ es
    /\ fetchesIn es
       = (if fatal (nthFailure w 0) then 1
          else if fatal (nthFailure w 1) then 2 else 3)
    /\ delaysIn es
       = (if fatal (nthFailure w 0) then []
          else if fatal (nthFailure w 1) then [1000] else [1000; 2000])%N.
Proof.
  intros P.
  set (prompt := GeminiService.fullPrompt sanitized history).
  set (url := GeminiService.textApiUrl).
  pose (req := Fetch url (Some prompt)).
  pose (gaveUp := Warn (js "Request timeout, using fallback")).
  pose (refused := Warn (js "Client error, not retrying:")).
  change GeminiService.maxRetries with 2.
  destruct (failing_outcome w (requests w + 0) P) as (e0 & O0 & F0).
  destruct (failing_outcome w (requests w + 1) P) as (e1 & O1 & F1).
  destruct (failing_outcome w (requests w + 2) P) as (e2 & O2 & F2).
  unfold nthFailure. rewrite F0, F1. clear F0 F1 F2.
  rewrite Nat.add_0_r in O0.
  replace (requests w + 1) with (S (requests w)) in O1 by lia.
  replace (requests w + 2) with (S (S (requests w))) in O2 by lia.
  rewrite (run_failed_attempt _ 0 sanitized history w e0 eq_refl O0).
  cbv zeta. fold prompt url.
  destruct (GeminiService.isAbort e0).
  { trace_is [req; gaveUp]. }
  destruct (GeminiService.isClientError e0).
  { trace_is [req; refused]. }
  change (0 <? GeminiService.maxRetries) with true. change (S 0) with 1. cbv iota.
  match goal with
  | |- context [runState (GeminiService.retryLoop _ _ _ _) ?w'] =>
    rewrite (run_failed_attempt _ 1 sanitized history w' e1 eq_refl O1)
  end.
  cbv zeta. fold prompt url.
  destruct (GeminiService.isAbort e1).
  { trace_is [req; Delay 1000; req; gaveUp]. }
  destruct (GeminiService.isClientError e1).
  { trace_is [req; Delay 1000; req; refused]. }
  change (1 <? GeminiService.maxRetries) with true. cbv iota.
  match goal with
  | |- context [runState (GeminiService.retryLoop _ _ _ _) ?w'] =>
    rewrite (run_failed_attempt _ 2 sanitized history w' e2 eq_refl O2)
  end.
  cbv zeta. fold prompt url.
  destruct (GeminiService.isAbort e2).
  { trace_is [req; Delay 1000; req; Delay 2000; req; gaveUp]. }
  destruct (GeminiService.isClientError e2).
  { trace_is [req; Delay 1000; req; Delay 2000; req; refused]. }
  change (2 <? GeminiService.maxRetries) with false. cbv iota.
  trace_is [req; Delay 1000; req; Delay 2000; req].
Qed.

Lemma run_sendMessage (message : jsstring) (history : list HistoryTurn.t) (w : Browser) :
  GeminiService.sanitizeInput message <> [] ->
  runState (GeminiService.sendMessage message history) w
  = let sanitized := GeminiService.sanitizeInput message in
    let r := runState (GeminiService.retryLoop (S GeminiService.maxRetries) 0
                                               sanitized history) w in
    match fst r with
    | Some text => (text, snd r)
    | None => (GeminiService.getLocalResponse sanitized, afterEvent fallbackWarning (snd r))
    end.
Proof.
  intros NE. unfold GeminiService.sendMessage.
  destruct (GeminiService.sanitizeInput message) as [|c r]; [contradiction|].
  rewrite run_bind. cbv zeta.
  destruct (fst (runState _ w)); reflexivity.
Qed.

(** C2, amended. On an endpoint whose every attempt fails, [sendMessage]
    stops at the first attempt that fails with a timeout or a 4xx status,
    and after the third attempt otherwise: it makes 1, 2 or 3 requests, waits
    1000 ms after a first and 2000 ms after a second failure that is neither,
    and then returns the reply of the local responder. *)
Theorem sendMessage_retry_bound (message : jsstring) (history : list HistoryTurn.t)
        (w : Browser) :
  GeminiService.sanitizeInput message <> [] ->
  permanentlyFailing w ->
  exists es,
    events (execState (GeminiService.sendMessage message history) w)
    = events w ++ es ++ [fallbackWarning]
    /\ fetchesIn es
       = (if fatal (nthFailure w 0) then 1
          else if fatal (nthFailure w 1) then 2 else 3)
    /\ delaysIn es
       = (if fatal (nthFailure w 0) then []
          else if fatal (nthFailure w 1) then [1000] else [1000; 2000])%N
    /\ evalState (GeminiService.sendMessage message history) w
       = GeminiService.getLocalResponse (GeminiService.sanitizeInput message).
Proof.
  intros NE P. unfold execState, evalState. rewrite (run_sendMessage _ _ _ NE). cbv zeta.
  destruct (retryLoop_failing (GeminiService.sanitizeInput message) history w P)
    as (es & w' & R & E & F & D).
  rewrite R. cbn [fst snd events afterEvent]. exists es.
  rewrite E, <- app_assoc. repeat split; assumption.
Qed.

(** C10. When nothing is left of the input after sanitizing, [sendMessage]
    answers the fixed apology and leaves the world as it is: no request, no
    delay, no fallback. *)
Theorem sendMessage_empty_input (message : jsstring) (history : list HistoryTurn.t)
        (w : Browser) :
  GeminiService.sanitizeInput message = [] ->
  runState (GeminiService.sendMessage message history) w
  = (js "Desculpe, nao entendi. Pode repetir?", w).
Proof.
  intros E. unfold GeminiService.sendMessage. rewrite E. reflexivity.
Qed.

End Adapter.

Lemma flakyThenGone_fails : permanentlyFailing (rt := Latin1) flakyThenGone.
Proof. intros [|n]; vm_compute; discriminate. Qed.

Lemma sendMessage_retry_bound_witness :
  GeminiService.sanitizeInput (js "oi") <> []
  /\ permanentlyFailing (rt := Latin1) flakyThenGone
  /\ exists es,
       events (execState (GeminiService.sendMessage (rt := Latin1) (js "oi") [])
                         flakyThenGone)
       = events flakyThenGone ++ es ++ [fallbackWarning]
       /\ fetchesIn es = 2.
Proof.
  assert (GeminiService.sanitizeInput (js "oi") <> []) as NE by (vm_compute; discriminate).
  split; [exact NE|]. split; [exact flakyThenGone_fails|].
  destruct (sendMessage_retry_bound (rt := Latin1) (js "oi") [] flakyThenGone NE
              flakyThenGone_fails) as (es & E & F & _).
  exists es. split; [exact E | exact F].
Defined.

(** C2 as stated fails: after a 500 and then a 404, two requests are made,
    although the first failure is neither a timeout nor a 4xx. *)
Lemma retry_bound_counterexample :
  ~ retryBoundAsStated (rt := Latin1) (js "oi") [] flakyThenGone.
Proof.
  intros H. destruct (H flakyThenGone_fails) as (es & E & F & _).
  vm_compute in E. subst es. vm_compute in F. discriminate.
Qed.

Lemma sendMessage_empty_input_witness :
  GeminiService.sanitizeInput (js " <> ") = []
  /\ runState (GeminiService.sendMessage (rt := Latin1) (js " <> ") []) offlineBrowser
     = (js "Desculpe, nao entendi. Pode repetir?", offlineBrowser).
Proof.
  split; [reflexivity|].
  exact (sendMessage_empty_input (rt := Latin1) (js " <> ") [] offlineBrowser eq_refl).
Defined.

(* ===================================================================== *)
(** * Editing sub-mode *)
(* ===================================================================== *)

(** C5 as stated fails for an address entered as a postal code: the
    lookup succeeds, the street waits in the pending address, the customer
    data is unchanged and the flow asks for the house number; the number
    then leads on to the payment step, not to the review. *)
Lemma edit_postal_code_counterexample :
  let x1 := execState (dispatch (App.handleBotResponse (rt := Latin1) (js "01001-000")))
                      (editingAddress pracaDaSe) in
  let x2 := execState (dispatch (App.handleBotResponse (rt := Latin1) (js "100"))) x1 in
  lookupAnswers (editingAddress pracaDaSe) pracaDaSe
  /\ flowStep (app x1) = ask_address_number
  /\ flowStep (app x1) <> review
  /\ userData (app x1) = userData (app (editingAddress pracaDaSe))
  /\ pendingAddress (app x1) = js "Praça da Sé, Sé, São Paulo - SP"
  /\ flowStep (app x2) = ask_payment
  /\ editField (app x2) = Some EditField.address.
Proof.
  cbv zeta. split; [|vm_compute; repeat split; discriminate].
  exists 200%N. repeat split.
Qed.

Section Editing.
Context {rt : JsRuntime}.

Lemma validateName_nonempty (input : jsstring) :
  NameValidationResult.valid (Validation.validateName input) = true -> input <> [].
Proof. intros H ->. discriminate. Qed.

Lemma validatePayment_nonempty (input : jsstring) :
  ValidationResult.valid (Validation.validatePaymentMethod input) = true -> input <> [].
Proof. intros H ->. discriminate. Qed.

Lemma addressAccepted_nonempty (input : jsstring) :
  addressAccepted input = true -> input <> [].
Proof. intros H ->. discriminate. Qed.

Lemma acceptedValue_nonempty (f : EditField.t) (input v : jsstring) :
  acceptedValue f input = Some v -> input <> [].
Proof.
  destruct f; unfold acceptedValue.
  - destruct (NameValidationResult.valid _) eqn:V; [|discriminate].
    intros _. now apply validateName_nonempty.
  - destruct (App.cepMatch input); [discriminate|].
    destruct (addressAccepted input) eqn:V; [|discriminate].
    intros _. now apply addressAccepted_nonempty.
  - destruct (ValidationResult.valid _) eqn:V; [|discriminate].
    intros _. now apply validatePayment_nonempty.
Qed.

(** The edit branch on a sanitized input that is not empty. *)
Lemma handleBotResponse_edit (v : jsstring) (s : AppState) (f : EditField.t) :
  flowStep s = edit_info -> editField s = Some f ->
  Validation.sanitizeDisplayText v <> [] ->
  App.handleBotResponse v s
  = (setIsTyping true ;; App.handleEdit f (Validation.sanitizeDisplayText v) s).
Proof.
  intros F E NE. unfold App.handleBotResponse. rewrite F, E.
  destruct (Validation.sanitizeDisplayText v); [contradiction | reflexivity].
Qed.

(** An accepted value is stored and the flow returns to the review. *)
Lemma handleEdit_accepted (f : EditField.t) (input value : jsstring) (s : AppState)
      (x : Sys) :
  acceptedValue f input = Some value ->
  let x' := execState (App.handleEdit f input s) x in
  userData (app x') = storeField f (userData (app x)) value
  /\ flowStep (app x') = review
  /\ editField (app x') = None
  /\ messages (app x')
     = (messages (app x) ++ [Message.mk bot (Validation.sanitizeDisplayText
          (match f with
           | EditField.name => js "Nome atualizado para *" ++ value ++ js "*!"
           | EditField.address => js "Endereco atualizado!"
           | EditField.payment =>
             js "Forma de pagamento atualizada para *" ++ value ++ js "*!"
           end)) None])
       ++ [Message.mk bot (Validation.sanitizeDisplayText
             (App.reviewText (cart s) (storeField f (userData s) value))) None]
  /\ browser x' = browser x
  /\ isChatClosed (app x') = isChatClosed (app x).
Proof.
  intros A. destruct f; unfold acceptedValue in A; unfold App.handleEdit.
  - destruct (NameValidationResult.valid _); [|discriminate].
    injection A as <-. cbn. repeat split.
  - destruct (App.cepMatch input); [discriminate|].
    unfold addressAccepted in A.
    destruct (negb (AddressValidationResult.valid _) && _); [discriminate|].
    injection A as <-. cbn. repeat split.
  - destruct (ValidationResult.valid _); [|discriminate].
    injection A as <-. cbn. repeat split.
Qed.

(** The lookup when the directory answers with an address. *)
Lemma handleCEPAction_resolves (cep : jsstring) (s : AppState) (x : Sys) (data : ViaCep.t) :
  CEPValidationResult.valid (Validation.validateCEP cep) = true ->
  isOnline s = true ->
  lookupAnswers x data ->
  exists w',
    runState (App.handleCEPAction cep s) x
    = (Some data,
       mkSys (updIsSearchingCEP (fun _ => false)
                (updIsSearchingCEP (fun _ => true) (app x))) w').
Proof.
  intros V O (status & A & Ok & Er & Fa).
  unfold App.handleCEPAction. rewrite V, O. cbn [negb].
  unfold App.lookupCEP, fetchCep. cbn.
  rewrite A, Ok. cbn. rewrite Er, Fa. cbn. eexists. reflexivity.
Qed.

(** The lookup never moves the flow, whatever the network does. *)
Lemma handleCEPAction_keeps (cep : jsstring) (s : AppState) (x : Sys) :
  let x' := snd (runState (App.handleCEPAction cep s) x) in
  flowStep (app x') = flowStep (app x)
  /\ userData (app x') = userData (app x)
  /\ editField (app x') = editField (app x)
  /\ isChatClosed (app x') = isChatClosed (app x).
Proof.
  unfold App.handleCEPAction.
  destruct (negb (CEPValidationResult.valid _)); [cbn; repeat split|].
  destruct (negb (isOnline s)); [cbn; repeat split|].
  unfold App.lookupCEP, fetchCep. cbn.
  destruct (viaCep (browser x) (requests (browser x))) as [r | status body].
  { destruct r; cbn; repeat split. }
  destruct (negb (ok status)); [cbn; repeat split|].
  destruct body as [r | data]; [destruct r; cbn; repeat split|].
  destruct (ViaCep.erro data); [cbn; repeat split|].
  destruct (falsy _ && falsy _ && falsy _); cbn; repeat split.
Qed.

Lemma cepMatch_nonempty (input cep : jsstring) : App.cepMatch input = Some cep -> input <> [].
Proof. intros H ->. discriminate. Qed.

(** C5, amended. In [edit_info] with a field chosen, a valid name, a valid
    payment method, or an address accepted by the address validator and
    holding no postal code is stored in the customer data, the edit target
    is cleared and the flow returns to [review] with the summary shown again.
    An address holding a postal code that the directory resolves is kept as
    the pending address, the customer data is left as it is and the flow asks
    for the house number. *)
Theorem edit_submission (x : Sys) (f : EditField.t) (v : jsstring) :
  flowStep (app x) = edit_info ->
  editField (app x) = Some f ->
  let input := Validation.sanitizeDisplayText v in
  let x' := execState (dispatch (App.handleBotResponse v)) x in
  (forall value, acceptedValue f input = Some value ->
     userData (app x') = storeField f (userData (app x)) value
     /\ flowStep (app x') = review
     /\ editField (app x') = None
     /\ summaryShown (cart (app x)) (userData (app x')) x')
  /\ (forall cep data,
      f = EditField.address ->
      App.cepMatch input = Some cep ->
      CEPValidationResult.valid (Validation.validateCEP cep) = true ->
      isOnline (app x) = true ->
      lookupAnswers x data ->
      pendingAddress (app x') = App.baseAddressOf data
      /\ flowStep (app x') = ask_address_number
      /\ userData (app x') = userData (app x)).
Proof.
  intros F E input x'. subst x'. rewrite exec_dispatch. split.
  - intros value A.
    rewrite (handleBotResponse_edit v (app x) f F E (acceptedValue_nonempty f _ _ A)).
    unfold execState. rewrite run_bind.
    change (runState (setIsTyping true) x)
      with (tt, mkSys (updIsTyping (fun _ => true) (app x)) (browser x)).
    cbn [fst snd].
    destruct (handleEdit_accepted f input value (app x)
                (mkSys (updIsTyping (fun _ => true) (app x)) (browser x)) A)
      as (U & S & Ed & M & _ & _).
    fold input. unfold execState in *.
    split; [exact U|]. split; [exact S|]. split; [exact Ed|].
    unfold summaryShown. rewrite M, U. eexists. reflexivity.
  - intros cep data -> C V O L.
    rewrite (handleBotResponse_edit v (app x) _ F E (cepMatch_nonempty _ _ C)).
    unfold execState. rewrite run_bind.
    change (runState (setIsTyping true) x)
      with (tt, mkSys (updIsTyping (fun _ => true) (app x)) (browser x)).
    cbn [fst snd]. fold input. unfold App.handleEdit. rewrite C.
    rewrite run_bind.
    assert (lookupAnswers (mkSys (updIsTyping (fun _ => true) (app x)) (browser x)) data)
      as L' by exact L.
    destruct (handleCEPAction_resolves cep (app x) _ data V O L') as (w' & R).
    rewrite R. cbn. repeat split.
Qed.

End Editing.

Lemma edit_submission_witness :
  flowStep (app (editingAddress pracaDaSe)) = edit_info
  /\ editField (app (editingAddress pracaDaSe)) = Some EditField.address
  /\ flowStep (app (execState (dispatch (App.handleBotResponse (rt := Latin1)
                                           (js "Rua das Flores, 45, Centro")))
                              (editingAddress pracaDaSe))) = review.
Proof.
  split; [reflexivity|]. split; [reflexivity|].
  refine (proj1 (proj2 (proj1 (edit_submission (rt := Latin1) (editingAddress pracaDaSe)
            EditField.address (js "Rua das Flores, 45, Centro") eq_refl eq_refl)
            (js "Rua das Flores, 45, Centro") _))).
  vm_compute. reflexivity.
Defined.

(* ===================================================================== *)
(** * Idempotence of an edit *)
(* ===================================================================== *)

Section EditTwice.
Context {rt : JsRuntime}.

(** A rejected value leaves the flow where it is, or, for a postal code
    that resolves, asks for the house number. *)
Lemma handleEdit_rejected (f : EditField.t) (input : jsstring) (s : AppState) (x : Sys) :
  acceptedValue f input = None ->
  flowStep (app (execState (App.handleEdit f input s) x)) = flowStep (app x)
  \/ flowStep (app (execState (App.handleEdit f input s) x)) = ask_address_number.
Proof.
  intros A. destruct f; unfold acceptedValue in A; unfold App.handleEdit.
  - destruct (NameValidationResult.valid _); [discriminate|]. left. reflexivity.
  - destruct (App.cepMatch input) as [cep|].
    + unfold execState. rewrite run_bind.
      pose proof (handleCEPAction_keeps cep s x) as (K & _). cbv zeta in K.
      destruct (fst (runState (App.handleCEPAction cep s) x)); [right; reflexivity|].
      left. exact K.
    + unfold addressAccepted in A.
      destruct (negb (AddressValidationResult.valid _) && _); [|discriminate].
      left. reflexivity.
  - destruct (ValidationResult.valid _); [discriminate|]. left. reflexivity.
Qed.

(** The payment step of the main sequence, which the payment button of
    the edit screen re-enters. *)
Lemma handleStep_payment (input : jsstring) (s : AppState) (x : Sys) :
  flowStep s = ask_payment ->
  let x' := execState (App.handleStep input s) x in
  match acceptedValue EditField.payment input with
  | Some value =>
    userData (app x') = storeField EditField.payment (userData (app x)) value
    /\ flowStep (app x') = review
    /\ isChatClosed (app x') = isChatClosed (app x)
  | None => flowStep (app x') = flowStep (app x)
  end.
Proof.
  intros F. unfold App.handleStep, acceptedValue. rewrite F.
  destruct (ValidationResult.valid _); cbn; repeat split.
Qed.

Lemma editAndSubmit_split (f : EditField.t) (v : jsstring) (x : Sys) :
  execState (editAndSubmit f v) x
  = execState (dispatch (App.handleSend None)) (readyToSend f v x).
Proof.
  unfold editAndSubmit, readyToSend, submitText. now rewrite !exec_seq.
Qed.

Lemma readyToSend_state (f : EditField.t) (v : jsstring) (x : Sys) :
  let y := readyToSend f v x in
  flowStep (app y) = match f with EditField.payment => ask_payment | _ => edit_info end
  /\ editField (app y) = Some f
  /\ inputText (app y) = v
  /\ userData (app y) = userData (app x)
  /\ isChatClosed (app y) = isChatClosed (app x).
Proof. destruct f; cbn; repeat split. Qed.

Lemma sanitize_blank (v : jsstring) :
  Js.trim v = [] -> Validation.sanitizeDisplayText v = [].
Proof.
  intros T. unfold Validation.sanitizeDisplayText. rewrite T. now destruct v.
Qed.

(** What sending does on the edit screen. *)
Lemma send_on_edit_screen (f : EditField.t) (y : Sys) :
  flowStep (app y) = match f with EditField.payment => ask_payment | _ => edit_info end ->
  editField (app y) = Some f ->
  let input := Validation.sanitizeDisplayText (inputText (app y)) in
  let y' := execState (dispatch (App.handleSend None)) y in
  match (if isChatClosed (app y) then None else acceptedValue f input) with
  | Some value =>
    userData (app y') = storeField f (userData (app y)) value
    /\ flowStep (app y') = review
    /\ isChatClosed (app y') = false
  | None => flowStep (app y') <> review
  end.
Proof.
  intros F E input y'. subst y'. rewrite exec_dispatch. unfold App.handleSend.
  destruct (isChatClosed (app y)) eqn:Closed.
  { cbn. rewrite F. destruct f; discriminate. }
  destruct (Nat.eqb (length (Js.trim (inputText (app y)))) 0) eqn:Blank.
  { apply Nat.eqb_eq, length_zero_iff_nil, sanitize_blank in Blank. fold input in Blank.
    replace (acceptedValue f input) with (@None jsstring).
    - cbn. rewrite F. destruct f; discriminate.
    - rewrite Blank. destruct f; reflexivity. }
  unfold execState. rewrite !run_bind.
  set (y1 := snd (runState (App.addMessage user (inputText (app y)) None)
                    (snd (runState (setInputText []) y)))).
  assert (flowStep (app y1) = flowStep (app y) /\ userData (app y1) = userData (app y)
          /\ isChatClosed (app y1) = false) as (F1 & U1 & C1).
  { subst y1. cbn. repeat split. exact Closed. }
  clearbody y1. unfold App.handleBotResponse. rewrite run_bind.
  set (y2 := snd (runState (setIsTyping true) y1)).
  assert (flowStep (app y2) = flowStep (app y) /\ userData (app y2) = userData (app y)
          /\ isChatClosed (app y2) = false) as (F2 & U2 & C2).
  { subst y2. cbn. repeat split; assumption. }
  clearbody y2. clear y1 F1 U1 C1. fold input.
  destruct input as [|c r] eqn:In.
  { replace (acceptedValue f []) with (@None jsstring) by (destruct f; reflexivity).
    cbn. rewrite F2, F. destruct f; discriminate. }
  rewrite <- In. clear In. rewrite F, E.
  destruct f.
  - destruct (acceptedValue EditField.name input) as [value|] eqn:A.
    + destruct (handleEdit_accepted EditField.name input value (app y) y2 A)
        as (U & S & _ & _ & _ & C).
      unfold execState in *. rewrite U, S, C, U2. repeat split. exact C2.
    + destruct (handleEdit_rejected EditField.name input (app y) y2 A) as [K | K];
        unfold execState in K; rewrite K; [rewrite F2, F|]; discriminate.
  - destruct (acceptedValue EditField.address input) as [value|] eqn:A.
    + destruct (handleEdit_accepted EditField.address input value (app y) y2 A)
        as (U & S & _ & _ & _ & C).
      unfold execState in *. rewrite U, S, C, U2. repeat split. exact C2.
    + destruct (handleEdit_rejected EditField.address input (app y) y2 A) as [K | K];
        unfold execState in K; rewrite K; [rewrite F2, F|]; discriminate.
  - pose proof (handleStep_payment input (app y) y2 F) as P. cbv zeta in P.
    unfold execState in P.
    destruct (acceptedValue EditField.payment input) as [value|].
    + destruct P as (U & S & C). rewrite U, S, C, U2. repeat split. exact C2.
    + rewrite P, F2, F. discriminate.
Qed.

(** C7. Going back to the edit screen, choosing a field and submitting a
    value, when it ends at the review, can be repeated with the same value
    without changing the customer data or the flow step. *)
Theorem edit_submit_idempotent (f : EditField.t) (v : jsstring) (x : Sys) :
  flowStep (app (execState (editAndSubmit f v) x)) = review ->
  userData (app (execState (editAndSubmit f v) (execState (editAndSubmit f v) x)))
  = userData (app (execState (editAndSubmit f v) x))
  /\ flowStep (app (execState (editAndSubmit f v) (execState (editAndSubmit f v) x)))
     = flowStep (app (execState (editAndSubmit f v) x)).
Proof.
  set (x1 := execState (editAndSubmit f v) x). intros R.
  assert (forall z, let y := readyToSend f v z in
            match (if isChatClosed (app z) then None
                   else acceptedValue f (Validation.sanitizeDisplayText v)) with
            | Some value =>
              userData (app (execState (editAndSubmit f v) z))
              = storeField f (userData (app z)) value
              /\ flowStep (app (execState (editAndSubmit f v) z)) = review
              /\ isChatClosed (app (execState (editAndSubmit f v) z)) = false
            | None => flowStep (app (execState (editAndSubmit f v) z)) <> review
            end) as Step.
  { intros z y. rewrite editAndSubmit_split. fold y.
    destruct (readyToSend_state f v z) as (F & E & I & U & C). fold y in F, E, I, U, C.
    pose proof (send_on_edit_screen f y F E) as S. cbv zeta in S.
    rewrite I, C, U in S. exact S. }
  pose proof (Step x) as S0. cbv zeta in S0. fold x1 in S0.
  pose proof (Step x1) as S1. cbv zeta in S1. clear Step.
  destruct (isChatClosed (app x)); [contradiction|].
  destruct (acceptedValue f (Validation.sanitizeDisplayText v)) as [value|];
    [|contradiction].
  destruct S0 as (U1 & _ & C1). rewrite C1 in S1.
  destruct S1 as (U2 & F2 & _).
  rewrite U2, F2, R, U1. split; [|reflexivity].
  destruct f, (userData (app x)); reflexivity.
Qed.

End EditTwice.

Lemma edit_submit_idempotent_witness :
  flowStep (app (execState (editAndSubmit (rt := Latin1) EditField.name (js "Maria Silva"))
                           (mkSys (atReview sampleCart sampleCustomer) offlineBrowser)))
  = review
  /\ userData (app (execState (editAndSubmit (rt := Latin1) EditField.name (js "Maria Silva"))
                     (execState (editAndSubmit (rt := Latin1) EditField.name
                                               (js "Maria Silva"))
                        (mkSys (atReview sampleCart sampleCustomer) offlineBrowser))))
     = UserData.mk (js "Maria Silva") (js "Rua A, 123, Centro") (js "Pix").
Proof.
  assert (flowStep (app (execState (editAndSubmit (rt := Latin1) EditField.name
                                                  (js "Maria Silva"))
                           (mkSys (atReview sampleCart sampleCustomer) offlineBrowser)))
          = review) as R by (vm_compute; reflexivity).
  split; [exact R|].
  rewrite (proj1 (edit_submit_idempotent (rt := Latin1) EditField.name (js "Maria Silva")
                    (mkSys (atReview sampleCart sampleCustomer) offlineBrowser) R)).
  vm_compute. reflexivity.
Defined.

(* ===================================================================== *)
(** * Display string of a resolved address *)
(* ===================================================================== *)

Example display_address_complete :
  App.baseAddressOf pracaDaSe = js "Praça da Sé, Sé, São Paulo - SP"
  /\ hasEmptySegment (App.baseAddressOf pracaDaSe) = false.
Proof. vm_compute. split; reflexivity. Qed.

Example display_address_no_neighbourhood :
  App.baseAddressOf (ViaCep.mk false (Some (js "Rua A")) None (Some (js "Salvador"))
                               (Some (js "BA")))
  = js "Rua A, Salvador - BA".
Proof. vm_compute. reflexivity. Qed.

(** C8. When the directory gives neither street nor neighbourhood, the
    display string built from the lookup starts with a comma: stripping the
    leading comma comes before collapsing the pair, so one empty segment is
    left; it is what the flow keeps as pending address and shows to the
    customer. *)
Theorem display_address_leading_comma :
  App.baseAddressOf townOnly = js ", Salvador - BA"
  /\ hasEmptySegment (App.baseAddressOf townOnly) = true
  /\ hasConsecutiveCommas (App.baseAddressOf townOnly) = false
  /\ lookupAnswers (askedAddress townOnly) townOnly
  /\ pendingAddress (app (execState
        (dispatch (App.handleBotResponse (rt := Latin1) (js "44900-000")))
        (askedAddress townOnly))) = js ", Salvador - BA"
  /\ flowStep (app (execState
        (dispatch (App.handleBotResponse (rt := Latin1) (js "44900-000")))
        (askedAddress townOnly))) = confirm_address.
Proof.
  split; [vm_compute; reflexivity|]. split; [vm_compute; reflexivity|].
  split; [vm_compute; reflexivity|].
  split; [exists 200%N; repeat split|].
  split; vm_compute; reflexivity.
Qed.

(* ===================================================================== *)
(** * Sanitizers *)
(* ===================================================================== *)

Lemma collapse_scan (s : jsstring) :
  Js.replaceFrom (Js.someOf Js.isSpace) (js " ") 0 s = collapseSpaces false s
  /\ Js.replaceFrom (Js.someOf Js.isSpace) (js " ") (Js.runLength Js.isSpace s) s
     = collapseSpaces true s.
Proof.
  induction s as [|c r [IH0 IHrun]]; [split; reflexivity|].
  simpl. unfold Js.someOf. simpl Js.runLength.
  destruct (Js.isSpace c) eqn:Sp.
  - split; [|exact IHrun]. f_equal. exact IHrun.
  - split; f_equal; exact IH0.
Qed.

Lemma collapse_is_collapseSpaces (s : jsstring) :
  Js.replaceAll (Js.someOf Js.isSpace) (js " ") s = collapseSpaces false s.
Proof. apply collapse_scan. Qed.

Lemma strip_angle_is_filter (s : jsstring) :
  Js.replaceAll (Js.oneOf Validation.isAngle) [] s
  = filter (fun c => negb (Validation.isAngle c)) s.
Proof. apply replaceFrom_oneOf. Qed.

Lemma collapseSpaces_length (b : bool) (s : jsstring) :
  length (collapseSpaces b s) <= length s.
Proof.
  revert b. induction s as [|c r IH]; intros b; simpl; [lia|].
  destruct (Js.isSpace c), b; simpl;
    try (pose proof (IH true)); try (pose proof (IH false)); lia.
Qed.

Lemma collapseSpaces_single (b : bool) (s : jsstring) :
  singleSpaced b (collapseSpaces b s) = true.
Proof.
  revert b. induction s as [|c r IH]; intros b; simpl; [reflexivity|].
  destruct (Js.isSpace c) eqn:Sp.
  - destruct b; [apply IH|]. simpl. apply IH.
  - simpl. rewrite Sp. apply IH.
Qed.

Lemma collapseSpaces_noAngle (b : bool) (s : jsstring) :
  noAngle s = true -> noAngle (collapseSpaces b s) = true.
Proof.
  unfold noAngle. revert b. induction s as [|c r IH]; intros b H; simpl; [reflexivity|].
  simpl in H. apply andb_true_iff in H as [Hc Hr].
  assert (negb (Validation.isAngle 32) = true) as Sp by reflexivity.
  destruct (Js.isSpace c), b; simpl; rewrite ?Hc, ?Sp; simpl; auto.
Qed.

Lemma singleSpaced_weaken (s : jsstring) :
  singleSpaced true s = true -> singleSpaced false s = true.
Proof.
  destruct s as [|c r]; simpl; [reflexivity|].
  destruct (Js.isSpace c); [|trivial].
  rewrite andb_false_r. discriminate.
Qed.

Lemma singleSpaced_firstn (n : nat) (b : bool) (s : jsstring) :
  singleSpaced b s = true -> singleSpaced b (firstn n s) = true.
Proof.
  revert b s. induction n as [|n IH]; intros b s H; [reflexivity|].
  destruct s as [|c r]; [reflexivity|]. simpl in *.
  destruct (Js.isSpace c).
  - apply andb_true_iff in H as [H1 H2]. rewrite H1. now apply IH.
  - now apply IH.
Qed.

Lemma noAngle_firstn (n : nat) (s : jsstring) :
  noAngle s = true -> noAngle (firstn n s) = true.
Proof.
  unfold noAngle. revert s. induction n as [|n IH]; intros s H; [reflexivity|].
  destruct s as [|c r]; [reflexivity|]. simpl in *.
  apply andb_true_iff in H as [H1 H2]. rewrite H1. now apply IH.
Qed.

Lemma noAngle_filter (s : jsstring) :
  noAngle (filter (fun c => negb (Validation.isAngle c)) s) = true.
Proof.
  apply forallb_forall. intros c H. apply filter_In in H. tauto.
Qed.

Lemma trim_length (s : jsstring) : length (Js.trim s) <= length s.
Proof.
  assert (forall p t, length (Js.dropWhile p t) <= length t) as D.
  { intros p t. induction t as [|c r IH]; simpl; [lia|]. destruct (p c); simpl; lia. }
  unfold Js.trim, Js.trimEnd, Js.trimStart. rewrite length_rev.
  etransitivity; [apply D|]. rewrite length_rev. apply D.
Qed.

(** The text of a chat message is clean. *)
Lemma display_text_clean (text : jsstring) :
  cleanText 1000 (Validation.sanitizeDisplayText text).
Proof.
  unfold Validation.sanitizeDisplayText, cleanText, Js.sliceTo.
  destruct text as [|c0 r0]; [repeat split; simpl; lia|].
  set (text := c0 :: r0).
  rewrite collapse_is_collapseSpaces, strip_angle_is_filter.
  repeat split.
  - rewrite length_firstn. lia.
  - apply noAngle_firstn, collapseSpaces_noAngle, noAngle_filter.
  - apply singleSpaced_firstn, collapseSpaces_single.
Qed.

(** X1. The text that [sanitizeDisplayText] returns has at most 1000 code
    units and is never longer than the input, holds no angle bracket, and
    its white space is reduced to single spaces. *)
Theorem sanitizeDisplayText_clean (text : jsstring) :
  cleanText 1000 (Validation.sanitizeDisplayText text)
  /\ length (Validation.sanitizeDisplayText text) <= length text.
Proof.
  split; [apply display_text_clean|].
  unfold Validation.sanitizeDisplayText, Js.sliceTo.
  destruct text as [|c0 r0]; [simpl; lia|].
  set (text := c0 :: r0).
  rewrite collapse_is_collapseSpaces, strip_angle_is_filter, length_firstn.
  pose proof (collapseSpaces_length false
                (filter (fun c => negb (Validation.isAngle c)) (Js.trim text))).
  pose proof (List.filter_length_le (fun c => negb (Validation.isAngle c)) (Js.trim text)).
  pose proof (trim_length text). lia.
Qed.

(** X2. The message that [sanitizeInput] hands to the adapter has at most
    500 code units, holds no angle bracket, and its white space is reduced to
    single spaces. *)
Theorem sanitizeInput_clean (text : jsstring) :
  cleanText 500 (GeminiService.sanitizeInput text).
Proof.
  unfold GeminiService.sanitizeInput, cleanText, Js.sliceTo.
  destruct text as [|c0 r0]; [repeat split; simpl; lia|].
  set (text := c0 :: r0).
  rewrite collapse_is_collapseSpaces, strip_angle_is_filter.
  repeat split.
  - pose proof (collapseSpaces_length false
                  (filter (fun c => negb (Validation.isAngle c))
                          (firstn 500 (Js.trim text)))).
    pose proof (List.filter_length_le (fun c => negb (Validation.isAngle c))
                              (firstn 500 (Js.trim text))).
    pose proof (length_firstn 500 (Js.trim text)). lia.
  - apply collapseSpaces_noAngle, noAngle_filter.
  - apply collapseSpaces_single.
Qed.

(* ===================================================================== *)
(** * Field validators *)
(* ===================================================================== *)

Lemma onlyDigitsOrSpaces_spec (s : jsstring) :
  s <> [] -> (Validation.onlyDigitsOrSpaces s = true <-> onlyDigitsSpaces s).
Proof.
  intros NE. unfold Validation.onlyDigitsOrSpaces, onlyDigitsSpaces.
  destruct s as [|c r]; [contradiction|]. simpl length. simpl negb.
  rewrite andb_true_l, forallb_forall, Forall_forall.
  split; intros H x Hx; specialize (H x Hx).
  - now apply orb_true_iff.
  - now apply orb_true_iff.
Qed.

Lemma noNameChar_spec (s : jsstring) :
  s <> [] -> (Validation.noNameChar s = false <-> hasNameChar s).
Proof.
  intros NE. unfold Validation.noNameChar, hasNameChar.
  destruct s as [|c r]; [contradiction|]. simpl length. simpl negb.
  rewrite andb_true_l. clear NE. split.
  - intros H. induction (c :: r) as [|d t IH]; [discriminate|].
    simpl in H. apply andb_false_iff in H as [H | H].
    + exists d. split; [now left | now apply negb_false_iff].
    + destruct (IH H) as (e & He & Pe). exists e. split; [now right | exact Pe].
  - intros (e & He & Pe). apply not_true_is_false. intros F.
    rewrite forallb_forall in F. specialize (F e He). now rewrite Pe in F.
Qed.

(** X3. [validateName] accepts a name exactly when, trimmed, it has 2 to
    100 code units, is not made of digits and white space only, and holds a
    Latin letter or a white-space character; the accepted name is returned
    trimmed, and the name returned never exceeds 100 code units. *)
Theorem validateName_valid_iff (name : jsstring) :
  (NameValidationResult.valid (Validation.validateName name) = true
   <-> 2 <= length (Js.trim name) <= 100
       /\ ~ onlyDigitsSpaces (Js.trim name)
       /\ hasNameChar (Js.trim name))
  /\ (NameValidationResult.valid (Validation.validateName name) = true ->
      NameValidationResult.cleanName (Validation.validateName name) = Js.trim name
      /\ NameValidationResult.error (Validation.validateName name) = None)
  /\ length (NameValidationResult.cleanName (Validation.validateName name)) <= 100.
Proof.
  unfold Validation.validateName.
  destruct name as [|c0 r0].
  { change (Js.trim []) with (@nil N). cbn [NameValidationResult.valid NameValidationResult.cleanName NameValidationResult.error length].
    split; [split; [discriminate | intros [H _]; lia] | split; [discriminate | lia]]. }
  set (name := c0 :: r0). set (clean := Js.trim name).
  destruct (length clean <? 2)%nat eqn:Short.
  { apply Nat.ltb_lt in Short. cbn [NameValidationResult.valid NameValidationResult.cleanName NameValidationResult.error length].
    split; [split; [discriminate | intros [H _]; lia] | split; [discriminate | lia]]. }
  apply Nat.ltb_ge in Short.
  destruct (100 <? length clean)%nat eqn:Long.
  { apply Nat.ltb_lt in Long. cbn [NameValidationResult.valid NameValidationResult.cleanName NameValidationResult.error length]. unfold Js.sliceTo. rewrite length_firstn.
    split; [split; [discriminate | intros [H _]; lia] | split; [discriminate | lia]]. }
  apply Nat.ltb_ge in Long.
  assert (clean <> []) as NE by (intros E; rewrite E in Short; simpl in Short; lia).
  pose proof (onlyDigitsOrSpaces_spec clean NE) as D.
  pose proof (noNameChar_spec clean NE) as L.
  destruct (Validation.onlyDigitsOrSpaces clean) eqn:ED.
  { cbn [NameValidationResult.valid NameValidationResult.cleanName NameValidationResult.error length]. split; [split; [discriminate|] | split; [discriminate | exact Long]].
    intros (_ & H & _). exfalso. apply H. now apply D. }
  destruct (Validation.noNameChar clean) eqn:EL.
  { cbn [NameValidationResult.valid NameValidationResult.cleanName NameValidationResult.error length]. split; [split; [discriminate|] | split; [discriminate | exact Long]].
    intros (_ & _ & H). apply L in H. discriminate. }
  cbn [NameValidationResult.valid NameValidationResult.cleanName NameValidationResult.error length]. split; [split | split; [split; reflexivity | exact Long]].
  - intros _. split; [lia|]. split; [|now apply L].
    intros H. apply D in H. discriminate.
  - reflexivity.
Qed.

Lemma hasMessage_app (a b : jsstring) : hasMessage (Some a) -> hasMessage (Some (a ++ b)).
Proof.
  intros (c & m & E). injection E as ->. exists c, (m ++ b). reflexivity.
Qed.

Ltac has_message :=
  try apply hasMessage_app; unfold hasMessage; vm_compute; eexists; eexists; reflexivity.

Ltac proj :=
  cbn [CEPValidationResult.valid CEPValidationResult.error
       NameValidationResult.valid NameValidationResult.error
       ValidationResult.valid ValidationResult.error
       AddressValidationResult.valid AddressValidationResult.error
       AddressValidationResult.missing].

(** X4. A validator never rejects without saying why: an invalid postal
    code, name, house number or payment method carries a non-empty message
    and a valid one carries none; an address carries a message exactly when
    it is rejected as too short, not when only the number is missing. *)
Theorem validators_report_errors :
  (forall cep,
     if CEPValidationResult.valid (Validation.validateCEP cep)
     then CEPValidationResult.error (Validation.validateCEP cep) = None
     else hasMessage (CEPValidationResult.error (Validation.validateCEP cep)))
  /\ (forall name,
     if NameValidationResult.valid (Validation.validateName name)
     then NameValidationResult.error (Validation.validateName name) = None
     else hasMessage (NameValidationResult.error (Validation.validateName name)))
  /\ (forall input,
     if ValidationResult.valid (Validation.validateAddressNumber input)
     then ValidationResult.error (Validation.validateAddressNumber input) = None
     else hasMessage (ValidationResult.error (Validation.validateAddressNumber input)))
  /\ (forall method,
     if ValidationResult.valid (Validation.validatePaymentMethod method)
     then ValidationResult.error (Validation.validatePaymentMethod method) = None
     else hasMessage (ValidationResult.error (Validation.validatePaymentMethod method)))
  /\ (forall address,
     match AddressValidationResult.missing (Validation.validateAddress address) with
     | None =>
       AddressValidationResult.valid (Validation.validateAddress address) = true
       /\ AddressValidationResult.error (Validation.validateAddress address) = None
     | Some MissingNumber =>
       AddressValidationResult.valid (Validation.validateAddress address) = false
       /\ AddressValidationResult.error (Validation.validateAddress address) = None
     | Some MissingAll =>
       AddressValidationResult.valid (Validation.validateAddress address) = false
       /\ hasMessage (AddressValidationResult.error (Validation.validateAddress address))
     end).
Proof.
  split; [|split; [|split; [|split]]].
  - intros cep. unfold Validation.validateCEP.
    destruct cep; [proj; has_message|].
    destruct (Nat.eqb _ 0); [proj; has_message|].
    destruct (negb (Nat.eqb _ 8)); [proj; has_message|].
    destruct (existsb _ _); [proj; has_message|].
    destruct (Validation.gt9 _); [proj; has_message | reflexivity].
  - intros name. unfold Validation.validateName.
    destruct name; [proj; has_message|].
    destruct (_ <? 2)%nat; [proj; has_message|].
    destruct (100 <? _)%nat; [proj; has_message|].
    destruct (Validation.onlyDigitsOrSpaces _); [proj; has_message|].
    destruct (Validation.noNameChar _); [proj; has_message | reflexivity].
  - intros input. unfold Validation.validateAddressNumber.
    destruct input; [proj; has_message|].
    destruct (Nat.eqb _ 0); [proj; has_message|].
    destruct (50 <? _)%nat; [proj; has_message | reflexivity].
  - intros method. unfold Validation.validatePaymentMethod.
    destruct method; [proj; has_message|].
    destruct (_ <? 2)%nat; [proj; has_message|].
    destruct (50 <? _)%nat; [proj; has_message | reflexivity].
  - intros address. unfold Validation.validateAddress.
    destruct address; [proj; split; [reflexivity | has_message]|].
    destruct (_ <? 5)%nat; [proj; split; [reflexivity | has_message]|].
    destruct (negb _); proj; split; reflexivity.
Qed.

(* ===================================================================== *)
(** * The adapter on any network *)
(* ===================================================================== *)

Section AdapterAnyNetwork.
Context {rt : JsRuntime}.

Lemma run_returned_attempt (fuel attempt : nat) (message : jsstring)
      (history : list HistoryTurn.t) (w : Browser) (text : jsstring) :
  (attempt <=? GeminiService.maxRetries) = true ->
  outcomeOf (textApi w (requests w)) = inr text ->
  runState (GeminiService.retryLoop (S fuel) attempt message history) w
  = (Some text, afterFetch GeminiService.textApiUrl
                           (GeminiService.fullPrompt message history) w).
Proof.
  intros L O. cbn [GeminiService.retryLoop]. rewrite L.
  rewrite run_bind, run_attemptOnce, O. reflexivity.
Qed.

Lemma outcome_returned (a : Attempt jsstring) (t : jsstring) :
  outcomeOf a = inr t ->
  exists status text,
    a = Responds status (inr text) /\ ok status = true
    /\ GeminiService.isValidResponse text = true /\ t = Js.trim text.
Proof.
  destruct a as [r | status [r | text]]; simpl; try discriminate.
  - destruct (negb (ok status)); discriminate.
  - destruct (ok status) eqn:Ok; simpl; [|discriminate].
    destruct (GeminiService.isValidResponse text) eqn:V; simpl; [|discriminate].
    intros E. injection E as <-. exists status, text. repeat split; assumption.
Qed.

Lemma returned_outcome (a : Attempt jsstring) (status : N) (text : jsstring) :
  a = Responds status (inr text) -> ok status = true ->
  GeminiService.isValidResponse text = true ->
  outcomeOf a = inr (Js.trim text).
Proof. intros -> Ok V. simpl. now rewrite Ok, V. Qed.

(** Closes a branch of the loop: the events appended and the result. *)
Ltac loop_ends es res :=
  exists es; eexists; exists res; split; [reflexivity|];
  cbn [events requests afterEvent afterFetch]; rewrite <- ?app_assoc;
  repeat split; cbn; try reflexivity; try lia;
  rewrite ?Nat.add_0_r; try assumption.

(** The loop on any network: between one and three identical requests,
    the back-off delays in order, and a text only from an attempt that
    returned one. *)
Lemma retryLoop_runs (sanitized : jsstring) (history : list HistoryTurn.t) (w : Browser) :
  exists es w' res,
    runState (GeminiService.retryLoop (S GeminiService.maxRetries) 0 sanitized history) w
    = (res, w')
    /\ events w' = events w ++ es
    /\ requests w' = requests w + fetchesIn es
    /\ 1 <= fetchesIn es <= 3
    /\ delaysIn es = firstn (fetchesIn es - 1) [1000; 2000]%N
    /\ filter isFetch es = repeat (promptRequest sanitized history) (fetchesIn es)
    /\ match res with
       | Some t =>
         outcomeOf (textApi w (requests w + (fetchesIn es - 1))) = inr t
         /\ filter isWarn es = []
       | None => True
       end.
Proof.
  pose (req := promptRequest sanitized history).
  pose (gaveUp := Warn (js "Request timeout, using fallback")).
  pose (refused := Warn (js "Client error, not retrying:")).
  change GeminiService.maxRetries with 2.
  destruct (outcomeOf (textApi w (requests w))) as [e0 | t0] eqn:O0.
  2:{ rewrite (run_returned_attempt _ 0 sanitized history w t0 eq_refl O0).
      loop_ends [req] (Some t0). }
  rewrite (run_failed_attempt _ 0 sanitized history w e0 eq_refl O0). cbv zeta.
  destruct (GeminiService.isAbort e0); [loop_ends [req; gaveUp] (@None jsstring)|].
  destruct (GeminiService.isClientError e0); [loop_ends [req; refused] (@None jsstring)|].
  change (0 <? GeminiService.maxRetries) with true. change (S 0) with 1. cbv iota.
  destruct (outcomeOf (textApi w (S (requests w)))) as [e1 | t1] eqn:O1.
  2:{ match goal with
      | |- context [runState (GeminiService.retryLoop _ _ _ _) ?w'] =>
        rewrite (run_returned_attempt _ 1 sanitized history w' t1 eq_refl O1)
      end.
      loop_ends [req; Delay 1000; req] (Some t1).
      now replace (requests w + 1) with (S (requests w)) by lia. }
  match goal with
  | |- context [runState (GeminiService.retryLoop _ _ _ _) ?w'] =>
    rewrite (run_failed_attempt _ 1 sanitized history w' e1 eq_refl O1)
  end. cbv zeta.
  destruct (GeminiService.isAbort e1);
    [loop_ends [req; Delay 1000; req; gaveUp] (@None jsstring)|].
  destruct (GeminiService.isClientError e1);
    [loop_ends [req; Delay 1000; req; refused] (@None jsstring)|].
  change (1 <? GeminiService.maxRetries) with true. cbv iota.
  destruct (outcomeOf (textApi w (S (S (requests w))))) as [e2 | t2] eqn:O2.
  2:{ match goal with
      | |- context [runState (GeminiService.retryLoop _ _ _ _) ?w'] =>
        rewrite (run_returned_attempt _ 2 sanitized history w' t2 eq_refl O2)
      end.
      loop_ends [req; Delay 1000; req; Delay 2000; req] (Some t2).
      now replace (requests w + 2) with (S (S (requests w))) by lia. }
  match goal with
  | |- context [runState (GeminiService.retryLoop _ _ _ _) ?w'] =>
    rewrite (run_failed_attempt _ 2 sanitized history w' e2 eq_refl O2)
  end. cbv zeta.
  destruct (GeminiService.isAbort e2);
    [loop_ends [req; Delay 1000; req; Delay 2000; req; gaveUp] (@None jsstring)|].
  destruct (GeminiService.isClientError e2);
    [loop_ends [req; Delay 1000; req; Delay 2000; req; refused] (@None jsstring)|].
  change (2 <? GeminiService.maxRetries) with false. cbv iota.
  loop_ends [req; Delay 1000; req; Delay 2000; req] (@None jsstring).
Qed.


Lemma fetchesIn_app (a b : list Event) : fetchesIn (a ++ b) = fetchesIn a + fetchesIn b.
Proof. unfold fetchesIn. now rewrite filter_app, length_app. Qed.

Lemma delaysIn_app (a b : list Event) : delaysIn (a ++ b) = delaysIn a ++ delaysIn b.
Proof. unfold delaysIn. apply flat_map_app. Qed.

(** X5. Whatever the network does, [sendMessage] on a non-empty sanitized
    message issues between one and three requests, all of them the same POST
    of the prompt, waits 1000 ms and then 2000 ms between them, and answers
    either with the trimmed body of the last request, which was usable, or,
    after the fallback warning, with the reply of the local responder. *)
Theorem sendMessage_network_bounds (message : jsstring) (history : list HistoryTurn.t)
        (w : Browser) :
  GeminiService.sanitizeInput message <> [] ->
  exists es,
    events (execState (GeminiService.sendMessage message history) w) = events w ++ es
    /\ requests (execState (GeminiService.sendMessage message history) w)
       = requests w + fetchesIn es
    /\ 1 <= fetchesIn es <= 3
    /\ delaysIn es = firstn (fetchesIn es - 1) [1000; 2000]%N
    /\ filter isFetch es
       = repeat (promptRequest (GeminiService.sanitizeInput message) history)
                (fetchesIn es)
    /\ ((exists text,
           answersWith w (fetchesIn es - 1) text
           /\ evalState (GeminiService.sendMessage message history) w = Js.trim text
           /\ filter isWarn es = [])
        \/ (evalState (GeminiService.sendMessage message history) w
            = GeminiService.getLocalResponse (GeminiService.sanitizeInput message)
            /\ exists before, es = before ++ [fallbackWarning])).
Proof.
  intros NE. unfold execState, evalState. rewrite (run_sendMessage _ _ _ NE). cbv zeta.
  destruct (retryLoop_runs (GeminiService.sanitizeInput message) history w)
    as (es & w' & res & R & E & Q & B & D & F & S).
  rewrite R. cbn [fst snd]. destruct res as [t|].
  - exists es. cbn [fst snd]. repeat split; try assumption; try lia.
    left. destruct S as [O W].
    destruct (outcome_returned _ _ O) as (status & text & A & Ok & V & ->).
    exists text. repeat split; [|exact W]. exists status. repeat split; assumption.
  - exists (es ++ [fallbackWarning]). cbn [fst snd events requests afterEvent].
    rewrite fetchesIn_app, delaysIn_app, filter_app, E, app_assoc.
    change (fetchesIn [fallbackWarning]) with 0.
    change (delaysIn [fallbackWarning]) with (@nil N).
    change (filter isFetch [fallbackWarning]) with (@nil Event).
    rewrite !app_nil_r, !Nat.add_0_r.
    repeat split; try assumption; try lia.
    right. split; [reflexivity|]. now exists es.
Qed.

Lemma transient_outcome (a : Attempt jsstring) :
  failureOf a = Some Transient ->
  exists e, outcomeOf a = inl e
            /\ GeminiService.isAbort e = false /\ GeminiService.isClientError e = false.
Proof.
  intros T. pose proof (outcome_failure a) as O.
  destruct (outcomeOf a) as [e | t].
  - exists e. split; [reflexivity|]. destruct O as [_ F]. rewrite T in F. simpl in F.
    symmetry in F. now apply orb_false_iff in F.
  - rewrite T in O. discriminate.
Qed.

(** X6. When the attempts before the [i]-th (of at most three) fail with
    neither a timeout nor a 4xx and the [i]-th returns a usable body,
    [sendMessage] answers that body trimmed, after [i + 1] requests and the
    delays between them, without falling back. *)
Theorem sendMessage_first_answer (message : jsstring) (history : list HistoryTurn.t)
        (w : Browser) (i : nat) (text : jsstring) :
  GeminiService.sanitizeInput message <> [] ->
  i <= 2 ->
  (forall j, j < i -> nthFailure w j = Some Transient) ->
  answersWith w i text ->
  exists es,
    runState (GeminiService.sendMessage message history) w
    = (Js.trim text,
       mkBrowser (now w) (textApi w) (viaCep w) (requests w + S i) (events w ++ es))
    /\ fetchesIn es = S i
    /\ delaysIn es = firstn i [1000; 2000]%N
    /\ filter isWarn es = [].
Proof.
  intros NE Hi T (status & A & Ok & V).
  rewrite (run_sendMessage _ _ _ NE). cbv zeta.
  set (sanitized := GeminiService.sanitizeInput message).
  pose (req := promptRequest sanitized history).
  pose proof (returned_outcome _ _ _ A Ok V) as Oi.
  change GeminiService.maxRetries with 2.
  destruct i as [|[|[|i]]]; [| | |lia].
  - rewrite Nat.add_0_r in Oi.
    rewrite (run_returned_attempt _ 0 sanitized history w _ eq_refl Oi).
    exists [req]. cbn [fst snd]. repeat split.
    unfold afterFetch. now replace (requests w + 1) with (S (requests w)) by lia.
  - destruct (transient_outcome _ (T 0 ltac:(lia))) as (e0 & O0 & A0 & C0).
    rewrite Nat.add_0_r in O0.
    replace (requests w + 1) with (S (requests w)) in Oi by lia.
    rewrite (run_failed_attempt _ 0 sanitized history w e0 eq_refl O0). cbv zeta.
    rewrite A0, C0. change (0 <? GeminiService.maxRetries) with true. cbv iota.
    match goal with
    | |- context [runState (GeminiService.retryLoop _ _ _ _) ?w'] =>
      rewrite (run_returned_attempt _ 1 sanitized history w' _ eq_refl Oi)
    end.
    exists [req; Delay 1000; req]. cbn [fst snd]. repeat split.
    unfold afterFetch, afterEvent. cbn [now textApi viaCep requests events].
    rewrite <- !app_assoc. now replace (requests w + 2) with (S (S (requests w))) by lia.
  - destruct (transient_outcome _ (T 0 ltac:(lia))) as (e0 & O0 & A0 & C0).
    destruct (transient_outcome _ (T 1 ltac:(lia))) as (e1 & O1 & A1 & C1).
    rewrite Nat.add_0_r in O0.
    replace (requests w + 1) with (S (requests w)) in O1 by lia.
    replace (requests w + 2) with (S (S (requests w))) in Oi by lia.
    rewrite (run_failed_attempt _ 0 sanitized history w e0 eq_refl O0). cbv zeta.
    rewrite A0, C0. change (0 <? GeminiService.maxRetries) with true. cbv iota.
    match goal with
    | |- context [runState (GeminiService.retryLoop _ _ _ _) ?w'] =>
      rewrite (run_failed_attempt _ 1 sanitized history w' e1 eq_refl O1)
    end. cbv zeta.
    rewrite A1, C1. change (1 <? GeminiService.maxRetries) with true. cbv iota.
    match goal with
    | |- context [runState (GeminiService.retryLoop _ _ _ _) ?w'] =>
      rewrite (run_returned_attempt _ 2 sanitized history w' _ eq_refl Oi)
    end.
    exists [req; Delay 1000; req; Delay 2000; req]. cbn [fst snd]. repeat split.
    unfold afterFetch, afterEvent. cbn [now textApi viaCep requests events].
    rewrite <- !app_assoc. now replace (requests w + 3) with (S (S (S (requests w)))) by lia.
Qed.

(** X7. The prompt is built from the last six turns of the history only:
    older turns never reach the endpoint, and with no more than six turns the
    whole history is sent. *)
Theorem fullPrompt_recent_history (sanitized : jsstring) (history older : list HistoryTurn.t) :
  length history = 6 ->
  GeminiService.fullPrompt sanitized (older ++ history)
  = GeminiService.fullPrompt sanitized history.
Proof.
  intros L. unfold GeminiService.fullPrompt, Js.lastN.
  rewrite length_app, L. replace (length older + 6 - 6) with (length older + 0) by lia.
  rewrite skipn_app, Nat.add_0_r, skipn_all. 
  replace (length older - length older) with 0 by lia.
  replace (6 - 6) with 0 by lia. reflexivity.
Qed.

End AdapterAnyNetwork.

Lemma sendMessage_first_answer_witness :
  GeminiService.sanitizeInput (js "tem batata?") <> []
  /\ answersWith (rt := Latin1) recoversAfterOne 1 (js " Temos sim! Veja o menu abaixo. ")
  /\ evalState (GeminiService.sendMessage (rt := Latin1) (js "tem batata?") [])
               recoversAfterOne
     = js "Temos sim! Veja o menu abaixo.".
Proof.
  assert (GeminiService.sanitizeInput (js "tem batata?") <> []) as NE
    by (vm_compute; discriminate).
  assert (answersWith (rt := Latin1) recoversAfterOne 1
                      (js " Temos sim! Veja o menu abaixo. ")) as A
    by (exists 200%N; repeat split).
  split; [exact NE|]. split; [exact A|].
  destruct (sendMessage_first_answer (rt := Latin1) (js "tem batata?") [] recoversAfterOne
              1 (js " Temos sim! Veja o menu abaixo. ") NE ltac:(lia)) as (es & R & _).
  - intros j Hj. assert (j = 0) as -> by lia. reflexivity.
  - exact A.
  - unfold evalState. rewrite R. reflexivity.
Defined.

Lemma sendMessage_network_bounds_witness :
  GeminiService.sanitizeInput (js "oi") <> []
  /\ exists es,
       events (execState (GeminiService.sendMessage (rt := Latin1) (js "oi") [])
                         flakyThenGone) = events flakyThenGone ++ es
       /\ 1 <= fetchesIn es <= 3.
Proof.
  assert (GeminiService.sanitizeInput (js "oi") <> []) as NE by (vm_compute; discriminate).
  split; [exact NE|].
  destruct (sendMessage_network_bounds (rt := Latin1) (js "oi") [] flakyThenGone NE)
    as (es & E & _ & B & _).
  exists es. split; [exact E | exact B].
Defined.

Lemma fullPrompt_recent_history_witness :
  length (repeat (HistoryTurn.mk (js "user") (js "oi")) 6) = 6
  /\ GeminiService.fullPrompt (js "oi")
       ([HistoryTurn.mk (js "bot") (js "antiga")]
        ++ repeat (HistoryTurn.mk (js "user") (js "oi")) 6)
     = GeminiService.fullPrompt (js "oi") (repeat (HistoryTurn.mk (js "user") (js "oi")) 6).
Proof.
  split; [reflexivity|].
  exact (fullPrompt_recent_history (js "oi")
           (repeat (HistoryTurn.mk (js "user") (js "oi")) 6)
           [HistoryTurn.mk (js "bot") (js "antiga")] eq_refl).
Defined.

(* ===================================================================== *)
(** * Address resolution *)
(* ===================================================================== *)

(** Decides the comparisons of literals left in the goal. *)
Ltac decide_literals :=
  repeat match goal with
         | |- context [Js.eqb (Js.lit ?a) (Js.lit ?b)] =>
           let v := eval vm_compute in (Js.eqb (Js.lit a) (Js.lit b)) in
           change (Js.eqb (Js.lit a) (Js.lit b)) with v
         end.

(** Runs the lookup through its branches. *)
Ltac lookup_branches cep s x :=
  unfold lookup, App.handleCEPAction;
  destruct (CEPValidationResult.valid (Validation.validateCEP cep)) eqn:Valid;
  cbn [negb];
  [ destruct (isOnline s) eqn:Online; cbn [negb];
    [ unfold App.lookupCEP, fetchCep; cbn;
      destruct (viaCep (browser x) (requests (browser x))) as [r | status body] eqn:Answer;
      [ destruct r; cbn
      | destruct (ok status) eqn:Ok; cbn [negb];
        [ destruct body as [r | data];
          [ destruct r; cbn
          | destruct (ViaCep.erro data) eqn:Erro;
            [ cbn
            | destruct (falsy (ViaCep.logradouro data) && falsy (ViaCep.bairro data)
                        && falsy (ViaCep.localidade data)) eqn:Bare; cbn ] ]
        | cbn ] ]
    | cbn ]
  | cbn ].

(** X8. The lookup issues no request for an implausible postal code or
    while offline, and exactly one otherwise: a GET of the directory entry of
    the normalized code, followed at most by console warnings. *)
Theorem handleCEPAction_requests (cep : jsstring) (s : AppState) (x : Sys) :
  exists warnings,
    forallb isWarn warnings = true
    /\ events (browser (snd (lookup cep s x)))
       = events (browser x)
         ++ (if CEPValidationResult.valid (Validation.validateCEP cep) && isOnline s
             then cepRequest (CEPValidationResult.cleanCEP (Validation.validateCEP cep))
                  :: warnings
             else [])
    /\ requests (browser (snd (lookup cep s x)))
       = requests (browser x)
         + (if CEPValidationResult.valid (Validation.validateCEP cep) && isOnline s
            then 1 else 0).
Proof.
  lookup_branches cep s x; decide_literals; cbn; rewrite ?app_nil_r, ?Nat.add_0_r;
    try (exists []; repeat split; lia);
    eexists; (split; [|split; [rewrite <- ?app_assoc; reflexivity | lia]]); reflexivity.
Qed.

Lemma lookup_frame (cep : jsstring) (s : AppState) (x : Sys) :
  flowStep (app (snd (lookup cep s x))) = flowStep (app x)
  /\ userData (app (snd (lookup cep s x))) = userData (app x)
  /\ messages (app (snd (lookup cep s x))) = messages (app x)
  /\ cart (app (snd (lookup cep s x))) = cart (app x).
Proof. lookup_branches cep s x; decide_literals; cbn; repeat split. Qed.

Lemma lookup_none_notifies (cep : jsstring) (s : AppState) (x : Sys) :
  fst (lookup cep s x) = None ->
  exists n,
    notifications (app (snd (lookup cep s x)))
    = App.pushNotification n (notifications (app x))
    /\ (Notification.type n = Severity.error \/ Notification.type n = Severity.warning).
Proof.
  lookup_branches cep s x; decide_literals; cbn; intros E; try discriminate E;
    eexists; (split; [reflexivity | cbn; auto]).
Qed.

Lemma lookup_some_answers (cep : jsstring) (s : AppState) (x : Sys) (found : ViaCep.t) :
  fst (lookup cep s x) = Some found ->
  CEPValidationResult.valid (Validation.validateCEP cep) = true
  /\ isOnline s = true
  /\ lookupAnswers x found.
Proof.
  unfold lookupAnswers.
  lookup_branches cep s x; decide_literals; cbn; intros E; try discriminate E.
  injection E as <-. repeat split. exists status. repeat split; assumption.
Qed.

(** X9. The lookup returns an address exactly when the code is plausible,
    the client is online and the directory answers the request with a 2xx
    status and an entry that is not flagged as an error and gives a street, a
    neighbourhood or a town.  When it returns nothing it has asked for an
    error or warning notification; it never touches the flow step, the
    customer data, the chat or the cart. *)
Theorem handleCEPAction_result (cep : jsstring) (s : AppState) (x : Sys) :
  (forall data,
     fst (lookup cep s x) = Some data
     <-> CEPValidationResult.valid (Validation.validateCEP cep) = true
         /\ isOnline s = true
         /\ lookupAnswers x data)
  /\ (fst (lookup cep s x) = None ->
      exists n,
        notifications (app (snd (lookup cep s x)))
        = App.pushNotification n (notifications (app x))
        /\ (Notification.type n = Severity.error
            \/ Notification.type n = Severity.warning))
  /\ flowStep (app (snd (lookup cep s x))) = flowStep (app x)
  /\ userData (app (snd (lookup cep s x))) = userData (app x)
  /\ messages (app (snd (lookup cep s x))) = messages (app x)
  /\ cart (app (snd (lookup cep s x))) = cart (app x).
Proof.
  split; [|split; [apply lookup_none_notifies | apply lookup_frame]].
  intros data. split; [apply lookup_some_answers|].
  intros (V & O & L). unfold lookup.
  destruct (handleCEPAction_resolves cep s x data V O L) as (w' & R).
  now rewrite R.
Qed.

(* ===================================================================== *)
(** * The cart under add and remove *)
(* ===================================================================== *)

Section CartAlgebra.
Local Open Scope Z_scope.

Lemma bump_absent (x : Z) (f : CartItem.t -> CartItem.t) (c : list CartItem.t) :
  ~ In x (map CartItem.id c) ->
  map (fun i => if CartItem.id i =? x then f i else i) c = c.
Proof.
  induction c as [|i r IH]; simpl; intros H; [reflexivity|].
  destruct (CartItem.id i =? x) eqn:E.
  - apply Z.eqb_eq in E. exfalso. apply H. now left.
  - f_equal. apply IH. intros Hin. apply H. now right.
Qed.

Lemma filter_positive (c : list CartItem.t) :
  Forall quantityInRange c -> filter (fun i => 0 <? CartItem.quantity i) c = c.
Proof.
  induction 1 as [|i r Hi _ IH]; simpl; [reflexivity|].
  unfold quantityInRange in Hi.
  replace (0 <? CartItem.quantity i) with true by (symmetry; apply Z.ltb_lt; lia).
  now f_equal.
Qed.

(** X10. Adding an item and then removing it gives the cart back, unless
    its line already held 99; removing an item and then adding it gives the
    cart back when its line held at least 2. *)
Theorem add_remove_round_trip (item : MenuItem.t) (c : list CartItem.t) :
  cartOk c ->
  ((forall line, lineOf (MenuItem.id item) c = Some line -> CartItem.quantity line < 99) ->
   App.removeItem (MenuItem.id item) (App.addItem item c) = c)
  /\ (forall line, lineOf (MenuItem.id item) c = Some line -> 2 <= CartItem.quantity line ->
      App.addItem item (App.removeItem (MenuItem.id item) c) = c).
Proof.
  intros [ND R]. split.
  - intros Below. unfold App.addItem. fold (lineOf (MenuItem.id item) c).
    destruct (lineOf (MenuItem.id item) c) as [line|] eqn:F.
    + specialize (Below line eq_refl).
      replace (99 <=? CartItem.quantity line) with false by (symmetry; apply Z.leb_gt; lia).
      unfold App.removeItem. rewrite map_map.
      rewrite (map_ext _ (fun i => i)), map_id; [now apply filter_positive|].
      intros i. destruct (CartItem.id i =? MenuItem.id item) eqn:E; simpl; rewrite E.
      * unfold CartItem.withQuantity. destruct i. simpl. f_equal. lia.
      * reflexivity.
    + apply find_none_not_in in F. unfold App.removeItem. rewrite map_app, filter_app.
      rewrite bump_absent by exact F. rewrite filter_positive by exact R.
      simpl. rewrite Z.eqb_refl. simpl. apply app_nil_r.
  - intros line F Q. unfold lineOf in F. apply find_some in F as [Hin Hid].
    apply Z.eqb_eq in Hid.
    assert (forall i, In i c -> CartItem.id i = MenuItem.id item -> i = line) as U.
    { intros i Hi E. apply (same_id_same_line c); congruence. }
    assert (App.removeItem (MenuItem.id item) c
            = map (fun i => if CartItem.id i =? MenuItem.id item
                            then CartItem.withQuantity i (CartItem.quantity i - 1)
                            else i) c) as Rm.
    { unfold App.removeItem. apply filter_positive.
      apply Forall_forall. intros j Hj. apply in_map_iff in Hj as (i & <- & Hi).
      pose proof (proj1 (Forall_forall _ _) R i Hi) as Ri. unfold quantityInRange in *.
      destruct (CartItem.id i =? MenuItem.id item) eqn:E; [|exact Ri].
      apply Z.eqb_eq in E. pose proof (U i Hi E) as ->. simpl. lia. }
    rewrite Rm. unfold App.addItem.
    destruct (find _ (map _ c)) as [existing|] eqn:F.
    + apply find_some in F as [He Hide]. apply Z.eqb_eq in Hide.
      apply in_map_iff in He as (i & <- & Hi).
      pose proof (proj1 (Forall_forall _ _) R line Hin) as Rl. unfold quantityInRange in Rl.
      destruct (CartItem.id i =? MenuItem.id item) eqn:E.
      * apply Z.eqb_eq in E. rewrite (U i Hi E). simpl.
        replace (99 <=? CartItem.quantity line - 1) with false
          by (symmetry; apply Z.leb_gt; lia).
        rewrite map_map. rewrite (map_ext _ (fun i => i)), map_id; [reflexivity|].
        intros k. destruct (CartItem.id k =? MenuItem.id item) eqn:K; simpl; rewrite K.
        -- unfold CartItem.withQuantity. destruct k. simpl. f_equal. lia.
        -- reflexivity.
      * apply Z.eqb_neq in E. contradiction.
    + exfalso.
      assert (In (CartItem.withQuantity line (CartItem.quantity line - 1))
                 (map (fun i => if CartItem.id i =? MenuItem.id item
                                then CartItem.withQuantity i (CartItem.quantity i - 1)
                                else i) c)) as Hl.
      { apply in_map_iff. exists line. split; [|exact Hin].
        rewrite Hid, Z.eqb_refl. reflexivity. }
      apply (find_none _ _ F) in Hl. simpl in Hl. rewrite Hid, Z.eqb_refl in Hl.
      discriminate.
Qed.

Lemma sum_bump (x d : Z) (c : list CartItem.t) :
  NoDup (map CartItem.id c) ->
  sumZ (map lineTotal
          (map (fun i => if CartItem.id i =? x
                         then CartItem.withQuantity i (CartItem.quantity i + d)
                         else i) c))
  = sumZ (map lineTotal c)
    + match lineOf x c with
      | Some line => CartItem.price line * d
      | None => 0
      end.
Proof.
  unfold lineOf. induction c as [|i r IH]; simpl; intros ND; [reflexivity|].
  apply NoDup_cons_iff in ND as [Hnot ND]. rewrite (IH ND).
  destruct (CartItem.id i =? x) eqn:E.
  - apply Z.eqb_eq in E. subst x.
    destruct (find _ r) as [other|] eqn:F.
    + exfalso. apply find_some in F as [Ho Eo]. apply Z.eqb_eq in Eo.
      apply Hnot. rewrite <- Eo. now apply in_map.
    + unfold lineTotal. simpl. lia.
  - lia.
Qed.

Lemma sum_filter_positive (c : list CartItem.t) :
  Forall (fun i => 0 <= CartItem.quantity i) c ->
  sumZ (map lineTotal (filter (fun i => 0 <? CartItem.quantity i) c))
  = sumZ (map lineTotal c).
Proof.
  induction 1 as [|i r Hi _ IH]; simpl; [reflexivity|].
  destruct (0 <? CartItem.quantity i) eqn:P; simpl; rewrite IH; [reflexivity|].
  apply Z.ltb_ge in P. unfold lineTotal.
  replace (CartItem.quantity i) with 0 by lia. lia.
Qed.

(** X11. Adding an item raises the subtotal by the unit price of its line
    (by the price of the item when it opens a line, by nothing at the
    ceiling of 99); removing an item lowers it by the unit price of its
    line, and leaves it alone when the item has no line. *)
Theorem subtotal_after_add_remove (item : MenuItem.t) (id : Z) (c : list CartItem.t) :
  cartOk c ->
  App.subtotalValue (App.addItem item c)
  = App.subtotalValue c
    + match lineOf (MenuItem.id item) c with
      | Some line => if 99 <=? CartItem.quantity line then 0 else CartItem.price line
      | None => MenuItem.price item
      end
  /\ App.subtotalValue (App.removeItem id c)
     = App.subtotalValue c
       - match lineOf id c with
         | Some line => CartItem.price line
         | None => 0
         end.
Proof.
  intros [ND R]. rewrite !subtotalValue_sum. split.
  - unfold App.addItem. fold (lineOf (MenuItem.id item) c).
    destruct (lineOf (MenuItem.id item) c) as [line|] eqn:F.
    + destruct (99 <=? CartItem.quantity line); [lia|].
      rewrite (sum_bump (MenuItem.id item) 1 c ND), F. lia.
    + rewrite map_app. unfold sumZ. rewrite fold_right_app. simpl.
      fold (sumZ (map lineTotal c)).
      assert (forall a l, fold_right Z.add a l = sumZ l + a) as Shift.
      { intros a l. induction l as [|z l IH]; simpl; [lia|]. rewrite IH. lia. }
      rewrite Shift. unfold lineTotal. simpl. lia.
  - unfold App.removeItem. rewrite sum_filter_positive.
    + change (fun i => if CartItem.id i =? id
                       then CartItem.withQuantity i (CartItem.quantity i - 1) else i)
        with (fun i => if CartItem.id i =? id
                       then CartItem.withQuantity i (CartItem.quantity i + -1) else i).
      rewrite (sum_bump id (-1) c ND). destruct (lineOf id c); lia.
    + apply Forall_forall. intros j Hj. apply in_map_iff in Hj as (i & <- & Hi).
      pose proof (proj1 (Forall_forall _ _) R i Hi) as Ri. unfold quantityInRange in Ri.
      destruct (CartItem.id i =? id); simpl; lia.
Qed.

End CartAlgebra.

Lemma add_remove_round_trip_witness :
  cartOk sampleCart
  /\ App.removeItem 8 (App.addItem (MenuItem.mk 8 (js "Refrigerante Lata") 6 (js "Bebidas"))
                                   sampleCart) = sampleCart.
Proof.
  assert (cartOk sampleCart) as Ok.
  { split; [repeat constructor; auto | repeat constructor; simpl; lia]. }
  split; [exact Ok|].
  apply (proj1 (add_remove_round_trip
                  (MenuItem.mk 8 (js "Refrigerante Lata") 6 (js "Bebidas")) sampleCart Ok)).
  intros line F. discriminate F.
Defined.

Lemma subtotal_after_add_remove_witness :
  cartOk sampleCart
  /\ App.subtotalValue (App.addItem (MenuItem.mk 1 (js "X-Burger") 25 (js "Burgers"))
                                    sampleCart) = 75%Z.
Proof.
  assert (cartOk sampleCart) as Ok.
  { split; [repeat constructor; auto | repeat constructor; simpl; lia]. }
  split; [exact Ok|].
  rewrite (proj1 (subtotal_after_add_remove
                    (MenuItem.mk 1 (js "X-Burger") 25 (js "Burgers")) 0 sampleCart Ok)).
  reflexivity.
Defined.

(* ===================================================================== *)
(** * The handoff *)
(* ===================================================================== *)

Section Handoff.
Local Open Scope Z_scope.

Lemma run_tick (p : Z) (x : Sys) :
  runState (App.redirectionTick p) x
  = if 100 <=? p + 5
    then ((p + 5, false),
          mkSys (updIsChatClosed (fun _ => true)
                   (updRedirectionProgress (fun _ => p + 5) (app x))) (browser x))
    else ((p + 5, true),
          mkSys (updRedirectionProgress (fun _ => p + 5) (app x)) (browser x)).
Proof.
  unfold App.redirectionTick. cbn. destruct (100 <=? p + 5); reflexivity.
Qed.

Lemma exec_interval (fuel : nat) (p : Z) (x : Sys) :
  execState (App.runInterval (S fuel) p) x
  = if snd (fst (runState (App.redirectionTick p) x))
    then execState (App.runInterval fuel (fst (fst (runState (App.redirectionTick p) x))))
                   (snd (runState (App.redirectionTick p) x))
    else snd (runState (App.redirectionTick p) x).
Proof.
  unfold execState. cbn [App.runInterval]. rewrite run_bind.
  destruct (runState (App.redirectionTick p) x) as [[q go] y]. cbn [fst snd].
  destruct go; reflexivity.
Qed.

(** While the counter stays below 100 the interval only moves the
    progress. *)
Lemma runInterval_open (k : nat) (p : Z) (x : Sys) :
  p + 5 * Z.of_nat (S k) < 100 ->
  execState (App.runInterval (S k) p) x
  = mkSys (updRedirectionProgress (fun _ => p + 5 * Z.of_nat (S k)) (app x)) (browser x).
Proof.
  revert p x. induction k as [|k IH]; intros p x H; rewrite exec_interval, run_tick;
    replace (100 <=? p + 5) with false by (symmetry; apply Z.leb_gt; lia);
    cbn [fst snd].
  - replace (p + 5 * Z.of_nat 1) with (p + 5) by lia. reflexivity.
  - rewrite IH by lia. cbn [app browser].
    replace (p + 5 + 5 * Z.of_nat (S k)) with (p + 5 * Z.of_nat (S (S k))) by lia.
    reflexivity.
Qed.

(** Once the counter reaches 100 the interval closes the chat and clears
    itself, whatever fuel is left. *)
Lemma runInterval_closes (fuel : nat) (p : Z) (x : Sys) :
  100 <= p + 5 ->
  execState (App.runInterval (S fuel) p) x
  = mkSys (updIsChatClosed (fun _ => true)
             (updRedirectionProgress (fun _ => p + 5) (app x))) (browser x).
Proof.
  intros H. rewrite exec_interval, run_tick.
  replace (100 <=? p + 5) with true by (symmetry; apply Z.leb_le; lia). reflexivity.
Qed.

Lemma runInterval_from_zero (fuel : nat) (x : Sys) :
  (20 <= fuel)%nat ->
  execState (App.runInterval fuel 0) x
  = mkSys (updIsChatClosed (fun _ => true)
             (updRedirectionProgress (fun _ => 100) (app x))) (browser x).
Proof.
  intros H. destruct fuel as [|fuel]; [lia|].
  assert (forall k y, (k < 19)%nat ->
            execState (App.runInterval (S (fuel - k)) (5 * Z.of_nat k)) y
            = execState (App.runInterval (S (fuel - S k)) (5 * Z.of_nat (S k)))
                (mkSys (updRedirectionProgress (fun _ => 5 * Z.of_nat (S k)) (app y))
                       (browser y)))
    as Step.
  { intros k y Hk. rewrite exec_interval, run_tick.
    replace (100 <=? 5 * Z.of_nat k + 5) with false by (symmetry; apply Z.leb_gt; lia).
    cbn [fst snd]. replace (fuel - k)%nat with (S (fuel - S k)) by lia.
    replace (5 * Z.of_nat k + 5) with (5 * Z.of_nat (S k)) by lia. reflexivity. }
  replace (S fuel) with (S (fuel - 0)) by lia. change 0 with (5 * Z.of_nat 0).
  do 19 (rewrite Step by lia; cbn [app browser]).
  rewrite runInterval_closes by lia. reflexivity.
Qed.

(** X12. The interval started by the confirmation moves the progress by 5
    at each tick and leaves the chat open for the first 19 ticks; the 20th
    tick reaches 100, closes the chat and ends the interval.  From then on
    sending text and changing the cart do nothing. *)
Theorem handoff_closes_chat (x : Sys) :
  (forall k, (1 <= k < 20)%nat ->
     execState (App.runInterval k 0) x
     = mkSys (updRedirectionProgress (fun _ => 5 * Z.of_nat k) (app x)) (browser x))
  /\ (forall fuel, (20 <= fuel)%nat ->
      let x' := execState (App.runInterval fuel 0) x in
      redirectionProgress (app x') = 100
      /\ isChatClosed (app x') = true
      /\ (forall (rt : JsRuntime) text,
            execState (dispatch (App.handleSend text)) x' = x')
      /\ (forall item, execState (dispatch (App.addToCart item)) x' = x')
      /\ (forall id, execState (dispatch (App.removeFromCart id)) x' = x')).
Proof.
  split.
  - intros k Hk. destruct k as [|k]; [lia|].
    rewrite runInterval_open by lia. reflexivity.
  - intros fuel Hf x'. subst x'. rewrite (runInterval_from_zero fuel x Hf).
    repeat split.
Qed.

End Handoff.
(* ===================================================================== *)
(** * What the customer data holds *)
(* ===================================================================== *)

Lemma dropWhile_shorter (p : N -> bool) (s : jsstring) :
  length (Js.dropWhile p s) <= length s.
Proof.
  induction s as [|c r IH]; simpl; [lia|]. destruct (p c); simpl; lia.
Qed.

Lemma dropWhile_head (p : N -> bool) (s : jsstring) (c : N) (r : jsstring) :
  Js.dropWhile p s = c :: r -> p c = false.
Proof.
  induction s as [|d t IH]; simpl; [discriminate|].
  destruct (p d) eqn:E; [exact IH|]. intros H. injection H as <- _. exact E.
Qed.

Lemma dropWhile_fixed (p : N -> bool) (c : N) (r : jsstring) :
  p c = false -> Js.dropWhile p (c :: r) = c :: r.
Proof. intros H. simpl. now rewrite H. Qed.

Lemma dropWhile_idem (p : N -> bool) (s : jsstring) :
  Js.dropWhile p (Js.dropWhile p s) = Js.dropWhile p s.
Proof.
  destruct (Js.dropWhile p s) as [|c r] eqn:E; [reflexivity|].
  apply dropWhile_fixed. exact (dropWhile_head p s c r E).
Qed.

(** What is dropped is a prefix. *)
Lemma dropWhile_suffix (p : N -> bool) (s : jsstring) :
  exists dropped, s = dropped ++ Js.dropWhile p s.
Proof.
  induction s as [|c r [d IH]]; [now exists []|]. simpl.
  destruct (p c); [|now exists []].
  exists (c :: d). simpl. now f_equal.
Qed.

(** The scan stops in front of a character that is kept. *)
Lemma dropWhile_app_stop (p : N -> bool) (b : jsstring) (c : N) (r : jsstring) :
  p c = false -> exists b', Js.dropWhile p (b ++ c :: r) = b' ++ c :: r.
Proof.
  intros H. induction b as [|d b IH]; simpl.
  - rewrite H. now exists [].
  - destruct (p d); [exact IH|]. now exists (d :: b).
Qed.

Lemma dropWhile_app_keep (p : N -> bool) (s t : jsstring) :
  Js.dropWhile p s <> [] -> Js.dropWhile p (s ++ t) = Js.dropWhile p s ++ t.
Proof.
  induction s as [|c r IH]; simpl; [congruence|].
  destruct (p c); [exact IH|reflexivity].
Qed.

(** [trimEnd] cuts a suffix off. *)
Lemma trimEnd_prefix (s : jsstring) : exists cut, s = Js.trimEnd s ++ cut.
Proof.
  unfold Js.trimEnd. destruct (dropWhile_suffix Js.isSpace (rev s)) as [d E].
  exists (rev d). rewrite <- rev_app_distr, <- E. now rewrite rev_involutive.
Qed.

Lemma trimEnd_app (a s : jsstring) :
  Js.trimEnd s <> [] -> Js.trimEnd (a ++ s) = a ++ Js.trimEnd s.
Proof.
  unfold Js.trimEnd. intros H. rewrite rev_app_distr, dropWhile_app_keep.
  - now rewrite rev_app_distr, rev_involutive.
  - intros E. apply H. now rewrite E.
Qed.

(** Something is left of a text by [trim] only if something is left of it
    by [trimEnd]. *)
Lemma trim_left_trimEnd (s : jsstring) : Js.trim s <> [] -> Js.trimEnd s <> [].
Proof.
  unfold Js.trim, Js.trimStart. intros H E. apply H.
  destruct (dropWhile_suffix Js.isSpace s) as [d Es].
  unfold Js.trimEnd in *.
  destruct (Js.dropWhile Js.isSpace (rev (Js.dropWhile Js.isSpace s))) as [|c r] eqn:D;
    [reflexivity|].
  exfalso. rewrite Es, rev_app_distr in E.
  rewrite dropWhile_app_keep in E by (rewrite D; discriminate).
  rewrite D in E. apply (f_equal (@length N)) in E.
  rewrite length_rev, length_app in E. simpl in E. lia.
Qed.

(** A trimmed text is left alone by [trim]. *)
Lemma trim_idem (s : jsstring) : Js.trim (Js.trim s) = Js.trim s.
Proof.
  unfold Js.trim, Js.trimStart.
  set (t := Js.dropWhile Js.isSpace s).
  assert (Head : Js.dropWhile Js.isSpace (Js.trimEnd t) = Js.trimEnd t).
  { destruct (Js.trimEnd t) as [|c r] eqn:E; [reflexivity|].
    apply dropWhile_fixed. destruct (trimEnd_prefix t) as [cut Ecut].
    rewrite E in Ecut. simpl in Ecut. exact (dropWhile_head Js.isSpace s c _ Ecut). }
  rewrite Head. unfold Js.trimEnd. rewrite rev_involutive. now rewrite dropWhile_idem.
Qed.

(** ** The values stored pass their validators *)

Lemma validateName_stores_storable (input : jsstring) :
  NameValidationResult.valid (Validation.validateName input) = true ->
  storable EditField.name (NameValidationResult.cleanName (Validation.validateName input)).
Proof.
  unfold storable, Validation.validateName.
  destruct input as [|c r]; [discriminate|].
  remember (Js.trim (c :: r)) as clean eqn:Clean.
  cbv zeta.
  destruct (length clean <? 2) eqn:Short; [discriminate|].
  destruct (100 <? length clean) eqn:Long; [discriminate|].
  destruct (Validation.onlyDigitsOrSpaces clean) eqn:Digits; [discriminate|].
  destruct (Validation.noNameChar clean) eqn:Chars; [discriminate|].
  intros _. cbn [NameValidationResult.cleanName].
  destruct clean as [|d t]; [discriminate|].
  assert (Idem : Js.trim (d :: t) = d :: t) by (rewrite Clean; apply trim_idem).
  rewrite Idem, Short, Long, Digits, Chars. now split.
Qed.

Lemma addressAccepted_long (address : jsstring) :
  5 <= length (Js.trim address) -> addressAccepted address = true.
Proof.
  intros L. unfold addressAccepted, Validation.validateAddress.
  destruct address as [|c r]; [vm_compute in L; lia|].
  cbv zeta. apply Nat.ltb_ge in L. rewrite L.
  destruct (Validation.numberTokenFrom false _ || Validation.noNumberMarkFrom false _);
    reflexivity.
Qed.

Lemma separator_spelled : js ", N " = [44; 32; 78; 32]%N.
Proof. vm_compute. reflexivity. Qed.

(** The address completed by a house number is never too short. *)
Lemma numbered_address_long (base input : jsstring) :
  Js.trim input <> [] -> 5 <= length (Js.trim (base ++ js ", N " ++ input)).
Proof.
  intros NE. apply trim_left_trimEnd in NE.
  rewrite separator_spelled. unfold Js.trim, Js.trimStart.
  change ([44; 32; 78; 32]%N ++ input) with (44%N :: [32; 78; 32]%N ++ input).
  destruct (dropWhile_app_stop Js.isSpace base 44%N ([32; 78; 32]%N ++ input) eq_refl)
    as [b' ->].
  change (b' ++ 44%N :: [32; 78; 32]%N ++ input)
    with (b' ++ [44; 32; 78; 32]%N ++ input).
  rewrite app_assoc, trimEnd_app by exact NE.
  rewrite !length_app. simpl.
  destruct (Js.trimEnd input); [congruence|simpl; lia].
Qed.

Lemma number_valid_trim (input : jsstring) :
  ValidationResult.valid (Validation.validateAddressNumber input) = true ->
  Js.trim input <> [].
Proof.
  unfold Validation.validateAddressNumber. destruct input as [|c r]; [discriminate|].
  cbv zeta. destruct (Js.trim (c :: r)); [discriminate|discriminate].
Qed.

Lemma storable_filled (f : EditField.t) (v : jsstring) : storable f v -> v <> [].
Proof. destruct f; simpl; intros H ->; [destruct H as [H _]|..]; discriminate H. Qed.

Lemma storeField_complete (f : EditField.t) (v : jsstring) (d : UserData.t) :
  storable f v -> complete d -> complete (storeField f d v).
Proof.
  intros S (A & B & C). apply storable_filled in S.
  destruct f; repeat split; assumption.
Qed.

Lemma storeField_ok (f : EditField.t) (v : jsstring) (d : UserData.t) :
  storable f v -> dataOk d -> dataOk (storeField f d v).
Proof.
  intros S Ok g.
  destruct f, g;
    first [ right; exact S | exact (Ok EditField.name) | exact (Ok EditField.address)
          | exact (Ok EditField.payment) ].
Qed.

(* ===================================================================== *)
(** * What an action respects *)
(* ===================================================================== *)

Lemma run_inBrowser {A : Type} (m : state Browser A) (x : Sys) :
  runState (inBrowser m) x
  = (fst (runState m (browser x)), mkSys (app x) (snd (runState m (browser x)))).
Proof. unfold inBrowser. cbn. destruct (runState m (browser x)). reflexivity. Qed.

(** The lookup changes the notifications by at most one, the search flag,
    and nothing else of the application state. *)
Lemma lookup_changes (cep : jsstring) (s : AppState) (x : Sys) :
  exists l b w,
    snd (lookup cep s x)
    = mkSys (updIsSearchingCEP (fun _ => b) (updNotifications (fun _ => l) (app x))) w
    /\ noticeStep (notifications (app x)) l
    /\ (forall data, fst (lookup cep s x) = Some data -> l = notifications (app x)).
Proof.
  lookup_branches cep s x; decide_literals; cbn;
    destruct (app x);
    eexists; eexists; eexists;
    unfold updIsSearchingCEP, updNotifications; cbn;
    (split; [reflexivity | split; [|intros found E; try discriminate E; reflexivity]]);
    first [ left; reflexivity | right; left; eexists; reflexivity ].
Qed.

Arguments App.pushNotification : simpl never.

(** The parts of [processed], one by one. *)
Ltac notice_step :=
  first [ left; reflexivity | right; left; eexists; reflexivity | assumption ].

Ltac chat_step :=
  first [ exists []; split; [symmetry; apply app_nil_r | constructor]
        | eexists; split;
          [ rewrite <- ?app_assoc; reflexivity
          | cbn [List.app]; unfold chatClean;
            repeat (apply Forall_cons; [cbv beta; cbn [Message.text]; apply display_text_clean|]);
            apply Forall_nil ] ].

Ltac stores f := right; exists f; eexists; split; [|reflexivity].

Ltac data_step :=
  first [ reflexivity | left; reflexivity
        | stores EditField.name | stores EditField.address | stores EditField.payment ].

Ltac flow_step := let F := fresh "F" in intros F; first [discriminate F | exact F | left; exact F].

Ltac processed_parts :=
  unfold processed; cbn;
  split; [reflexivity | split; [notice_step | split; [chat_step | split;
    [data_step | split; [flow_step | reflexivity]]]]].

Section Processing.
Context {rt : JsRuntime}.

Lemma processed_refl (s : AppState) : processed s s.
Proof.
  unfold processed.
  split; [reflexivity | split; [notice_step | split; [chat_step | split;
    [data_step | split; [flow_step | reflexivity]]]]].
Qed.

(** Runs the lookup inside a handler. *)
Ltac through_lookup cep s x :=
  let l := fresh "l" in let b := fresh "b" in let w := fresh "w" in
  let E := fresh "E" in let NS := fresh "NS" in let Same := fresh "Same" in
  let r := fresh "r" in let x1 := fresh "x1" in
  unfold execState; rewrite run_bind; fold (lookup cep s x);
  destruct (lookup_changes cep s x) as (l & b & w & E & NS & Same);
  destruct (lookup cep s x) as [r x1]; cbn [fst snd] in *; subst x1;
  destruct r; [specialize (Same _ eq_refl); subst l|].

Lemma handleStep_processed (input : jsstring) (s : AppState) (x : Sys) :
  processed (app x) (app (execState (App.handleStep input s) x)).
Proof.
  unfold App.handleStep. destruct (flowStep s).
  - (* ordering *)
    destruct (isOnline s); cbn [negb]; [|processed_parts].
    unfold execState. rewrite run_bind, run_inBrowser. processed_parts.
  - (* ask_name *)
    destruct (NameValidationResult.valid (Validation.validateName input)) eqn:V;
      cbn [negb]; processed_parts.
    now apply validateName_stores_storable.
  - (* ask_address *)
    destruct (App.cepMatch input) as [cep|].
    + through_lookup cep s x; processed_parts.
    + destruct (AddressValidationResult.valid (Validation.validateAddress input)) eqn:V;
        destruct (AddressValidationResult.missing (Validation.validateAddress input))
          as [[|]|] eqn:M;
        processed_parts; unfold storable, addressAccepted; now rewrite V, M.
  - (* ask_address_number *)
    destruct (ValidationResult.valid (Validation.validateAddressNumber input)) eqn:V;
      cbn [negb]; [|processed_parts].
    apply number_valid_trim in V.
    destruct (pendingAddress s) as [|c r]; processed_parts; apply addressAccepted_long;
      [apply numbered_address_long | apply (numbered_address_long (c :: r))]; exact V.
  - (* confirm_address *)
    destruct (existsb _ App.positiveResponses); [processed_parts|].
    destruct (existsb _ App.negativeResponses); processed_parts.
  - (* ask_payment *)
    destruct (ValidationResult.valid (Validation.validatePaymentMethod input)) eqn:V;
      cbn [negb]; processed_parts.
    exact V.
  - destruct (isOnline s); cbn [negb]; [|processed_parts].
    unfold execState. rewrite run_bind, run_inBrowser. processed_parts.
  - destruct (isOnline s); cbn [negb]; [|processed_parts].
    unfold execState. rewrite run_bind, run_inBrowser. processed_parts.
  - destruct (isOnline s); cbn [negb]; [|processed_parts].
    unfold execState. rewrite run_bind, run_inBrowser. processed_parts.
Qed.

Lemma handleEdit_processed (field : EditField.t) (input : jsstring) (s : AppState)
      (x : Sys) :
  processed (app x) (app (execState (App.handleEdit field input s) x)).
Proof.
  unfold App.handleEdit. destruct field.
  - destruct (NameValidationResult.valid (Validation.validateName input)) eqn:V;
      cbn [negb]; processed_parts.
    now apply validateName_stores_storable.
  - destruct (App.cepMatch input) as [cep|].
    + through_lookup cep s x; processed_parts.
    + destruct (negb (AddressValidationResult.valid (Validation.validateAddress input))
                && _) eqn:V; processed_parts.
      unfold storable, addressAccepted. now rewrite V.
  - destruct (ValidationResult.valid (Validation.validatePaymentMethod input)) eqn:V;
      cbn [negb]; processed_parts.
    exact V.
Qed.

(** What went before a step may have extended the chat. *)
Lemma processed_later (s0 s1 s' : AppState) :
  cart s1 = cart s0 ->
  notifications s1 = notifications s0 ->
  (exists added, messages s1 = messages s0 ++ added /\ chatClean added) ->
  userData s1 = userData s0 ->
  flowStep s1 = flowStep s0 ->
  isChatClosed s1 = isChatClosed s0 ->
  processed s1 s' -> processed s0 s'.
Proof.
  intros C N (a1 & M & Clean1) U F Cl (C' & N' & (a2 & M' & Clean2) & U' & F' & Cl').
  unfold processed. rewrite <- C, <- N, <- U, <- F, <- Cl.
  repeat split; try assumption.
  exists (a1 ++ a2). split.
  - now rewrite M', M, app_assoc.
  - apply Forall_app. now split.
Qed.

Lemma handleBotResponse_processed (text : jsstring) (s : AppState) (x : Sys) :
  processed (app x) (app (execState (App.handleBotResponse text s) x)).
Proof.
  unfold App.handleBotResponse. rewrite exec_seq.
  destruct (Validation.sanitizeDisplayText text) as [|c r]; [processed_parts|].
  apply (processed_later _ (app (execState (setIsTyping true) x)));
    try reflexivity; [chat_step|].
  destruct (flowStep s), (editField s);
    first [apply handleEdit_processed | apply handleStep_processed].
Qed.

Lemma handleSend_processed (text : option jsstring) (s : AppState) (x : Sys) :
  processed (app x) (app (execState (App.handleSend text s) x)).
Proof.
  unfold App.handleSend.
  destruct (isChatClosed s); [apply processed_refl|].
  destruct (Nat.eqb _ 0); [apply processed_refl|].
  rewrite 2!exec_seq.
  eapply processed_later; [..|apply handleBotResponse_processed];
    try reflexivity.
  cbn. chat_step.
Qed.

End Processing.

Arguments App.addItem : simpl never.
Arguments App.removeItem : simpl never.

Ltac cart_step :=
  first [ reflexivity | left; reflexivity | right; left; eexists; reflexivity
        | right; right; eexists; reflexivity ].

Ltac notice_removed := right; right; eexists; reflexivity.

Ltac follows_parts :=
  unfold follows; cbn;
  split; [cart_step | split; [first [notice_step | notice_removed] | split;
    [chat_step | split; [data_step | split; [flow_step | split;
      [reflexivity | first [ intros _; split; reflexivity | congruence ]]]]]]].

Section Actions.
Context {rt : JsRuntime}.

Lemma follows_refl (a : Action) (s : AppState) : follows a s s.
Proof.
  unfold follows.
  split; [destruct (editsCart a); cbv iota; cart_step | split; [notice_step | split;
    [chat_step | split; [destruct (sends a); cbv iota; data_step | split;
      [intros F; now left | split; [reflexivity | intros _; split; reflexivity]]]]]].
Qed.

Lemma send_follows (a : Action) (text : option jsstring) (x : Sys) :
  sends a = true ->
  follows a (app x) (app (execState (App.handleSend text (app x)) x)).
Proof.
  intros S. destruct (isChatClosed (app x)) eqn:Closed.
  - assert (Same : execState (App.handleSend text (app x)) x = x)
      by (unfold App.handleSend; now rewrite Closed).
    rewrite Same. apply follows_refl.
  - destruct (handleSend_processed text (app x) x) as (C & N & M & U & F & Cl).
    unfold follows. rewrite S.
    split; [destruct (editsCart a); [left|]; exact C|].
    split; [exact N|]. split; [exact M|]. split; [exact U|].
    split; [intros Fin; left; exact (F Fin)|].
    split; [exact Cl|]. congruence.
Qed.

(** Every action respects [follows]. *)
Lemma act_follows (a : Action) (x : Sys) :
  follows a (app x) (app (execState (act a) x)).
Proof.
  destruct a as [v|v| | | |f| | |item|id|id| | | |t]; unfold act.
  - unfold submitText. rewrite exec_seq, exec_dispatch.
    exact (send_follows (TypeAndSend v) None (execState (setInputText v) x) eq_refl).
  - rewrite exec_dispatch. now apply send_follows.
  - rewrite exec_dispatch. unfold App.startCheckoutFlow.
    destruct (Nat.eqb _ 0); follows_parts.
  - follows_parts.
  - follows_parts.
  - destruct f; follows_parts.
  - follows_parts.
  - rewrite exec_dispatch. unfold App.startRedirection.
    destruct (UserData.name (userData (app x))) as [|c1 r1] eqn:Name;
      [follows_parts|].
    destruct (UserData.address (userData (app x))) as [|c2 r2] eqn:Address;
      [follows_parts|].
    destruct (UserData.paymentMethod (userData (app x))) as [|c3 r3] eqn:Payment;
      [follows_parts|].
    cbn [App.isEmpty orb].
    destruct (cart (app x)) as [|i c] eqn:Cart; [follows_parts|].
    unfold follows. cbn. rewrite Cart.
    split; [reflexivity | split; [notice_step | split; [chat_step | split;
      [reflexivity | split; [|split; [reflexivity|intros _; split; reflexivity]]]]]].
    intros _. right. unfold complete. rewrite Name, Address, Payment.
    repeat split; discriminate.
  - rewrite exec_dispatch. unfold App.addToCart.
    destruct (isChatClosed (app x)) eqn:Closed; follows_parts.
  - rewrite exec_dispatch. unfold App.removeFromCart.
    destruct (isChatClosed (app x)) eqn:Closed; follows_parts.
  - follows_parts.
  - follows_parts.
  - follows_parts.
  - follows_parts.
  - follows_parts.
Qed.

(** ** The invariant of a session *)

Lemma noticeStep_ok (l l' : list Notification.t) :
  noticeStep l l' -> noticesOk l -> noticesOk l'.
Proof.
  intros [->|[[n ->]|[keep ->]]] [Len Distinct]; [now split|..].
  - split; [now apply pushNotification_length|].
    unfold App.pushNotification.
    destruct (existsb _ l) eqn:Seen; [exact Distinct|].
    rewrite map_app. simpl.
    assert (Kept : forall m, In m (map Notification.message (Js.lastN 3 l)) ->
                             In m (map Notification.message l)).
    { intros m Hm. apply in_map_iff in Hm as (k & <- & Hk). apply in_map.
      unfold Js.lastN in Hk. rewrite <- (firstn_skipn (length l - 3) l).
      apply in_or_app. now right. }
    apply NoDup_app.
    + unfold Js.lastN. rewrite <- (firstn_skipn (length l - 3) l), map_app in Distinct.
      now apply NoDup_app_remove_l in Distinct.
    + repeat constructor. intros [].
    + intros m Hm [<-|[]]. apply Kept, in_map_iff in Hm as (k & Ek & Hk).
      assert (existsb (fun m => Js.eqb (Notification.message m) (Notification.message n)) l
              = true) as Found; [|congruence].
      apply existsb_exists. exists k. split; [exact Hk|]. rewrite Ek. apply eqb_spec.
      reflexivity.
  - split; [pose proof (List.filter_length_le keep l); lia|].
    clear Len. induction l as [|n r IH]; [constructor|].
    simpl in Distinct. apply NoDup_cons_iff in Distinct as [Fresh Distinct]. simpl.
    destruct (keep n); [|now apply IH].
    simpl. constructor; [|now apply IH].
    intros Hin. apply Fresh. apply in_map_iff in Hin as (k & Ek & Hk).
    apply filter_In in Hk as [Hk _]. rewrite <- Ek. now apply in_map.
Qed.

Lemma cartStep_ok (c c' : list CartItem.t) : cartStep c c' -> cartOk c -> cartOk c'.
Proof.
  intros [->|[[item ->]|[id ->]]] Ok;
    [exact Ok | now apply addItem_ok | now apply removeItem_ok].
Qed.

Lemma dataStep_ok (d d' : UserData.t) : dataStep d d' -> dataOk d -> dataOk d'.
Proof. intros [->|(f & v & S & ->)] Ok; [exact Ok | now apply storeField_ok]. Qed.

Lemma dataStep_complete (d d' : UserData.t) : dataStep d d' -> complete d -> complete d'.
Proof. intros [->|(f & v & S & ->)] Ok; [exact Ok | now apply storeField_complete]. Qed.

Lemma follows_keeps (a : Action) (s s' : AppState) :
  follows a s s' -> sessionOk s -> sessionOk s'.
Proof.
  intros (C & N & (added & M & Clean) & U & F & _ & _) (Cart & Notes & Chat & Data & Fin).
  assert (DS : dataStep (userData s) (userData s')).
  { destruct (sends a); [exact U | left; exact U]. }
  assert (CS : cartStep (cart s) (cart s')).
  { destruct (editsCart a); [exact C | left; exact C]. }
  split; [|split; [|split; [|split]]].
  - exact (cartStep_ok _ _ CS Cart).
  - exact (noticeStep_ok _ _ N Notes).
  - rewrite M. apply Forall_app. now split.
  - exact (dataStep_ok _ _ DS Data).
  - intros Done. apply (dataStep_complete _ _ DS).
    destruct (F Done) as [Before|(_ & Filled & _)]; [now apply Fin | exact Filled].
Qed.

Lemma after_cons (a : Action) (l : list Action) (x : Sys) :
  after (a :: l) x = after l (execState (act a) x).
Proof.
  unfold after. change (runActions (a :: l)) with (act a ;; runActions l).
  now rewrite exec_seq.
Qed.

Lemma sessionOk_kept (l : list Action) (x : Sys) :
  sessionOk (app x) -> sessionOk (after l x).
Proof.
  revert x. induction l as [|a l IH]; intros x Ok; [exact Ok|].
  rewrite after_cons. apply IH. exact (follows_keeps a _ _ (act_follows a x) Ok).
Qed.

(** X13. Whatever the customer and the network do, a session started from
    the initial state keeps a well-formed cart (one line per item, 1 to 99
    units each), at most four notifications with distinct messages, a chat
    log of sanitized texts, customer data whose fields are empty or pass
    their validators, and is finished only with all three fields filled
    in. *)
Theorem session_invariant (l : list Action) (online : bool) (w : Browser) :
  sessionOk (after l (mkSys (initialState online) w)).
Proof.
  apply sessionOk_kept. cbn. split; [|split; [|split; [|split]]].
  - split; constructor.
  - split; [simpl; lia | constructor].
  - constructor.
  - intros []; now left.
  - discriminate.
Qed.

(** X14. No sequence of actions rewrites the chat log (it only grows, by
    sanitized texts) or closes or reopens a chat; the cart is changed by
    the cart buttons only and the customer data by submitted texts only,
    and neither once the chat is closed; and the order is finished only
    through the confirmation. *)
Theorem actions_frame (l : list Action) (x : Sys) :
  (exists added, messages (after l x) = messages (app x) ++ added /\ chatClean added)
  /\ isChatClosed (after l x) = isChatClosed (app x)
  /\ (forallb (fun a => negb (editsCart a)) l = true -> cart (after l x) = cart (app x))
  /\ (forallb (fun a => negb (sends a)) l = true
      -> userData (after l x) = userData (app x))
  /\ (isChatClosed (app x) = true
      -> cart (after l x) = cart (app x) /\ userData (after l x) = userData (app x))
  /\ (flowStep (after l x) = finished
      -> flowStep (app x) = finished \/ In ConfirmOrder l).
Proof.
  revert x. induction l as [|a l IH]; intros x.
  - unfold after. cbn. repeat split; auto. exists []. split; [now rewrite app_nil_r|constructor].
  - rewrite after_cons.
    destruct (act_follows a x) as (C & _ & (a1 & M1 & Clean1) & U & F & Cl & Closed).
    destruct (IH (execState (act a) x))
      as ((a2 & M2 & Clean2) & Cl' & Cart' & Data' & Closed' & Fin').
    split; [|split; [|split; [|split; [|split]]]].
    + exists (a1 ++ a2). split; [now rewrite M2, M1, app_assoc|].
      apply Forall_app. now split.
    + now rewrite Cl'.
    + cbn [forallb]. intros H. apply andb_prop in H as [Ha Hl].
      rewrite (Cart' Hl). destruct (editsCart a); [discriminate Ha|exact C].
    + cbn [forallb]. intros H. apply andb_prop in H as [Ha Hl].
      rewrite (Data' Hl). destruct (sends a); [discriminate Ha|exact U].
    + intros H. destruct (Closed H) as [Ec Eu].
      rewrite Cl in Closed'. destruct (Closed' H) as [Ec' Eu'].
      split; congruence.
    + intros H. destruct (Fin' H) as [Before|Later]; [|right; now right].
      destruct (F Before) as [Start|(-> & _)]; [now left | right; now left].
Qed.

End Actions.

(* ===================================================================== *)
(** * The checkout conversation *)
(* ===================================================================== *)

Section Conversation.
Context {rt : JsRuntime}.

(** A text of which the sanitizer leaves something is handed to the step
    of the flow, after the input field is cleared and the text is shown in
    the chat, unless the chat is closed or a field is being edited. *)
Lemma submit_step (v : jsstring) (x : Sys) :
  isChatClosed (app x) = false ->
  Validation.sanitizeDisplayText v <> [] ->
  (flowStep (app x) = edit_info -> editField (app x) = None) ->
  execState (submitText v) x
  = execState (App.handleStep (Validation.sanitizeDisplayText v)
                              (updInputText (fun _ => v) (app x)))
      (mkSys (updIsTyping (fun _ => true)
               (updMessages
                  (fun prev => prev ++ [Message.mk user (Validation.sanitizeDisplayText v)
                                                   None])
                  (updInputText (fun _ => []) (updInputText (fun _ => v) (app x)))))
             (browser x)).
Proof.
  intros Open NE Edit.
  assert (T : Nat.eqb (length (Js.trim v)) 0 = false).
  { apply Nat.eqb_neq. intros L. apply NE, sanitize_blank.
    now destruct (Js.trim v). }
  unfold submitText. rewrite exec_seq, exec_dispatch.
  unfold App.handleSend. cbn [app execState runState setInputText setState updInputText
                              isChatClosed inputText].
  cbn. rewrite Open, T.
  unfold App.handleBotResponse.
  destruct (Validation.sanitizeDisplayText v) as [|c r] eqn:S; [congruence|].
  cbn [flowStep editField updInputText].
  destruct (flowStep (app x)) eqn:F; try reflexivity.
  rewrite (Edit eq_refl). reflexivity.
Qed.











Lemma run_cons (a : Action) (l : list Action) (x : Sys) :
  execState (runActions (a :: l)) x = execState (runActions l) (execState (act a) x).
Proof.
  change (runActions (a :: l)) with (act a ;; runActions l). now rewrite exec_seq.
Qed.









End Conversation.



(* ===================================================================== *)
(** * Working offline *)
(* ===================================================================== *)

Section Offline.
Context {rt : JsRuntime}.

(** Offline, the lookup only notifies. *)
Lemma lookup_offline (cep : jsstring) (s : AppState) (x : Sys) :
  isOnline s = false ->
  exists l,
    lookup cep s x = (None, mkSys (updNotifications (fun _ => l) (app x)) (browser x)).
Proof.
  intros Off. unfold lookup, App.handleCEPAction. rewrite Off.
  destruct (CEPValidationResult.valid (Validation.validateCEP cep)); cbn;
    eexists; reflexivity.
Qed.

Ltac silent_parts := unfold silent; cbn; repeat split.

Ltac offline_lookup cep s x Off :=
  let l := fresh "l" in let E := fresh "E" in
  unfold execState; rewrite run_bind; fold (lookup cep s x);
  destruct (lookup_offline cep s x Off) as (l & E); rewrite E; cbn [fst snd].

Lemma handleStep_offline (input : jsstring) (s : AppState) (x : Sys) :
  isOnline s = false -> silent x (execState (App.handleStep input s) x).
Proof.
  intros Off. unfold App.handleStep. destruct (flowStep s).
  - rewrite Off. silent_parts.
  - destruct (NameValidationResult.valid _); silent_parts.
  - destruct (App.cepMatch input) as [cep|].
    + offline_lookup cep s x Off. silent_parts.
    + destruct (AddressValidationResult.valid _);
        try destruct (AddressValidationResult.missing _) as [[|]|]; silent_parts.
  - destruct (ValidationResult.valid _); silent_parts.
  - destruct (existsb _ App.positiveResponses); [silent_parts|].
    destruct (existsb _ App.negativeResponses); silent_parts.
  - destruct (ValidationResult.valid _); silent_parts.
  - rewrite Off. silent_parts.
  - rewrite Off. silent_parts.
  - rewrite Off. silent_parts.
Qed.

Lemma handleEdit_offline (field : EditField.t) (input : jsstring) (s : AppState)
      (x : Sys) :
  isOnline s = false -> silent x (execState (App.handleEdit field input s) x).
Proof.
  intros Off. unfold App.handleEdit. destruct field.
  - destruct (NameValidationResult.valid _); silent_parts.
  - destruct (App.cepMatch input) as [cep|].
    + offline_lookup cep s x Off. silent_parts.
    + destruct (negb (AddressValidationResult.valid _) && _); silent_parts.
  - destruct (ValidationResult.valid _); silent_parts.
Qed.

Lemma silent_then (x y z : Sys) : silent x y -> silent y z -> silent x z.
Proof. intros (R & E & O) (R' & E' & O'). unfold silent. repeat split; congruence. Qed.

Lemma handleSend_offline (text : option jsstring) (s : AppState) (x : Sys) :
  isOnline s = false -> silent x (execState (App.handleSend text s) x).
Proof.
  intros Off. unfold App.handleSend.
  destruct (isChatClosed s); [silent_parts|].
  destruct (Nat.eqb _ 0); [silent_parts|].
  rewrite 2!exec_seq. unfold App.handleBotResponse. rewrite exec_seq.
  destruct (Validation.sanitizeDisplayText _) as [|c r]; [silent_parts|].
  eapply silent_then; [|destruct (flowStep s), (editField s);
    first [now apply handleEdit_offline | now apply handleStep_offline]].
  silent_parts.
Qed.

Lemma act_offline (a : Action) (x : Sys) :
  isOnline (app x) = false -> a <> WentOnline -> silent x (execState (act a) x).
Proof.
  intros Off NotBack.
  destruct a as [v|v| | | |f| | |item|id|id| | | |t]; unfold act;
    try congruence; try (silent_parts; fail).
  - unfold submitText. rewrite exec_seq, exec_dispatch.
    apply (silent_then _ (execState (setInputText v) x)); [silent_parts|].
    apply handleSend_offline. exact Off.
  - rewrite exec_dispatch. now apply handleSend_offline.
  - rewrite exec_dispatch. unfold App.startCheckoutFlow.
    destruct (Nat.eqb _ 0); silent_parts.
  - destruct f; silent_parts.
  - rewrite exec_dispatch. unfold App.startRedirection.
    destruct (_ || _); [silent_parts|]. destruct (Nat.eqb _ 0); silent_parts.
  - rewrite exec_dispatch. unfold App.addToCart.
    destruct (isChatClosed (app x)); silent_parts.
  - rewrite exec_dispatch. unfold App.removeFromCart.
    destruct (isChatClosed (app x)); silent_parts.
  - silent_parts. now rewrite Off.
Qed.

(** X17. While the application takes itself for offline it asks nothing
    of the network: whatever the customer does, until the browser reports
    the connection back, no request is made and nothing is logged, neither
    to the responder nor to the postal-code directory. *)
Theorem offline_is_silent (l : list Action) (x : Sys) :
  isOnline (app x) = false ->
  ~ In WentOnline l ->
  silent x (execState (runActions l) x).
Proof.
  revert x. induction l as [|a l IH]; intros x Off Never; [now repeat split|].
  rewrite run_cons.
  assert (Step : silent x (execState (act a) x)).
  { apply act_offline; [exact Off|]. intros ->. apply Never. now left. }
  apply (silent_then _ _ _ Step). apply IH.
  - destruct Step as (_ & _ & ->). exact Off.
  - intros Later. apply Never. now right.
Qed.

End Offline.

Lemma offline_is_silent_witness :
  events (browser (execState (runActions (rt := Latin1)
                                [TypeAndSend (js "quero um burger");
                                 AddToCart (MenuItem.mk 1 (js "X-Burger") 25 (js "Burgers"));
                                 Checkout; TypeAndSend (js "Maria");
                                 TypeAndSend (js "01001-000")])
                             (mkSys (initialState false) offlineBrowser)))
  = [].
Proof.
  refine (proj1 (proj2 (offline_is_silent (rt := Latin1) _
                          (mkSys (initialState false) offlineBrowser) eq_refl _))).
  intros [H|[H|[H|[H|[H|[]]]]]]; discriminate H.
Defined.

(* ===================================================================== *)
(** * A turn of the chat at the menu *)
(* ===================================================================== *)

Section ChatTurn.
Context {rt : JsRuntime}.

Lemma lastN_all {A : Type} (n : nat) (l : list A) : length l <= n -> Js.lastN n l = l.
Proof. intros H. unfold Js.lastN. now replace (length l - n) with 0 by lia. Qed.

(** X18. A text sent at the menu is shown in the chat and answered in the
    same turn by one more message.  Offline the answer is the fixed offline
    reply and nothing is requested.  Online the responder is asked with a
    prompt that carries the last five messages shown before this one, all of
    them, and then the text itself, sanitized for the responder, as the
    customer's line: one to three identical requests.  The step of the flow,
    the customer data, the cart and the notifications are left alone. *)
Theorem chat_turn (v : jsstring) (x : Sys) :
  let input := Validation.sanitizeDisplayText v in
  let turns := map App.historyTurn (Js.lastN 5 (messages (app x))) in
  let x' := execState (submitText v) x in
  isChatClosed (app x) = false ->
  flowStep (app x) = ordering ->
  input <> [] ->
  exists reply es,
    messages (app x')
    = messages (app x)
      ++ [Message.mk user input None;
          Message.mk bot (Validation.sanitizeDisplayText reply) None]
    /\ events (browser x') = events (browser x) ++ es
    /\ (isOnline (app x) = false -> reply = offlineReply /\ es = [])
    /\ (isOnline (app x) = true ->
        if App.isEmpty (GeminiService.sanitizeInput input) then es = []
        else 1 <= fetchesIn es <= 3
             /\ filter isFetch es
                = repeat (Fetch GeminiService.textApiUrl
                            (Some (promptWith turns (GeminiService.sanitizeInput input))))
                         (fetchesIn es))
    /\ asked ordering (userData (app x)) (pendingAddress (app x)) x x'
    /\ isTyping (app x') = false
    /\ inputText (app x') = [].
Proof.
  intros input turns x' Open F NE. subst x'.
  rewrite (submit_step v x Open NE) by congruence.
  unfold App.handleStep. cbn [flowStep updInputText]. rewrite F.
  cbn [isOnline updInputText messages].
  destruct (isOnline (app x)) eqn:Online; cbn [negb].
  - unfold execState. rewrite run_bind, run_inBrowser. fold input. fold turns.
    cbn [browser fst snd].
    assert (Net : exists es,
               events (snd (runState (GeminiService.sendMessage input turns) (browser x)))
               = events (browser x) ++ es
               /\ (if App.isEmpty (GeminiService.sanitizeInput input) then es = []
                   else 1 <= fetchesIn es <= 3
                        /\ filter isFetch es
                           = repeat (Fetch GeminiService.textApiUrl
                                       (Some (promptWith turns
                                                (GeminiService.sanitizeInput input))))
                                    (fetchesIn es))).
    { destruct (GeminiService.sanitizeInput input) as [|c r] eqn:S.
      - exists []. unfold GeminiService.sendMessage. rewrite S. cbn.
        split; [now rewrite app_nil_r | reflexivity].
      - assert (NE' : GeminiService.sanitizeInput input <> []) by (rewrite S; discriminate).
        rewrite (run_sendMessage _ _ _ NE'). cbv zeta. rewrite S.
        destruct (retryLoop_runs (c :: r) turns (browser x))
          as (es & w' & res & R & E & _ & B & _ & Fs & _).
        rewrite R. cbn [fst snd App.isEmpty].
        assert (Prompt : promptRequest (c :: r) turns
                         = Fetch GeminiService.textApiUrl
                                 (Some (promptWith turns (c :: r)))).
        { unfold promptRequest, GeminiService.fullPrompt, promptWith.
          rewrite lastN_all; [reflexivity|].
          unfold turns. rewrite length_map.
          pose proof (lastN_length 5 (messages (app x))). lia. }
        rewrite Prompt in Fs.
        destruct res as [t|].
        + exists es. cbn [snd]. split; [exact E | split; [exact B | exact Fs]].
        + exists (es ++ [fallbackWarning]). cbn [snd events afterEvent].
          rewrite fetchesIn_app, filter_app, E, app_assoc.
          change (fetchesIn [fallbackWarning]) with 0.
          change (filter isFetch [fallbackWarning]) with (@nil Event).
          rewrite !app_nil_r, !Nat.add_0_r.
          split; [reflexivity | split; [exact B | exact Fs]]. }
    destruct Net as (es & E & Bounds).
    exists (fst (runState (GeminiService.sendMessage input turns) (browser x))), es.
    split; [cbn; now rewrite <- app_assoc|]. split; [exact E|].
    split; [discriminate|]. split; [intros _; exact Bounds|].
    unfold asked. cbn. now repeat split.
  - exists offlineReply, []. unfold offlineReply.
    split; [cbn; now rewrite <- app_assoc|]. split; [cbn; now rewrite app_nil_r|].
    split; [now split|]. split; [discriminate|].
    unfold asked. cbn. now repeat split.
Qed.

End ChatTurn.

Lemma chat_turn_witness :
  isTyping (app (execState (submitText (rt := Latin1) (js "Tem batata?"))
                           (mkSys (initialState true)
                                  (steadyBrowser (Responds 200 (inl Failed))
                                                 (Rejects Failed)))))
  = false.
Proof.
  destruct (chat_turn (rt := Latin1) (js "Tem batata?")
              (mkSys (initialState true)
                     (steadyBrowser (Responds 200 (inl Failed)) (Rejects Failed)))
              eq_refl eq_refl) as (reply & es & _ & _ & _ & _ & _ & T & _).
  - vm_compute. discriminate.
  - exact T.
Defined.

(* ===================================================================== *)
(** * Address validator *)
(* ===================================================================== *)

Lemma wordStarts_cons (prevWord : bool) (c : N) (before : jsstring) :
  wordStarts prevWord (c :: before) = wordStarts (Js.isWord c) before.
Proof.
  unfold wordStarts. simpl rev. destruct (rev before) as [|d r]; reflexivity.
Qed.

(** The digits at the head of a text, and what follows them. *)
Lemma digits_split (s : jsstring) :
  exists run, s = run ++ Js.dropWhile Js.isDigit s /\ forallb Js.isDigit run = true.
Proof.
  induction s as [|c r (run & E & D)]; [now exists []|]. simpl.
  destruct (Js.isDigit c) eqn:C; [|now exists []].
  exists (c :: run). simpl. rewrite C, D. split; [now f_equal|reflexivity].
Qed.

Lemma digit_is_word (c : N) : Js.isDigit c = true -> Js.isWord c = true.
Proof. intros D. unfold Js.isWord. now rewrite D. Qed.

Lemma dropWhile_digits (run rest : jsstring) :
  forallb Js.isDigit run = true -> Validation.wordEnds rest = true ->
  Js.dropWhile Js.isDigit (run ++ rest) = rest.
Proof.
  intros D W. induction run as [|c r IH]; simpl.
  - destruct rest as [|d t]; [reflexivity|]. simpl in *.
    destruct (Js.isDigit d) eqn:E; [|reflexivity].
    apply digit_is_word in E. rewrite E in W. discriminate W.
  - simpl in D. apply andb_prop in D as [Dc Dr]. rewrite Dc. now apply IH.
Qed.

Lemma numberTokenFrom_spec (prevWord : bool) (s : jsstring) :
  Validation.numberTokenFrom prevWord s = true <-> holdsNumber prevWord s.
Proof.
  split.
  - revert prevWord. induction s as [|c r IH]; intros prevWord H; [discriminate H|].
    simpl in H. apply orb_prop in H as [H|H].
    + apply andb_prop in H as [H W]. apply andb_prop in H as [P D].
      destruct (digits_split r) as (run & E & Dr).
      exists [], (c :: run), (Js.dropWhile Js.isDigit r). simpl.
      rewrite D, Dr. repeat split; [now f_equal | discriminate | exact P | exact W].
    + destruct (IH _ H) as (before & number & rest & E & NE & D & B & W).
      exists (c :: before), number, rest. rewrite wordStarts_cons.
      repeat split; try assumption. simpl. now f_equal.
  - intros (before & number & rest & -> & NE & D & B & W).
    revert prevWord B. induction before as [|c before IH]; intros prevWord B.
    + destruct number as [|d run]; [congruence|]. simpl in D.
      apply andb_prop in D as [Dd Dr]. simpl.
      unfold wordStarts in B. simpl in B. rewrite B, Dd.
      rewrite (dropWhile_digits run rest Dr W), W. reflexivity.
    + rewrite wordStarts_cons in B. simpl. rewrite (IH _ B). apply orb_true_r.
Qed.

Lemma afterS_spec (r : jsstring) :
  Validation.afterS r = true
  <-> exists slash c2 rest,
        r = slash ++ c2 :: rest
        /\ (slash = [] \/ slash = [Js.chr "/"])
        /\ Validation.isN c2 = true
        /\ Validation.wordEnds rest = true.
Proof.
  split.
  - unfold Validation.afterS. destruct r as [|c1 r1]; [discriminate|].
    destruct (N.eqb_spec c1 (Js.chr "/")) as [->|Other].
    + destruct r1 as [|c2 r2]; [discriminate|]. intros H.
      apply andb_prop in H as [Hn W].
      exists [Js.chr "/"], c2, r2. repeat split; auto.
    + intros H. apply andb_prop in H as [Hn W].
      exists [], c1, r1. repeat split; auto.
  - intros (slash & c2 & rest & -> & [->| ->] & Hn & W); unfold Validation.afterS.
    + cbn [List.app]. destruct (c2 =? Js.chr "/")%N eqn:Slash.
      * apply N.eqb_eq in Slash. subst c2. vm_compute in Hn. discriminate Hn.
      * rewrite Hn, W. reflexivity.
    + cbn [List.app]. rewrite N.eqb_refl, Hn, W. reflexivity.
Qed.

Lemma noNumberMarkFrom_spec (prevWord : bool) (s : jsstring) :
  Validation.noNumberMarkFrom prevWord s = true <-> holdsNoNumberMark prevWord s.
Proof.
  split.
  - revert prevWord. induction s as [|c r IH]; intros prevWord H; [discriminate H|].
    simpl in H. apply orb_prop in H as [H|H].
    + apply andb_prop in H as [H A]. apply andb_prop in H as [P S].
      apply afterS_spec in A as (slash & c2 & rest & -> & Sl & Hn & W).
      exists [], c, slash, c2, rest. repeat split; assumption.
    + destruct (IH _ H) as (before & c1 & slash & c2 & rest & E & S & Sl & Hn & B & W).
      exists (c :: before), c1, slash, c2, rest. rewrite wordStarts_cons.
      repeat split; try assumption. simpl. now f_equal.
  - intros (before & c1 & slash & c2 & rest & -> & S & Sl & Hn & B & W).
    revert prevWord B. induction before as [|c before IH]; intros prevWord B.
    + simpl. unfold wordStarts in B. simpl in B. rewrite B, S.
      assert (A : Validation.afterS (slash ++ c2 :: rest) = true).
      { apply afterS_spec. now exists slash, c2, rest. }
      now rewrite A.
    + rewrite wordStarts_cons in B. simpl. rewrite (IH _ B). apply orb_true_r.
Qed.

(** X19. [validateAddress] accepts an address exactly when, trimmed, it
    has at least five code units and holds a number standing as a word of
    its own or the mark [s/n] ([sn]) in either case.  It reports everything
    as missing exactly when the trimmed address is shorter than five code
    units, and the number as missing in the remaining case. *)
Theorem validateAddress_valid_iff (address : jsstring) :
  let r := Validation.validateAddress address in
  let text := Js.trim address in
  (AddressValidationResult.valid r = true
   <-> 5 <= length text /\ (holdsNumber false text \/ holdsNoNumberMark false text))
  /\ (AddressValidationResult.missing r = Some MissingAll <-> length text < 5)
  /\ (AddressValidationResult.missing r = Some MissingNumber
      <-> 5 <= length text /\ ~ (holdsNumber false text \/ holdsNoNumberMark false text)).
Proof.
  intros r text.
  assert (Scan : Validation.numberTokenFrom false text
                 || Validation.noNumberMarkFrom false text = true
                 <-> holdsNumber false text \/ holdsNoNumberMark false text).
  { rewrite orb_true_iff, numberTokenFrom_spec, noNumberMarkFrom_spec. reflexivity. }
  subst r. unfold Validation.validateAddress.
  destruct address as [|c0 r0].
  - assert (E : text = []) by reflexivity. rewrite E. simpl.
    repeat split; try discriminate; try lia; intros [L _]; simpl in L; lia.
  - fold text. cbv zeta.
    destruct (Nat.ltb_spec (length text) 5) as [Short|Long].
    + simpl. repeat split; try discriminate; try lia; intros [L _]; lia.
    + destruct (Validation.numberTokenFrom false text
                || Validation.noNumberMarkFrom false text) eqn:Has; simpl.
      * assert (H : holdsNumber false text \/ holdsNoNumberMark false text)
          by now apply Scan.
        repeat split; try discriminate; try lia; try assumption.
        intros [_ No]. contradiction.
      * assert (H : ~ (holdsNumber false text \/ holdsNoNumberMark false text)).
        { intros H. apply Scan in H. discriminate H. }
        repeat split; try discriminate; try lia; try assumption.
        intros [_ Yes]. contradiction.
Qed.

(* ===================================================================== *)
(** * Postal codes found in a text *)
(* ===================================================================== *)

Lemma filter_all (p : N -> bool) (l : jsstring) : forallb p l = true -> filter p l = l.
Proof.
  induction l as [|c r IH]; simpl; [reflexivity|].
  intros H. apply andb_prop in H as [Hc Hr]. rewrite Hc. f_equal. now apply IH.
Qed.

Lemma digits_firstn (n : nat) (s : jsstring) :
  App.digits n s = true -> length (firstn n s) = n /\ forallb Js.isDigit (firstn n s) = true.
Proof.
  unfold App.digits. intros H. apply andb_prop in H as [L D].
  apply Nat.leb_le in L. split; [rewrite length_firstn; lia | exact D].
Qed.

(** What [cepAt] matches: eight digits, with or without a hyphen after the
    fifth. *)
Lemma cepAt_shape (s : jsstring) (n : nat) :
  App.cepAt s = Some n ->
  exists area hyphen street,
    firstn n s = area ++ hyphen ++ street
    /\ length area = 5 /\ forallb Js.isDigit area = true
    /\ (hyphen = [] \/ hyphen = [Js.chr "-"])
    /\ length street = 3 /\ forallb Js.isDigit street = true.
Proof.
  unfold App.cepAt. destruct (App.digits 5 s) eqn:Area; [|discriminate].
  apply digits_firstn in Area as [La Da].
  pose proof (firstn_skipn 5 s) as Split.
  destruct (skipn 5 s) as [|c r] eqn:Rest; [discriminate|].
  destruct (c =? Js.chr "-")%N eqn:Hyphen.
  - apply N.eqb_eq in Hyphen. subst c.
    destruct (App.digits 3 r) eqn:Street; [|discriminate].
    apply digits_firstn in Street as [Ls Ds]. intros E. injection E as <-.
    exists (firstn 5 s), [Js.chr "-"], (firstn 3 r).
    repeat split; auto.
    rewrite <- Split at 1. rewrite firstn_app, La.
    rewrite firstn_all2 by (rewrite La; lia). reflexivity.
  - destruct (App.digits 3 (c :: r)) eqn:Street; [|discriminate].
    apply digits_firstn in Street as [Ls Ds]. intros E. injection E as <-.
    exists (firstn 5 s), [], (firstn 3 (c :: r)).
    repeat split; auto.
    rewrite <- Split at 1. rewrite firstn_app, La.
    rewrite firstn_all2 by (rewrite La; lia). reflexivity.
Qed.

Lemma matchCepAnywhere_found (s m : jsstring) :
  App.matchCepAnywhere s = Some m ->
  exists before n, App.cepAt (skipn (length before) s) = Some n
                   /\ firstn (length before) s = before
                   /\ m = firstn n (skipn (length before) s).
Proof.
  induction s as [|c r IH].
  - intros E. discriminate E.
  - simpl App.matchCepAnywhere. destruct (App.cepAt (c :: r)) as [n|] eqn:At.
    + intros E. injection E as <-. now exists [], n.
    + intros H. destruct (IH H) as (before & n & A & B & E).
      exists (c :: before), n. simpl. rewrite B. auto.
Qed.

(** X20. A postal code that the flow finds in a text is a piece of that
    text made of eight digits, the last three possibly set off by a hyphen.
    Its validation therefore never fails on the number of digits: the
    normalized code is its eight digits, and when the validator rejects it,
    it is as an implausible code. *)
Theorem cepMatch_eight_digits (input cep : jsstring) :
  App.cepMatch input = Some cep ->
  (exists before rest, input = before ++ cep ++ rest)
  /\ (exists area hyphen street,
        cep = area ++ hyphen ++ street
        /\ length area = 5 /\ forallb Js.isDigit area = true
        /\ (hyphen = [] \/ hyphen = [Js.chr "-"])
        /\ length street = 3 /\ forallb Js.isDigit street = true)
  /\ CEPValidationResult.cleanCEP (Validation.validateCEP cep) = digitsOf cep
  /\ length (digitsOf cep) = 8
  /\ (CEPValidationResult.valid (Validation.validateCEP cep) = false ->
      CEPValidationResult.error (Validation.validateCEP cep)
      = Some (js "CEP invalido. Por favor, digite um CEP real.")).
Proof.
  intros Found.
  assert (Where : (exists before rest, input = before ++ cep ++ rest)
                  /\ exists s n, App.cepAt s = Some n /\ cep = firstn n s).
  { unfold App.cepMatch in Found.
    destruct (App.matchCepAnywhere input) as [m|] eqn:Any.
    - injection Found as ->.
      destruct (matchCepAnywhere_found _ _ Any) as (before & n & At & B & ->).
      split; [|now exists (skipn (length before) input), n].
      exists before, (skipn n (skipn (length before) input)).
      rewrite firstn_skipn. rewrite <- (firstn_skipn (length before) input) at 1.
      now rewrite B.
    - unfold App.matchCepExact in Found.
      destruct (Nat.eqb (length input) 8 && forallb Js.isDigit input) eqn:Exact;
        [|discriminate].
      injection Found as <-. apply andb_prop in Exact as [L D]. apply Nat.eqb_eq in L.
      split; [exists [], []; now rewrite app_nil_r|].
      exists input, 8. split; [|now rewrite firstn_all2 by lia].
      unfold App.cepAt, App.digits. rewrite L. simpl Nat.leb.
      assert (D5 : forallb Js.isDigit (firstn 5 input) = true).
      { apply forallb_forall. intros c Hc. apply (proj1 (forallb_forall _ _) D).
        rewrite <- (firstn_skipn 5 input). apply in_or_app. now left. }
      rewrite D5. cbn [andb].
      do 8 (destruct input as [|? input]; [discriminate L|]).
      destruct input; [|discriminate L]. cbn [skipn].
      simpl in D. repeat (apply andb_prop in D as [? D]).
      destruct (_ =? Js.chr "-")%N eqn:Hy.
      + apply N.eqb_eq in Hy. subst. discriminate.
      + cbn. repeat (match goal with H : Js.isDigit _ = true |- _ => rewrite H; clear H end).
        reflexivity. }
  destruct Where as (Piece & s & n & At & ->).
  destruct (cepAt_shape s n At) as (area & hyphen & street & E & La & Da & Hy & Ls & Ds).
  assert (Digits : digitsOf (firstn n s) = area ++ street).
  { rewrite E. unfold digitsOf. rewrite !filter_app, (filter_all _ _ Da), (filter_all _ _ Ds).
    destruct Hy as [->| ->]; reflexivity. }
  assert (Eight : length (digitsOf (firstn n s)) = 8).
  { rewrite Digits, length_app. lia. }
  split; [exact Piece|]. split; [now exists area, hyphen, street|].
  unfold Validation.validateCEP. rewrite strip_non_digits.
  destruct (firstn n s) as [|c r] eqn:Code; [discriminate Eight|].
  cbv zeta. rewrite Eight. cbn [Nat.eqb negb].
  rewrite firstDigit_in_range.
  destruct (existsb _ Validation.invalidPatterns); cbn; repeat split;
    try reflexivity; try discriminate; exact Eight.
Qed.

Lemma cepMatch_eight_digits_witness :
  digitsOf (js "41820-021") = js "41820021".
Proof.
  destruct (cepMatch_eight_digits (js "Moro no 41820-021, perto da praia")
                                  (js "41820-021")) as (_ & _ & Clean & _).
  - vm_compute. reflexivity.
  - rewrite <- Clean. vm_compute. reflexivity.
Defined.
